(** * glog: a severity-filtered logger writing to one size-rotated file

    A shallow embedding of [glog.go] and the properties of its size
    parser, its header formatter, its record assembler and its rotating
    file sink.

    Go values are modelled as follows.
    - [int] and [uint64] are [Z]; [uint64] arithmetic is reduced modulo
      [2^64] where the source computes it ([u64]).
    - a Go [string] is a [string] (a sequence of 8-bit characters), a
      [[]byte] or byte array is a [list ascii].
    - an index or slice expression out of range is a run-time panic.
    - [os.Exit] ends the run with its code.
    - the file system, the standard error stream, the wall clock and the
      free space of the device are fields of the [world]. *)

From Stdlib Require Import ZArith Ascii String List Lia Bool.
From stdpp Require Import base tactics option list gmap strings pretty.

Local Open Scope list_scope.
Local Open Scope Z_scope.

(** ** Machine arithmetic *)

Definition two64 : Z := 2 ^ 64.

(** Conversion to [uint64]: the low 64 bits, which sign-extends a negative
    [int32]. *)
Definition u64 (z : Z) : Z := z mod two64.

(** Conversion to [int], the 64-bit signed integer of the platform. *)
Definition i64 (z : Z) : Z := (z + 2 ^ 63) mod two64 - 2 ^ 63.

(** Conversion to [int32], the type of a rune and of [Severity]. *)
Definition i32 (z : Z) : Z := (z + 2 ^ 31) mod 2 ^ 32 - 2 ^ 31.

(** ** Bytes and strings *)

Definition byte_val (c : ascii) : Z := Z.of_N (N_of_ascii c).

Definition len (s : string) : Z := Z.of_nat (String.length s).

Definition bytes_of (s : string) : list ascii := list_ascii_of_string s.

(** [s[i]]: [None] is the index-out-of-range panic. *)
Definition str_index (s : string) (i : Z) : option ascii :=
  if (0 <=? i) && (i <? len s) then String.get (Z.to_nat i) s else None.

(** [s[:k]]: [None] is the slice-bounds-out-of-range panic. *)
Definition str_slice_to (s : string) (k : Z) : option string :=
  if (0 <=? k) && (k <=? len s) then Some (String.substring 0 (Z.to_nat k) s)
  else None.

(** [s[k:]]. *)
Definition str_slice_from (s : string) (k : Z) : option string :=
  if (0 <=? k) && (k <=? len s)
  then Some (String.substring (Z.to_nat k) (String.length s - Z.to_nat k) s)
  else None.

(** ** UTF-8 decoding, as [for _, ch := range s] performs it *)

Module Utf8.

Definition RuneError : Z := 0xFFFD.

Definition between (lo hi b : Z) : bool := (lo <=? b) && (b <=? hi).

Definition cont (b : Z) : bool := between 0x80 0xBF b.

Definition low6 (b : Z) : Z := Z.land b 0x3F.

(** The rune at the head of [bs] and the number of bytes it takes; an
    ill-formed or truncated sequence decodes to [RuneError] of width 1. *)
Definition decodeRune (bs : list Z) : Z * nat :=
  match bs with
  | [] => (RuneError, 1%nat)
  | b0 :: t =>
    if b0 <? 0x80 then (b0, 1%nat)
    else if between 0xC2 0xDF b0 then
      match t with
      | b1 :: _ =>
        if cont b1
        then (Z.lor (Z.shiftl (Z.land b0 0x1F) 6) (low6 b1), 2%nat)
        else (RuneError, 1%nat)
      | _ => (RuneError, 1%nat)
      end
    else if between 0xE0 0xEF b0 then
      let lo := if b0 =? 0xE0 then 0xA0 else 0x80 in
      let hi := if b0 =? 0xED then 0x9F else 0xBF in
      match t with
      | b1 :: b2 :: _ =>
        if between lo hi b1 && cont b2
        then (Z.lor (Z.shiftl (Z.land b0 0x0F) 12)
                (Z.lor (Z.shiftl (low6 b1) 6) (low6 b2)), 3%nat)
        else (RuneError, 1%nat)
      | _ => (RuneError, 1%nat)
      end
    else if between 0xF0 0xF4 b0 then
      let lo := if b0 =? 0xF0 then 0x90 else 0x80 in
      let hi := if b0 =? 0xF4 then 0x8F else 0xBF in
      match t with
      | b1 :: b2 :: b3 :: _ =>
        if between lo hi b1 && cont b2 && cont b3
        then (Z.lor (Z.shiftl (Z.land b0 0x07) 18)
                (Z.lor (Z.shiftl (low6 b1) 12)
                   (Z.lor (Z.shiftl (low6 b2) 6) (low6 b3))), 4%nat)
        else (RuneError, 1%nat)
      | _ => (RuneError, 1%nat)
      end
    else (RuneError, 1%nat)
  end.

(** The runes of a byte sequence; every step consumes at least one
    byte, so [length bs] steps are enough. *)
Fixpoint runes_go (steps : nat) (bs : list Z) : list Z :=
  match steps, bs with
  | S k, _ :: _ =>
    let '(r, w) := decodeRune bs in r :: runes_go k (drop w bs)
  | _, _ => []
  end.

Definition runes (s : string) : list Z :=
  let bs := map byte_val (bytes_of s) in runes_go (length bs) bs.

End Utf8.

(** ** Time *)

(** What [now.Date()], [now.Clock()] and [now.Nanosecond()] return. *)
Record Time := {
  Year : Z; Month : Z; Day : Z;
  Hour : Z; Minute : Z; Second : Z;
  Nanosecond : Z
}.

(** The ranges package [time] guarantees for these fields. *)
Definition wf_time (t : Time) : Prop :=
  1 <= Month t <= 12 /\ 1 <= Day t <= 31 /\
  0 <= Hour t <= 23 /\ 0 <= Minute t <= 59 /\ 0 <= Second t <= 59 /\
  0 <= Nanosecond t <= 999999999.

(** ** Errors *)

(** An [error] is modelled by the text its [Error()] method returns. *)
Definition error := string.

Definition errors_New (s : string) : error := s.

(** ** The world: operating system, logger and buffer pool *)

(** An [*os.File]: nil, open on a path, or closed. *)
Inductive File := FileNil | FileOpen (path : string) | FileClosed.

(** A [bufio.Writer]: the pending bytes [b.buf[:b.n]] and the sticky
    error [b.err]. Its underlying writer is the [sb_file] of the
    [syncBuffer] that embeds it. *)
Record Writer := { wr_buf : list ascii; wr_err : option error }.

(** [type buffer struct { bytes.Buffer; tmp [29]byte }]. *)
Record buffer := { Buffer : list ascii; tmp : list ascii }.

(** [type syncBuffer struct]; the [logger] back pointer is the logger of
    the world. *)
Record syncBuffer := {
  sb_Writer : Writer;
  sb_file : File;
  num : Z;
  nbytes : Z
}.

(** [type loggingT struct]; [l_file] is its field [file], nil or the one
    [syncBuffer] of the logger. *)
Record loggingT := {
  logPath : string;
  logLevel : Z;
  fileMaxSize : Z;
  l_file : option syncBuffer
}.

(** The state a run acts on.
    - [disk] maps a path to the content of the file there;
    - [denied] are the paths at which no file may be created or renamed to;
    - [space] is the number of bytes the device still accepts;
    - [stderr] is what was written to the standard error stream;
    - [clock] is the wall clock, read for the [ticks]-th time next;
    - [callers skip] is what [runtime.Caller(skip)] reports inside [header]
      during the call that is run: the file and line of that frame, or
      nothing;
    - [lg] is the logger, [pool] the buffers of the [sync.Pool]. *)
Record world := {
  disk : gmap string (list ascii);
  denied : gset string;
  space : Z;
  stderr : list ascii;
  clock : nat -> Time;
  ticks : nat;
  callers : Z -> option (string * Z);
  lg : loggingT;
  pool : list buffer
}.

Definition set_disk (d : gmap string (list ascii)) (w : world) : world :=
  {| disk := d; denied := denied w; space := space w; stderr := stderr w;
     clock := clock w; ticks := ticks w; callers := callers w;
     lg := lg w; pool := pool w |}.

Definition set_space (n : Z) (w : world) : world :=
  {| disk := disk w; denied := denied w; space := n; stderr := stderr w;
     clock := clock w; ticks := ticks w; callers := callers w;
     lg := lg w; pool := pool w |}.

Definition set_stderr (e : list ascii) (w : world) : world :=
  {| disk := disk w; denied := denied w; space := space w; stderr := e;
     clock := clock w; ticks := ticks w; callers := callers w;
     lg := lg w; pool := pool w |}.

Definition set_ticks (n : nat) (w : world) : world :=
  {| disk := disk w; denied := denied w; space := space w; stderr := stderr w;
     clock := clock w; ticks := n; callers := callers w;
     lg := lg w; pool := pool w |}.

Definition set_lg (l : loggingT) (w : world) : world :=
  {| disk := disk w; denied := denied w; space := space w; stderr := stderr w;
     clock := clock w; ticks := ticks w; callers := callers w;
     lg := l; pool := pool w |}.

Definition set_pool (p : list buffer) (w : world) : world :=
  {| disk := disk w; denied := denied w; space := space w; stderr := stderr w;
     clock := clock w; ticks := ticks w; callers := callers w;
     lg := lg w; pool := p |}.

Definition set_l_file (f : option syncBuffer) (l : loggingT) : loggingT :=
  {| logPath := logPath l; logLevel := logLevel l;
     fileMaxSize := fileMaxSize l; l_file := f |}.

Definition set_logLevel (s : Z) (l : loggingT) : loggingT :=
  {| logPath := logPath l; logLevel := s;
     fileMaxSize := fileMaxSize l; l_file := l_file l |}.

(** ** Runs *)

(** How a call ends: it returns, the process exits with a code, or the
    goroutine panics. *)
Inductive outcome (A : Type) :=
| Ret (a : A) (w : world)
| Exit (code : Z) (w : world)
| Panic (w : world).
Arguments Ret {A} a w.
Arguments Exit {A} code w.
Arguments Panic {A} w.

Definition M (A : Type) : Type := world -> outcome A.

Definition ret {A} (a : A) : M A := fun w => Ret a w.

Definition bind {A B} (m : M A) (f : A -> M B) : M B :=
  fun w =>
    match m w with
    | Ret a w' => f a w'
    | Exit c w' => Exit c w'
    | Panic w' => Panic w'
    end.

Notation "'let*' x := m 'in' k" := (bind m (fun x => k))
  (at level 10, x name, m at level 100, k at level 200).
Notation "'let*' ' p := m 'in' k" := (bind m (fun x => let 'p := x in k))
  (at level 10, p pattern, m at level 100, k at level 200).

Definition get : M world := fun w => Ret w w.
Definition modify (f : world -> world) : M unit := fun w => Ret tt (f w).
Definition os_Exit {A} (code : Z) : M A := fun w => Exit code w.
Definition panic {A} : M A := fun w => Panic w.

(** An index or slice expression that may be out of range. *)
Definition checked {A} (o : option A) : M A :=
  match o with Some a => ret a | None => panic end.

(** ** The operating system *)

(** [os.Stderr.Write] and [fmt.Fprintf(os.Stderr, ...)]. *)
Definition Stderr_Write (p : list ascii) : M unit :=
  modify (fun w => set_stderr (stderr w ++ p) w).

(** [time.Now()]. *)
Definition time_Now : M Time :=
  fun w => Ret (clock w (ticks w)) (set_ticks (S (ticks w)) w).

(** [os.Create]: the file is created empty, or truncated. *)
Definition os_Create (name : string) : M (File * option error) :=
  fun w =>
    if decide (name ∈ denied w)
    then Ret (FileNil, Some ("open " +:+ name +:+ ": permission denied")) w
    else Ret (FileOpen name, None) (set_disk (<[name := []]> (disk w)) w).

(** [os.Rename]: the file at [old] moves to [new], replacing what is
    there. *)
Definition os_Rename (old new : string) : M (option error) :=
  fun w =>
    match disk w !! old with
    | None =>
      Ret (Some ("rename " +:+ old +:+ " " +:+ new +:+
                 ": no such file or directory")) w
    | Some c =>
      if decide (new ∈ denied w)
      then Ret (Some ("rename " +:+ old +:+ " " +:+ new +:+
                      ": permission denied")) w
      else Ret None (set_disk (<[new := c]> (delete old (disk w))) w)
    end.

(** [Write] of an [os.File]: the device takes as many bytes as it has space
    for; a short write is an error. *)
Definition File_Write (f : File) (p : list ascii) : M (Z * option error) :=
  fun w =>
    match f with
    | FileOpen path =>
      let n := Z.max 0 (Z.min (Z.of_nat (length p)) (space w)) in
      let w' := set_space (space w - n)
                  (set_disk (alter (fun c => c ++ take (Z.to_nat n) p)
                                   path (disk w)) w) in
      Ret (n, if n <? Z.of_nat (length p)
              then Some ("write " +:+ path +:+ ": no space left on device")
              else None) w'
    | FileClosed => Ret (0, Some "write: file already closed") w
    | FileNil => Ret (0, Some "invalid argument") w
    end.

(** [Close] of an [os.File]. *)
Definition File_Close (f : File) : File :=
  match f with FileOpen _ => FileClosed | _ => f end.

(** ** [bufio.Writer] *)

Definition bufferSize : Z := 256 * 1024.

Definition Buffered (b : Writer) : Z := Z.of_nat (length (wr_buf b)).

Definition Available (b : Writer) : Z := bufferSize - Buffered b.

(** [bufio.NewWriterSize(sb.file, bufferSize)]. *)
Definition NewWriterSize : Writer := {| wr_buf := []; wr_err := None |}.

(** [Flush] of a [bufio.Writer]: what the file did not take stays pending and
    the error sticks. *)
Definition Writer_Flush (f : File) (b : Writer) : M (Writer * option error) :=
  match wr_err b with
  | Some e => ret (b, Some e)
  | None =>
    if Buffered b =? 0 then ret (b, None)
    else
      let* '(n, e) := File_Write f (wr_buf b) in
      let e := match e with
               | None => if n <? Buffered b then Some "short write" else None
               | Some _ => e
               end in
      match e with
      | Some _ => ret ({| wr_buf := drop (Z.to_nat n) (wr_buf b);
                          wr_err := e |}, e)
      | None => ret ({| wr_buf := []; wr_err := None |}, None)
      end
  end.

(** [Write] of a [bufio.Writer], after its loop: the rest of [p] fits the
    buffer, or the error is returned. *)
Definition Writer_Write_end (p : list ascii) (nn : Z) (b : Writer)
  : M (Z * option error * Writer) :=
  match wr_err b with
  | Some e => ret (nn, Some e, b)
  | None =>
    ret (nn + Z.of_nat (length p), None,
         {| wr_buf := wr_buf b ++ p; wr_err := None |})
  end.

(** Its loop [for len(p) > b.Available() && b.err == nil], run [k] times
    at most; two rounds are enough ([Writer_Write_rounds]). *)
Fixpoint Writer_Write_loop (k : nat) (f : File) (p : list ascii) (nn : Z)
    (b : Writer) : M (Z * option error * Writer) :=
  match k with
  | S k' =>
    if (Available b <? Z.of_nat (length p)) && bool_decide (wr_err b = None)
    then
      if Buffered b =? 0 then
        (* Large write, empty buffer: write directly from p. *)
        let* '(n, e) := File_Write f p in
        Writer_Write_loop k' f (drop (Z.to_nat n) p) (nn + n)
          {| wr_buf := wr_buf b; wr_err := e |}
      else
        let n := Available b in
        let* '(b', _) := Writer_Flush f
          {| wr_buf := wr_buf b ++ take (Z.to_nat n) p;
             wr_err := wr_err b |} in
        Writer_Write_loop k' f (drop (Z.to_nat n) p) (nn + n) b'
    else Writer_Write_end p nn b
  | O => Writer_Write_end p nn b
  end.

Definition Writer_Write (f : File) (p : list ascii) (b : Writer)
  : M (Z * option error * Writer) :=
  Writer_Write_loop 2 f p 0 b.

(** ** Severities *)

Definition DebugLog : Z := 0.
Definition InfoLog : Z := 1.
Definition WarningLog : Z := 2.
Definition ErrorLog : Z := 3.
Definition FatalLog : Z := 4.

Definition severityChar : string := "DIWEF".

(** ** The size parser *)

(** The body of [for _, ch := range s] in [stringToInt]: [ch] is a rune,
    a signed 32-bit integer, and [uint64(ch)] sign-extends it. *)
Fixpoint stringToInt_loop (rs : list Z) (n : Z) : Z * option error :=
  match rs with
  | [] => (n, None)
  | ch :: rs' =>
    let ch := i32 (ch - byte_val "0") in
    if 9 <? ch then (n, Some (errors_New ""))
    else stringToInt_loop rs' (u64 (n * 10 + u64 ch))
  end.

Definition stringToInt (s : string) : Z * option error :=
  stringToInt_loop (Utf8.runes s) 0.

Definition incorrect_size (s : string) : list ascii :=
  bytes_of ("The logfile size " +:+ s +:+ " is incorrect").

Definition unitConv (s : string) : M Z :=
  let* prefix := checked (str_slice_to s (len s - 1)) in
  let '(n, err) := stringToInt prefix in
  let* _ := match err with
            | Some _ => let* _ := Stderr_Write (incorrect_size s) in os_Exit 1
            | None => ret tt
            end in
  let* c := checked (str_index s (len s - 1)) in
  if bool_decide (c = "G"%char) || bool_decide (c = "g"%char)
  then ret (u64 (u64 (u64 (n * 1024) * 1024) * 1024))
  else if bool_decide (c = "M"%char) || bool_decide (c = "m"%char)
  then ret (u64 (u64 (n * 1024) * 1024))
  else if bool_decide (c = "K"%char) || bool_decide (c = "k"%char)
  then ret (u64 (n * 1024))
  else let* _ := Stderr_Write (incorrect_size s) in os_Exit 1.

(** [NewLogger]; the logger it returns is the [lg] of the world. The
    goroutine [flushDaemon] it starts calls [lockAndFlushAll] between
    other calls; it is not part of this run. *)
Definition NewLogger (path fileMaxSize : string) (level : Z)
    (flushInterval : Z) : M unit :=
  let* n := unitConv fileMaxSize in
  modify (set_lg {| logPath := path; logLevel := level;
                    fileMaxSize := n; l_file := None |}).

Definition SetLevel (level : Z) : M unit :=
  modify (fun w => set_lg (set_logLevel level (lg w)) w).

(** ** The sink *)

(** The [syncBuffer] that [l.file] points to; a nil [l.file] cannot be
    dereferenced. *)
Definition the_sink : M syncBuffer :=
  fun w => match l_file (lg w) with
           | Some sb => Ret sb w
           | None => Panic w
           end.

Definition put_sink (sb : syncBuffer) : M unit :=
  modify (fun w => set_lg (set_l_file (Some sb) (lg w)) w).

Definition set_Writer (b : Writer) (sb : syncBuffer) : syncBuffer :=
  {| sb_Writer := b; sb_file := sb_file sb; num := num sb;
     nbytes := nbytes sb |}.

Definition set_sb_file (f : File) (sb : syncBuffer) : syncBuffer :=
  {| sb_Writer := sb_Writer sb; sb_file := f; num := num sb;
     nbytes := nbytes sb |}.

Definition set_nbytes (n : Z) (sb : syncBuffer) : syncBuffer :=
  {| sb_Writer := sb_Writer sb; sb_file := sb_file sb; num := num sb;
     nbytes := n |}.

(** [sb.Flush()], the [Flush] of the embedded writer. *)
Definition sb_Flush : M (option error) :=
  let* sb := the_sink in
  let* '(b, err) := Writer_Flush (sb_file sb) (sb_Writer sb) in
  let* _ := put_sink (set_Writer b sb) in
  ret err.

(** [sb.Sync()]: the [disk] of the world is the durable storage already. *)
Definition sb_Sync : M (option error) :=
  let* sb := the_sink in
  match sb_file sb with
  | FileOpen _ => ret None
  | FileClosed => ret (Some "sync: file already closed")
  | FileNil => ret (Some "invalid argument")
  end.

(** [flushAll]; both errors are ignored. *)
Definition flushAll : M unit :=
  let* w := get in
  match l_file (lg w) with
  | Some _ => let* _ := sb_Flush in let* _ := sb_Sync in ret tt
  | None => ret tt
  end.

(** [Flush] and [lockAndFlushAll]. *)
Definition Flush : M unit := flushAll.

(** [time.Second], a [time.Duration]: a number of nanoseconds, an
    [int64]. *)
Definition time_Second : Z := 1000000000.

(** [time.NewTicker(d)]: it panics unless [d] is positive. *)
Definition time_NewTicker (d : Z) : M unit :=
  if d <=? 0 then panic else ret tt.

(** The loop of [flushDaemon], [for range ticker.C], for the first
    [rounds] ticks; the loop itself does not end. *)
Fixpoint flushDaemon_loop (rounds : nat) : M unit :=
  match rounds with
  | O => ret tt
  | S k => let* _ := Flush in flushDaemon_loop k
  end.

(** [flushDaemon], the goroutine [NewLogger] starts, up to [rounds]
    ticks; a panic of a goroutine ends the process. *)
Definition flushDaemon (flushInterval : Z) (rounds : nat) : M unit :=
  let* _ := time_NewTicker (i64 (i64 flushInterval * time_Second)) in
  flushDaemon_loop rounds.

Definition newline : ascii := "010"%char.

Definition exit {A} (err : error) : M A :=
  let* _ := Stderr_Write
              (bytes_of ("log: exiting because of error: " +:+ err) ++
               [newline]) in
  let* _ := flushAll in
  os_Exit 2.

(** [sb.create()]. Its receiver is the [syncBuffer] of [l.file], or, when
    [l.file] is nil (the call in [output]), a new one that is linked to
    the logger only when the file could be created. *)
Definition create : M (option error) :=
  let* w := get in
  let* '(f, err) := os_Create (logPath (lg w)) in
  match err with
  | Some _ =>
    let* _ := modify (fun w =>
      set_lg (set_l_file (set_sb_file f <$> l_file (lg w)) (lg w)) w) in
    ret err
  | None =>
    let n := match l_file (lg w) with Some sb => num sb | None => 0 end in
    let* _ := put_sink {| sb_Writer := NewWriterSize; sb_file := f;
                          num := n; nbytes := 0 |} in
    ret None
  end.

(** The verb [%d] of [fmt.Sprintf]. *)
Definition Sprintf_d (z : Z) : string := pretty z.

Definition rotateFile (now : Time) : M (option error) :=
  let* _ := sb_Flush in
  let* sb := the_sink in
  let* _ := put_sink (set_sb_file (File_Close (sb_file sb)) sb) in
  let* w := get in
  let filePath :=
    logPath (lg w) +:+ "." +:+ Sprintf_d (Year now) +:+
    Sprintf_d (Month now) +:+ Sprintf_d (Day now) +:+ "." +:+
    Sprintf_d (Hour now) +:+ Sprintf_d (Minute now) +:+
    Sprintf_d (Day now) in
  let* err := os_Rename (logPath (lg w)) filePath in
  match err with
  | Some _ => ret err
  | None => create
  end.

(** [sb.Write(p)]. *)
Definition sb_Write (p : list ascii) : M (Z * option error) :=
  let* sb := the_sink in
  let* w := get in
  let* _ :=
    if fileMaxSize (lg w) <=? u64 (nbytes sb + u64 (Z.of_nat (length p)))
    then
      let* now := time_Now in
      let* err := rotateFile now in
      match err with
      | Some e => exit e
      | None => ret tt
      end
    else ret tt in
  let* sb := the_sink in
  let* '(n, err, b) := Writer_Write (sb_file sb) p (sb_Writer sb) in
  let* _ := put_sink (set_nbytes (u64 (nbytes sb + u64 n))
                        (set_Writer b sb)) in
  match err with
  | Some e => exit e
  | None => ret (n, err)
  end.

(** ** Line buffers and their pool *)

(** [new(buffer)]. *)
Definition new_buffer : buffer :=
  {| Buffer := []; tmp := replicate 29 Ascii.zero |}.

(** [pool.Get()]: a buffer of the pool, or a new one. *)
Definition getBuffer : M buffer :=
  fun w => match pool w with
           | buf :: rest => Ret buf (set_pool rest w)
           | [] => Ret new_buffer w
           end.

Definition putBuffer (buf : buffer) : M unit :=
  modify (fun w =>
    set_pool ({| Buffer := []; tmp := tmp buf |} :: pool w) w).

(** [buf.tmp[i] = c]. *)
Definition tmp_set (i : Z) (c : ascii) (buf : buffer) : option buffer :=
  if (0 <=? i) && (i <? Z.of_nat (length (tmp buf)))
  then Some {| Buffer := Buffer buf; tmp := <[Z.to_nat i := c]> (tmp buf) |}
  else None.

(** [buf.Write(buf.tmp[:k])]. *)
Definition Write_tmp (k : Z) (buf : buffer) : option buffer :=
  if (0 <=? k) && (k <=? Z.of_nat (length (tmp buf)))
  then Some {| Buffer := Buffer buf ++ take (Z.to_nat k) (tmp buf);
               tmp := tmp buf |}
  else None.

Definition WriteString (s : string) (buf : buffer) : buffer :=
  {| Buffer := Buffer buf ++ bytes_of s; tmp := tmp buf |}.

Definition WriteByte (c : ascii) (buf : buffer) : buffer :=
  {| Buffer := Buffer buf ++ [c]; tmp := tmp buf |}.

(** ** The header formatter *)

Definition digits : string := "0123456789".

(** [digits[d%10]]; Go's [%] and [/] truncate toward zero. *)
Definition digit (d : Z) : option ascii := str_index digits (Z.rem d 10).

Definition twoDigits (i d : Z) (buf : buffer) : option buffer :=
  c ← digit d;
  buf ← tmp_set (i + 1) c buf;
  let d := Z.quot d 10 in
  c ← digit d;
  tmp_set i c buf.

(** The first loop of [nDigits], [for ; j >= 0 && d > 0; j--], entered
    with [j = k - 1]; it returns [j + 1]. *)
Fixpoint nDigits_fill (k : nat) (i d : Z) (buf : buffer)
  : option (nat * buffer) :=
  match k with
  | O => Some (O, buf)
  | S j =>
    if 0 <? d then
      c ← digit d;
      buf ← tmp_set (i + Z.of_nat j) c buf;
      nDigits_fill j i (Z.quot d 10) buf
    else Some (k, buf)
  end.

(** Its second loop, [for ; j >= 0; j--]. *)
Fixpoint nDigits_pad (k : nat) (i : Z) (pad : ascii) (buf : buffer)
  : option buffer :=
  match k with
  | O => Some buf
  | S j => buf ← tmp_set (i + Z.of_nat j) pad buf; nDigits_pad j i pad buf
  end.

Definition nDigits (n i d : Z) (pad : ascii) (buf : buffer) : option buffer :=
  '(k, buf) ← nDigits_fill (Z.to_nat n) i d buf;
  nDigits_pad k i pad buf.

(** The loop of [someDigits], entered with [j]; it returns the last [j]. *)
Fixpoint someDigits_loop (j : nat) (d : Z) (buf : buffer)
  : option (nat * buffer) :=
  match j with
  | O => None
  | S j' =>
    c ← digit d;
    buf ← tmp_set (Z.of_nat j') c buf;
    let d := Z.quot d 10 in
    if d =? 0 then Some (j', buf) else someDigits_loop j' d buf
  end.

(** [copy(buf.tmp[i:], buf.tmp[j:])]. *)
Definition copy_tmp (i : Z) (j : nat) (buf : buffer) : option (Z * buffer) :=
  if (0 <=? i) && (i <=? Z.of_nat (length (tmp buf))) then
    let src := drop j (tmp buf) in
    let n := Nat.min (length (tmp buf) - Z.to_nat i) (length src) in
    Some (Z.of_nat n,
          {| Buffer := Buffer buf;
             tmp := take (Z.to_nat i) (tmp buf) ++ take n src ++
                    drop (Z.to_nat i + n) (tmp buf) |})
  else None.

Definition someDigits (i d : Z) (buf : buffer) : option (Z * buffer) :=
  '(j, buf) ← someDigits_loop (length (tmp buf)) d buf;
  copy_tmp i j buf.

(** [timeNow], a variable of the package that holds [time.Now]. *)
Definition timeNow : M Time := time_Now.

Definition formatHeader (s : Z) (file : string) (line : Z) : M buffer :=
  let* now := timeNow in
  let line := if line <? 0 then 0 else line in
  let s := if FatalLog <? s then FatalLog else s in
  let* buf := getBuffer in
  checked (
    c ← str_index severityChar s;
    buf ← tmp_set 0 c buf;
    buf ← nDigits 4 1 (Year now) "0" buf;
    buf ← tmp_set 5 "-" buf;
    buf ← twoDigits 6 (Month now) buf;
    buf ← tmp_set 8 "-" buf;
    buf ← twoDigits 9 (Day now) buf;
    buf ← tmp_set 11 " " buf;
    buf ← twoDigits 12 (Hour now) buf;
    buf ← tmp_set 14 ":" buf;
    buf ← twoDigits 15 (Minute now) buf;
    buf ← tmp_set 17 ":" buf;
    buf ← twoDigits 18 (Second now) buf;
    buf ← tmp_set 20 "." buf;
    buf ← nDigits 6 21 (Z.quot (Nanosecond now) 1000) "0" buf;
    buf ← tmp_set 27 " " buf;
    buf ← Write_tmp 28 buf;
    let buf := WriteString file buf in
    buf ← tmp_set 0 ":" buf;
    '(n, buf) ← someDigits 1 line buf;
    buf ← tmp_set (n + 1) "]" buf;
    buf ← tmp_set (n + 2) " " buf;
    Write_tmp (n + 3) buf).

(** [strings.LastIndex(file, "/")]. *)
Fixpoint LastIndex_from (s : string) (i last : Z) : Z :=
  match s with
  | EmptyString => last
  | String c s' =>
    LastIndex_from s' (i + 1) (if bool_decide (c = "/"%char) then i else last)
  end.

Definition LastIndex_slash (s : string) : Z := LastIndex_from s 0 (-1).

Definition header (s depth : Z) : M (buffer * string * Z) :=
  let* w := get in
  let* '(file, line) :=
    match callers w (i64 (3 + depth)) with
    | None => ret ("???", 1)
    | Some (file, line) =>
      let slash := LastIndex_slash file in
      if 0 <=? slash
      then let* file := checked (str_slice_from file (slash + 1)) in
           ret (file, line)
      else ret (file, line)
    end in
  let* buf := formatHeader s file line in
  ret (buf, file, line).

(** ** The record assembler and the output *)

Definition output (buf : buffer) (file : string) (line : Z) : M unit :=
  let data := Buffer buf in
  let* w := get in
  let* _ :=
    match l_file (lg w) with
    | None =>
      let* err := create in
      match err with
      | Some e => let* _ := Stderr_Write data in exit e
      | None => ret tt
      end
    | Some _ => ret tt
    end in
  let* _ := sb_Write data in
  putBuffer buf.

(** [fmt.Fprint(buf, args...)] and [fmt.Fprintf(buf, format, args...)]
    append the text they format; that text is the argument [text] of the
    operations below. *)
Definition Fprint (text : list ascii) (buf : buffer) : buffer :=
  {| Buffer := Buffer buf ++ text; tmp := tmp buf |}.

(** [buf.Bytes()[buf.Len()-1]]. *)
Definition last_byte (buf : buffer) : option ascii :=
  let n := Z.of_nat (length (Buffer buf)) - 1 in
  if 0 <=? n then Buffer buf !! Z.to_nat n else None.

(** [if buf.Bytes()[buf.Len()-1] != '\n' { buf.WriteByte('\n') }]. *)
Definition end_line (buf : buffer) : M buffer :=
  let* c := checked (last_byte buf) in
  if bool_decide (c = newline) then ret buf else ret (WriteByte newline buf).

Definition printDepth (s depth : Z) (text : list ascii) : M unit :=
  let* '(buf, file, line) := header s depth in
  let buf := Fprint text buf in
  let* buf := end_line buf in
  output buf file line.

Definition print (s : Z) (text : list ascii) : M unit :=
  printDepth s 1 text.

Definition printfDepth (s depth : Z) (text : list ascii) : M unit :=
  let* '(buf, file, line) := header s depth in
  let buf := Fprint text buf in
  let* buf := end_line buf in
  output buf file line.

Definition printf (s : Z) (text : list ascii) : M unit :=
  let* '(buf, file, line) := header s 0 in
  let buf := Fprint text buf in
  let* buf := end_line buf in
  output buf file line.

(** [fmt.Fprintln] ends its text with a newline of its own. *)
Definition println (s : Z) (text : list ascii) : M unit :=
  let* '(buf, file, line) := header s 0 in
  let buf := Fprint (text ++ [newline]) buf in
  output buf file line.

(** ** The emit operations *)

Definition Debugf (text : list ascii) : M unit :=
  let* w := get in
  if logLevel (lg w) <=? DebugLog then printf DebugLog text else ret tt.

Definition Infof (text : list ascii) : M unit :=
  let* w := get in
  if logLevel (lg w) <=? InfoLog then printf InfoLog text else ret tt.

Definition Warningf (text : list ascii) : M unit :=
  let* w := get in
  if logLevel (lg w) <=? WarningLog then printf WarningLog text else ret tt.

Definition Errorf (text : list ascii) : M unit :=
  let* w := get in
  if logLevel (lg w) <=? ErrorLog then printf ErrorLog text else ret tt.

Definition Fatalf (text : list ascii) : M unit :=
  let* w := get in
  if logLevel (lg w) <=? FatalLog
  then let* _ := printf FatalLog text in exit (errors_New "")
  else ret tt.

Definition Debug (text : list ascii) : M unit :=
  let* w := get in
  if logLevel (lg w) <=? DebugLog then print DebugLog text else ret tt.

Definition Info (text : list ascii) : M unit :=
  let* w := get in
  if logLevel (lg w) <=? InfoLog then print InfoLog text else ret tt.

Definition Warning (text : list ascii) : M unit :=
  let* w := get in
  if logLevel (lg w) <=? WarningLog then print WarningLog text else ret tt.

Definition Error (text : list ascii) : M unit :=
  let* w := get in
  if logLevel (lg w) <=? ErrorLog then print ErrorLog text else ret tt.

Definition Fatal (text : list ascii) : M unit :=
  let* w := get in
  if logLevel (lg w) <=? FatalLog
  then let* _ := print FatalLog text in exit (errors_New "")
  else ret tt.

Definition DebugDepth (depth : Z) (text : list ascii) : M unit :=
  let* w := get in
  if logLevel (lg w) <=? DebugLog
  then printDepth DebugLog depth text else ret tt.

Definition InfoDepth (depth : Z) (text : list ascii) : M unit :=
  let* w := get in
  if logLevel (lg w) <=? InfoLog
  then printDepth InfoLog depth text else ret tt.

Definition WarningDepth (depth : Z) (text : list ascii) : M unit :=
  let* w := get in
  if logLevel (lg w) <=? WarningLog
  then printDepth WarningLog depth text else ret tt.

Definition ErrorDepth (depth : Z) (text : list ascii) : M unit :=
  let* w := get in
  if logLevel (lg w) <=? ErrorLog
  then printDepth ErrorLog depth text else ret tt.

Definition FatalDepth (depth : Z) (text : list ascii) : M unit :=
  let* w := get in
  if logLevel (lg w) <=? FatalLog
  then let* _ := printDepth FatalLog depth text in exit (errors_New "")
  else ret tt.

Definition DebugfDepth (depth : Z) (text : list ascii) : M unit :=
  let* w := get in
  if logLevel (lg w) <=? DebugLog
  then printfDepth DebugLog depth text else ret tt.

Definition InfofDepth (depth : Z) (text : list ascii) : M unit :=
  let* w := get in
  if logLevel (lg w) <=? InfoLog
  then printfDepth InfoLog depth text else ret tt.

Definition WarningfDepth (depth : Z) (text : list ascii) : M unit :=
  let* w := get in
  if logLevel (lg w) <=? WarningLog
  then printfDepth WarningLog depth text else ret tt.

Definition ErrorfDepth (depth : Z) (text : list ascii) : M unit :=
  let* w := get in
  if logLevel (lg w) <=? ErrorLog
  then printfDepth ErrorLog depth text else ret tt.

Definition FatalfDepth (depth : Z) (text : list ascii) : M unit :=
  let* w := get in
  if logLevel (lg w) <=? FatalLog
  then let* _ := printfDepth FatalLog depth text in exit (errors_New "")
  else ret tt.

(** * Properties *)

(** ** Vocabulary of the statements *)

(** A world with an empty disk and no logger file, for closed examples. *)
Definition demo_time : Time :=
  {| Year := 2024; Month := 3; Day := 7; Hour := 8; Minute := 9;
     Second := 5; Nanosecond := 123000 |}.

Definition demo_world (level maxSize : Z) : world :=
  {| disk := ∅; denied := ∅; space := 1000000; stderr := [];
     clock := fun _ => demo_time; ticks := 0;
     callers := fun k =>
       if (3 <=? k) && (k <=? 4) then Some ("/src/demo.go", 42) else None;
     lg := {| logPath := "/tmp/app.log"; logLevel := level;
              fileMaxSize := maxSize; l_file := None |};
     pool := [] |}.

(** The value of a decimal numeral, most significant digit first. *)
Definition digit_value (c : ascii) : Z := byte_val c - 48.

Definition is_digit (c : ascii) : Prop := 0 <= digit_value c <= 9.

Fixpoint numeral_value_from (acc : Z) (s : string) : Z :=
  match s with
  | EmptyString => acc
  | String c s' => numeral_value_from (acc * 10 + digit_value c) s'
  end.

Definition numeral_value (s : string) : Z := numeral_value_from 0 s.

Fixpoint is_numeral (s : string) : Prop :=
  match s with
  | EmptyString => True
  | String c s' => is_digit c /\ is_numeral s'
  end.

(** The number of bytes a unit suffix stands for. *)
Definition unit_factor (c : ascii) : option Z :=
  if bool_decide (c = "K"%char) || bool_decide (c = "k"%char)
  then Some 1024
  else if bool_decide (c = "M"%char) || bool_decide (c = "m"%char)
  then Some (1024 * 1024)
  else if bool_decide (c = "G"%char) || bool_decide (c = "g"%char)
  then Some (1024 * 1024 * 1024)
  else None.

Fixpoint last_char (s : string) : option ascii :=
  match s with
  | EmptyString => None
  | String c EmptyString => Some c
  | String _ s' => last_char s'
  end.

(** The character of a decimal digit. *)
Definition digit_char (k : Z) : ascii := pretty_N_char (Z.to_N k).

(** The [n] low decimal digits of [d], most significant first. *)
Fixpoint fixed_digits (n : nat) (d : Z) : list ascii :=
  match n with
  | O => []
  | S n' => fixed_digits n' (d / 10) ++ [digit_char (d mod 10)]
  end.

(** The decimal numeral of [d], of minimal width. *)
Definition decimal (d : Z) : string := pretty d.

(** [s] padded on the left with zeros to [w] characters. *)
Definition zero_pad (w : nat) (s : string) : string :=
  string_of_list_ascii (replicate (w - String.length s) "0"%char) +:+ s.

(** The letter of a severity; what is above [FatalLog] counts as fatal. *)
Definition severity_letter (s : Z) : ascii :=
  if s =? 0 then "D"%char
  else if s =? 1 then "I"%char
  else if s =? 2 then "W"%char
  else if s =? 3 then "E"%char
  else "F"%char.

(** The header of a record as the specification writes it:
    [<SeverityChar><YYYY>-<MM>-<DD> <HH>:<MM>:<SS>.<uuuuuu> <file>:<line>] ]
    with one trailing space. *)
Definition header_text (s : Z) (now : Time) (file : string) (line : Z)
  : string :=
  String (severity_letter s)
    (zero_pad 4 (decimal (Year now)) +:+ "-" +:+
     zero_pad 2 (decimal (Month now)) +:+ "-" +:+
     zero_pad 2 (decimal (Day now)) +:+ " " +:+
     zero_pad 2 (decimal (Hour now)) +:+ ":" +:+
     zero_pad 2 (decimal (Minute now)) +:+ ":" +:+
     zero_pad 2 (decimal (Second now)) +:+ "." +:+
     zero_pad 6 (decimal (Nanosecond now / 1000)) +:+ " " +:+
     file +:+ ":" +:+ decimal line +:+ "] ").

(** The year a header shows in its four digits: the low four digits of
    the year, and zero for a negative year. *)
Definition printed_year (y : Z) : Z := Z.max 0 y mod 10000.

(** The time [t] in the year [y]. *)
Definition with_year (y : Z) (t : Time) : Time :=
  {| Year := y; Month := Month t; Day := Day t; Hour := Hour t;
     Minute := Minute t; Second := Second t; Nanosecond := Nanosecond t |}.

(** The demo world in the year 12345, for a closed example. *)
Definition demo_year_12345 : world :=
  {| disk := ∅; denied := ∅; space := 1000000; stderr := [];
     clock := fun _ => with_year 12345 demo_time; ticks := 0;
     callers := fun k =>
       if (3 <=? k) && (k <=? 4) then Some ("/src/demo.go", 42) else None;
     lg := {| logPath := "/tmp/app.log"; logLevel := 0;
              fileMaxSize := 1000; l_file := None |};
     pool := [] |}.

(** The same header as the formatter lays it out for every clock and
    line: fields of fixed width keep their low digits, what is negative
    counts as zero. *)
Definition header_bytes (s : Z) (now : Time) (file : string) (line : Z)
  : list ascii :=
  [severity_letter s] ++ fixed_digits 4 (Z.max 0 (Year now)) ++
  ["-"%char] ++ fixed_digits 2 (Month now) ++
  ["-"%char] ++ fixed_digits 2 (Day now) ++
  [" "%char] ++ fixed_digits 2 (Hour now) ++
  [":"%char] ++ fixed_digits 2 (Minute now) ++
  [":"%char] ++ fixed_digits 2 (Second now) ++
  ["."%char] ++ fixed_digits 6 (Z.max 0 (Z.quot (Nanosecond now) 1000)) ++
  [" "%char] ++ bytes_of file ++
  [":"%char] ++ bytes_of (decimal (Z.max 0 line)) ++ ["]"%char; " "%char].

(** The array [t] with the segment [seg] written at index [i]. *)
Definition splice (i : nat) (seg t : list ascii) : list ascii :=
  take i t ++ seg ++ drop (i + length seg) t.

(** The last statements of [formatHeader], from [buf.tmp[0] = ':'] on. *)
Definition header_tail (line : Z) (buf : buffer) : option buffer :=
  buf ← tmp_set 0 ":" buf;
  '(n, buf) ← someDigits 1 line buf;
  buf ← tmp_set (n + 1) "]" buf;
  buf ← tmp_set (n + 2) " " buf;
  Write_tmp (n + 3) buf.

(** The statements of [formatHeader] that fill the buffer [buf], for the
    clamped severity [s] and line [line]. *)
Definition header_fill (s : Z) (now : Time) (file : string) (line : Z)
    (buf : buffer) : option buffer :=
  c ← str_index severityChar s;
  buf ← tmp_set 0 c buf;
  buf ← nDigits 4 1 (Year now) "0" buf;
  buf ← tmp_set 5 "-" buf;
  buf ← twoDigits 6 (Month now) buf;
  buf ← tmp_set 8 "-" buf;
  buf ← twoDigits 9 (Day now) buf;
  buf ← tmp_set 11 " " buf;
  buf ← twoDigits 12 (Hour now) buf;
  buf ← tmp_set 14 ":" buf;
  buf ← twoDigits 15 (Minute now) buf;
  buf ← tmp_set 17 ":" buf;
  buf ← twoDigits 18 (Second now) buf;
  buf ← tmp_set 20 "." buf;
  buf ← nDigits 6 21 (Z.quot (Nanosecond now) 1000) "0" buf;
  buf ← tmp_set 27 " " buf;
  buf ← Write_tmp 28 buf;
  header_tail line (WriteString file buf).

(** The buffer [getBuffer] hands out in [w], and [w] once the clock was
    read and that buffer taken. *)
Definition next_buffer (w : world) : buffer :=
  match pool w with buf :: _ => buf | [] => new_buffer end.

Definition taken (w : world) : world :=
  let w := set_ticks (S (ticks w)) w in
  match pool w with _ :: rest => set_pool rest w | [] => w end.

(** A buffer as the pool hands it out: empty, with its array of 29 bytes. *)
Definition wf_buffer (buf : buffer) : Prop :=
  Buffer buf = [] /\ length (tmp buf) = 29%nat.

(** Whether a byte sequence ends in a newline. *)
Definition ends_with_newline (l : list ascii) : bool :=
  match last l with
  | Some c => bool_decide (c = newline)
  | None => false
  end.

(** A byte sequence with a newline appended unless it ends in one. *)
Definition terminated (l : list ascii) : list ascii :=
  if ends_with_newline l then l else l ++ [newline].

(** The number of newlines a byte sequence ends in. *)
Fixpoint leading_newlines (l : list ascii) : nat :=
  match l with
  | c :: l' => if bool_decide (c = newline) then S (leading_newlines l') else 0
  | [] => 0
  end.

Definition trailing_newlines (l : list ascii) : nat :=
  leading_newlines (reverse l).

(** The record the assembler makes of a header and the formatted text. *)
Definition record_of (hdr : buffer) (text : list ascii) : buffer :=
  {| Buffer := terminated (Buffer hdr ++ text); tmp := tmp hdr |}.

(** The world with the disk [d] and [sp] bytes of space left. *)
Definition with_file (d : gmap string (list ascii)) (sp : Z) (w : world)
  : world :=
  set_space sp (set_disk d w).

(** The number of bytes the device accepts of [p]. *)
Definition accepted (p : list ascii) (w : world) : Z :=
  Z.max 0 (Z.min (Z.of_nat (length p)) (space w)).

(** The content of the log file as the sink sees it: what is on the disk
    at the log path followed by what is pending in the write buffer. *)
Definition log_content (w : world) : list ascii :=
  match l_file (lg w) with
  | Some sb => default [] (disk w !! logPath (lg w)) ++ wr_buf (sb_Writer sb)
  | None => []
  end.

(** The name the specification gives a rotated file. *)
Definition rotated_name (path : string) (now : Time) : string :=
  path +:+ "." +:+ decimal (Year now) +:+ decimal (Month now) +:+
  decimal (Day now) +:+ "." +:+ decimal (Hour now) +:+
  decimal (Minute now) +:+ decimal (Day now).

(** The sink [sb] of the logger is open on the log file, which exists,
    and its write buffer is within its size. *)
Definition sink_open (w : world) (sb : syncBuffer) : Prop :=
  l_file (lg w) = Some sb /\
  sb_file sb = FileOpen (logPath (lg w)) /\
  is_Some (disk w !! logPath (lg w)) /\
  Buffered (sb_Writer sb) <= bufferSize.

(** The byte counter of the sink is the length of the log file as the sink
    sees it, in [uint64]. *)
Definition counted (w : world) : Prop :=
  forall sb, l_file (lg w) = Some sb ->
    sink_open w sb /\
    nbytes sb = u64 (Z.of_nat (length (log_content w))).

(** Writes one after the other. *)
Fixpoint write_all (ps : list (list ascii)) : M unit :=
  match ps with
  | [] => ret tt
  | p :: ps' => let* _ := sb_Write p in write_all ps'
  end.

(** A run that returns or ends the process with code 2: it does not
    panic and exits with no other code. *)
Definition ends {A} (o : outcome A) : Prop :=
  match o with
  | Ret _ _ => True
  | Exit c _ => c = 2
  | Panic _ => False
  end.

(** Two worlds with the same configuration: they differ at most in the
    disk, the free space, the clock ticks and the sink of the logger. *)
Definition same_config (w w' : world) : Prop :=
  denied w' = denied w /\ stderr w' = stderr w /\ clock w' = clock w /\
  callers w' = callers w /\ pool w' = pool w /\
  logPath (lg w') = logPath (lg w) /\ logLevel (lg w') = logLevel (lg w) /\
  fileMaxSize (lg w') = fileMaxSize (lg w).

(** The sink a successful [create] leaves. *)
Definition fresh_sink (path : string) (n : Z) : syncBuffer :=
  {| sb_Writer := NewWriterSize; sb_file := FileOpen path; num := n;
     nbytes := 0 |}.

(** Whether [sb.Write(p)] rotates the file first. *)
Definition rotates (w : world) (sb : syncBuffer) (p : list ascii) : bool :=
  fileMaxSize (lg w) <=? u64 (nbytes sb + u64 (Z.of_nat (length p))).

(** The statements of [sb.Write] after the rotation: the buffered write
    and the update of the byte counter. *)
Definition sb_append (p : list ascii) : M (Z * option error) :=
  let* sb := the_sink in
  let* '(n, err, b) := Writer_Write (sb_file sb) p (sb_Writer sb) in
  let* _ := put_sink (set_nbytes (u64 (nbytes sb + u64 n))
                        (set_Writer b sb)) in
  match err with
  | Some e => exit e
  | None => ret (n, err)
  end.

(** A sink that is open on a world with the log file on the disk and no
    path denied, for closed examples. *)
Definition demo_sink : syncBuffer :=
  {| sb_Writer := {| wr_buf := bytes_of "new"; wr_err := None |};
     sb_file := FileOpen "/tmp/app.log"; num := 0; nbytes := 6 |}.

Definition demo_open (maxSize : Z) : world :=
  {| disk := {[ "/tmp/app.log" := bytes_of "old" ]}; denied := ∅;
     space := 1000000; stderr := [];
     clock := fun _ => demo_time; ticks := 0;
     callers := fun k =>
       if (3 <=? k) && (k <=? 4) then Some ("/src/demo.go", 42) else None;
     lg := {| logPath := "/tmp/app.log"; logLevel := 0;
              fileMaxSize := maxSize; l_file := Some demo_sink |};
     pool := [] |}.

(** The world a run ends in. *)
Definition world_of {A} (o : outcome A) : world :=
  match o with Ret _ w | Exit _ w | Panic w => w end.

(** Two writes of 60 bytes to a new sink with [maxSize = 100]: the world
    after the first and after the second. *)
Definition demo_first : world :=
  world_of ((let* _ := create in sb_Write (replicate 60 "a"%char))
              (demo_world 0 100)).

Definition demo_second : world :=
  world_of (sb_Write (replicate 60 "b"%char) demo_first).

(** The file name without its directories, as [header] cuts it. *)
Definition basename (file : string) : string :=
  let slash := LastIndex_slash file in
  if 0 <=? slash then default file (str_slice_from file (slash + 1))
  else file.

(** The caller [header] reports for a depth: its file and line. *)
Definition caller_at (w : world) (depth : Z) : string * Z :=
  match callers w (i64 (3 + depth)) with
  | None => ("???", 1)
  | Some (file, line) => (basename file, line)
  end.

(** The world lets [header] format: the clock is well formed, the next
    buffer of the pool is empty with its array of 29 bytes, the line of
    the caller is an [int]. *)
Definition formats (w : world) (depth : Z) : Prop :=
  wf_time (clock w (ticks w)) /\ wf_buffer (next_buffer w) /\
  snd (caller_at w depth) < 2 ^ 63.

(** The record of a call at severity [s] and depth [depth] with the
    formatted text [text]: header, text and the closing newline. *)
Definition record_at (s : Z) (w : world) (depth : Z) (text : list ascii)
  : list ascii :=
  terminated (header_bytes s (clock w (ticks w)) (fst (caller_at w depth))
                (snd (caller_at w depth)) ++ text).

(** No fault is ahead for a write of [n] bytes: no path is denied, the
    sink, when there is one, is open without a pending error, and the
    device has room for what is pending and for the [n] bytes. *)
Definition ready (w : world) (n : Z) : Prop :=
  denied w = ∅ /\
  match l_file (lg w) with
  | Some sb =>
    sink_open w sb /\ wr_err (sb_Writer sb) = None /\
    Buffered (sb_Writer sb) + n <= space w
  | None => n <= space w
  end.

(** The severities and the four ways to call each. *)
Inductive severity := SDebug | SInfo | SWarning | SError | SFatal.

Definition level_of (S : severity) : Z :=
  match S with
  | SDebug => DebugLog
  | SInfo => InfoLog
  | SWarning => WarningLog
  | SError => ErrorLog
  | SFatal => FatalLog
  end.

Inductive style :=
| Print | Printf | PrintDepth (depth : Z) | PrintfDepth (depth : Z).

(** The depth a call passes to [header]. *)
Definition depth_of (st : style) : Z :=
  match st with
  | Print => 1
  | Printf => 0
  | PrintDepth depth | PrintfDepth depth => depth
  end.

(** The emit operation of a severity and a style. *)
Definition emit (S : severity) (st : style) : list ascii -> M unit :=
  match S, st with
  | SDebug, Print => Debug
  | SDebug, Printf => Debugf
  | SDebug, PrintDepth depth => DebugDepth depth
  | SDebug, PrintfDepth depth => DebugfDepth depth
  | SInfo, Print => Info
  | SInfo, Printf => Infof
  | SInfo, PrintDepth depth => InfoDepth depth
  | SInfo, PrintfDepth depth => InfofDepth depth
  | SWarning, Print => Warning
  | SWarning, Printf => Warningf
  | SWarning, PrintDepth depth => WarningDepth depth
  | SWarning, PrintfDepth depth => WarningfDepth depth
  | SError, Print => Error
  | SError, Printf => Errorf
  | SError, PrintDepth depth => ErrorDepth depth
  | SError, PrintfDepth depth => ErrorfDepth depth
  | SFatal, Print => Fatal
  | SFatal, Printf => Fatalf
  | SFatal, PrintDepth depth => FatalDepth depth
  | SFatal, PrintfDepth depth => FatalfDepth depth
  end.

(** The unexported function a style calls. *)
Definition log_call (st : style) (s : Z) (text : list ascii) : M unit :=
  match st with
  | Print => print s text
  | Printf => printf s text
  | PrintDepth depth => printDepth s depth text
  | PrintfDepth depth => printfDepth s depth text
  end.

(** ** Vocabulary of the further properties *)

(** No byte of the string is above ['9']. *)
Definition at_most_nine (s : string) : Prop :=
  Forall (fun c => byte_val c <= byte_val "9") (bytes_of s).

(** A run of [m] from a world in [P] returns a value and a world in [Q],
    or ends, by [os.Exit] or a panic, in a world in [E]. *)
Definition hoare {A} (P : world -> Prop) (m : M A) (Q : A -> world -> Prop)
    (E : world -> Prop) : Prop :=
  forall w, P w ->
    match m w with
    | Ret a w' => Q a w'
    | Exit _ w' | Panic w' => E w'
    end.

(** [m] keeps [I], and ends in [E] when it does not return. *)
Definition keeps {A} (I E : world -> Prop) (m : M A) : Prop :=
  hoare I m (fun _ => I) E.

(** Every buffer of the pool is reset: empty, with its array of 29 bytes. *)
Definition pool_reset (w : world) : Prop := Forall wf_buffer (pool w).

(** The line [exit] writes to the standard error stream. *)
Definition exit_message (err : error) : list ascii :=
  bytes_of ("log: exiting because of error: " +:+ err) ++ [newline].

(** What the log file held before a write that is kept: nothing when the
    file is new or rotated first. *)
Definition kept_content (w : world) (p : list ascii) : list ascii :=
  match l_file (lg w) with
  | Some sb => if rotates w sb p then [] else log_content w
  | None => []
  end.

(** A world in which the log file may not be created. *)
Definition demo_denied : world :=
  {| disk := ∅; denied := {[ "/tmp/app.log" ]}; space := 1000; stderr := [];
     clock := fun _ => demo_time; ticks := 0; callers := fun _ => None;
     lg := {| logPath := "/tmp/app.log"; logLevel := 0; fileMaxSize := 1000;
              l_file := None |};
     pool := [] |}.

(** A sink with the error of an earlier flush, for closed examples. *)
Definition demo_stuck : world :=
  {| disk := {[ "/tmp/app.log" := bytes_of "old" ]}; denied := ∅;
     space := 1000000; stderr := [];
     clock := fun _ => demo_time; ticks := 0; callers := fun _ => None;
     lg := {| logPath := "/tmp/app.log"; logLevel := 0; fileMaxSize := 100;
              l_file := Some {| sb_Writer := {| wr_buf := bytes_of "new";
                                                wr_err := Some "short write" |};
                                sb_file := FileOpen "/tmp/app.log";
                                num := 0; nbytes := 6 |} |};
     pool := [] |}.

(** An open sink whose file is gone from the disk, for closed examples. *)
Definition demo_gone : world :=
  {| disk := ∅; denied := ∅; space := 1000000; stderr := [];
     clock := fun _ => demo_time; ticks := 0; callers := fun _ => None;
     lg := {| logPath := "/tmp/app.log"; logLevel := 0; fileMaxSize := 8;
              l_file := Some demo_sink |};
     pool := [] |}.

(** The field [nDigits] writes: the digits of a positive number, of which
    the low [n] are kept, after as many [pad] as the field has room for. *)
Definition padded (n : nat) (d : Z) (pad : ascii) : list ascii :=
  let ds := if 0 <? d then bytes_of (decimal d) else [] in
  replicate (n - length ds) pad ++ drop (length ds - n) ds.

(** ** Machine arithmetic *)

Lemma u64_range z : 0 <= u64 z < two64.
Proof. unfold u64, two64. apply Z.mod_pos_bound. lia. Qed.

Lemma u64_small z : 0 <= z < two64 -> u64 z = z.
Proof. intros H. unfold u64. now apply Z.mod_small. Qed.

Lemma u64_idem z : u64 (u64 z) = u64 z.
Proof. unfold u64. apply Zmod_mod. Qed.

Lemma u64_add_l a b : u64 (u64 a + b) = u64 (a + b).
Proof. unfold u64. apply Zplus_mod_idemp_l. Qed.

Lemma u64_add_r a b : u64 (a + u64 b) = u64 (a + b).
Proof. unfold u64. apply Zplus_mod_idemp_r. Qed.

Lemma u64_mul_l a b : u64 (u64 a * b) = u64 (a * b).
Proof. unfold u64. apply Zmult_mod_idemp_l. Qed.

Lemma u64_step n d : u64 (u64 n * 10 + u64 d) = u64 (n * 10 + d).
Proof.
  unfold u64. rewrite Zplus_mod_idemp_r.
  rewrite <- Zplus_mod_idemp_l, Zmult_mod_idemp_l, Zplus_mod_idemp_l.
  reflexivity.
Qed.

Lemma u64_mul_M n : u64 (u64 (n * 1024) * 1024) = u64 (n * (1024 * 1024)).
Proof. rewrite u64_mul_l. f_equal. ring. Qed.

Lemma u64_mul_G n :
  u64 (u64 (u64 (n * 1024) * 1024) * 1024) = u64 (n * (1024 * 1024 * 1024)).
Proof.
  rewrite u64_mul_l, <- Z.mul_assoc, u64_mul_l. f_equal. ring.
Qed.

Lemma i64_small z : - 2 ^ 63 <= z < 2 ^ 63 -> i64 z = z.
Proof. intros H. unfold i64, two64. rewrite Z.mod_small; lia. Qed.

Lemma i32_small z : - 2 ^ 31 <= z < 2 ^ 31 -> i32 z = z.
Proof. intros H. unfold i32. rewrite Z.mod_small; lia. Qed.

(** ** Strings *)

Lemma byte_val_range c : 0 <= byte_val c < 256.
Proof.
  unfold byte_val. destruct c as [[] [] [] [] [] [] [] []]; vm_compute;
    split; congruence.
Qed.

Lemma len_String c s : len (String c s) = len s + 1.
Proof. unfold len. cbn [String.length]. lia. Qed.

Lemma len_nonneg s : 0 <= len s.
Proof. unfold len. lia. Qed.

Lemma append_nil_l (t : string) : "" +:+ t = t.
Proof. reflexivity. Qed.

Lemma append_String c (s t : string) : String c s +:+ t = String c (s +:+ t).
Proof. reflexivity. Qed.

Lemma len_app s t : len (s +:+ t) = len s + len t.
Proof.
  induction s as [|c s IH]; rewrite ?append_nil_l, ?append_String.
  - unfold len. cbn [String.length]. lia.
  - rewrite !len_String, IH. lia.
Qed.

Lemma substring_0_length s t :
  String.substring 0 (String.length s) (s +:+ t) = s.
Proof.
  induction s as [|c s IH]; rewrite ?append_nil_l, ?append_String;
    cbn [String.length String.substring].
  - now destruct t.
  - now rewrite IH.
Qed.

Lemma get_length_app s c t :
  String.get (String.length s) (s +:+ String c t) = Some c.
Proof.
  induction s as [|a s IH]; rewrite ?append_nil_l, ?append_String;
    cbn [String.length String.get]; auto.
Qed.

Lemma str_slice_to_app s c :
  str_slice_to (s +:+ String c "") (len (s +:+ String c "") - 1) = Some s.
Proof.
  unfold str_slice_to. rewrite len_app, len_String.
  replace (len s + (len "" + 1) - 1) with (len s) by (unfold len; cbn [String.length]; lia).
  pose proof (len_nonneg s).
  destruct (Z.leb_spec 0 (len s)); [|lia].
  destruct (Z.leb_spec (len s) (len s + (len "" + 1))).
  2:{ unfold len in *. cbn [String.length] in *. lia. }
  simpl. unfold len. rewrite Nat2Z.id. now rewrite substring_0_length.
Qed.

Lemma str_index_app s c :
  str_index (s +:+ String c "") (len (s +:+ String c "") - 1) = Some c.
Proof.
  unfold str_index. rewrite len_app, len_String.
  replace (len s + (len "" + 1) - 1) with (len s) by (unfold len; cbn [String.length]; lia).
  pose proof (len_nonneg s).
  destruct (Z.leb_spec 0 (len s)); [|lia].
  destruct (Z.ltb_spec (len s) (len s + (len "" + 1))).
  2:{ unfold len in *. cbn [String.length] in *. lia. }
  simpl. unfold len. rewrite Nat2Z.id. apply get_length_app.
Qed.

(** Every non-empty string is a prefix followed by its last character. *)
Lemma last_char_split s c :
  last_char s = Some c -> exists p, s = p +:+ String c "".
Proof.
  induction s as [|a s IH]; simpl; [discriminate|].
  destruct s as [|b s'].
  - intros [= ->]. now exists "".
  - intros H. destruct (IH H) as [p Hp]. exists (String a p).
    rewrite append_String. now rewrite <- Hp.
Qed.

Lemma last_char_nonempty s : s <> "" -> exists c, last_char s = Some c.
Proof.
  induction s as [|a s IH]; [congruence|]. intros _.
  destruct s as [|b s']; [now exists a|].
  destruct IH as [c Hc]; [congruence|]. exists c. exact Hc.
Qed.

(** ** The size parser *)

Lemma runes_go_ascii bs k :
  Forall (fun b => b < 0x80) bs -> (length bs <= k)%nat ->
  Utf8.runes_go k bs = bs.
Proof.
  revert k. induction bs as [|b bs IH]; intros k Hall Hk.
  - now destruct k.
  - destruct k as [|k]; [cbn [length] in Hk; lia|].
    inversion Hall as [|? ? Hb Hbs]; subst.
    cbn [Utf8.runes_go Utf8.decodeRune].
    destruct (Z.ltb_spec b 0x80); [|lia].
    cbn [drop]. rewrite IH; auto. cbn [length] in Hk. lia.
Qed.

Lemma is_digit_byte c : is_digit c -> 48 <= byte_val c <= 57.
Proof. unfold is_digit, digit_value. lia. Qed.

Lemma numeral_bytes_ascii s :
  is_numeral s -> Forall (fun b => b < 0x80) (map byte_val (bytes_of s)).
Proof.
  induction s as [|c s IH]; cbn [is_numeral bytes_of list_ascii_of_string map].
  - constructor.
  - intros [Hc Hs]. constructor; [|now apply IH].
    apply is_digit_byte in Hc. lia.
Qed.

Lemma runes_numeral s :
  is_numeral s -> Utf8.runes s = map byte_val (bytes_of s).
Proof.
  intros H. unfold Utf8.runes. apply runes_go_ascii; [|lia].
  now apply numeral_bytes_ascii.
Qed.

Lemma stringToInt_loop_numeral s n :
  is_numeral s ->
  stringToInt_loop (map byte_val (bytes_of s)) (u64 n)
  = (u64 (numeral_value_from n s), None).
Proof.
  revert n. induction s as [|c s IH]; intros n;
    cbn [is_numeral bytes_of list_ascii_of_string map stringToInt_loop
         numeral_value_from].
  - reflexivity.
  - intros [Hc Hs]. fold (bytes_of s).
    change (byte_val "0") with 48. fold (digit_value c).
    unfold is_digit in Hc.
    rewrite i32_small by lia.
    destruct (Z.ltb_spec 9 (digit_value c)); [lia|].
    rewrite u64_step. now apply IH.
Qed.

Lemma stringToInt_numeral s :
  is_numeral s -> stringToInt s = (u64 (numeral_value s), None).
Proof.
  intros H. unfold stringToInt, numeral_value.
  rewrite runes_numeral by assumption.
  change 0 with (u64 0) at 1. now apply stringToInt_loop_numeral.
Qed.

(** [unitConv] on a string with prefix [p] and last character [c]. *)
Lemma unitConv_split p c w :
  unitConv (p +:+ String c "") w =
  match stringToInt p with
  | (_, Some _) =>
    Exit 1 (set_stderr (stderr w ++ incorrect_size (p +:+ String c "")) w)
  | (n, None) =>
    match unit_factor c with
    | Some m => Ret (u64 (n * m)) w
    | None =>
      Exit 1 (set_stderr (stderr w ++ incorrect_size (p +:+ String c "")) w)
    end
  end.
Proof.
  unfold unitConv, bind, checked.
  rewrite str_slice_to_app. cbn [ret].
  destruct (stringToInt p) as [n [e|]].
  - reflexivity.
  - cbn [ret]. rewrite str_index_app. cbn [ret]. unfold unit_factor.
    repeat case_bool_decide; subst; try discriminate; cbn [orb];
      rewrite ?u64_mul_G, ?u64_mul_M; reflexivity.
Qed.

(** A size string whose last character is no unit ends the process with
    code 1, whatever precedes that character. *)
Lemma unitConv_bad_unit s c w :
  last_char s = Some c -> unit_factor c = None ->
  unitConv s w = Exit 1 (set_stderr (stderr w ++ incorrect_size s) w).
Proof.
  intros Hl Hu. destruct (last_char_split _ _ Hl) as [p ->].
  rewrite unitConv_split, Hu. now destruct (stringToInt p) as [n [e|]].
Qed.

(** A rune above ['9'] in the prefix ends the process with code 1. *)
Lemma stringToInt_loop_above rs1 r rs2 n :
  Forall (fun b => 48 <= b <= 57) rs1 -> 57 < r < 2 ^ 31 ->
  exists n', stringToInt_loop (rs1 ++ r :: rs2) n = (n', Some (errors_New "")).
Proof.
  revert n. induction rs1 as [|b rs1 IH]; intros n Hall Hr;
    cbn [app stringToInt_loop]; change (byte_val "0") with 48.
  - rewrite i32_small by lia.
    destruct (Z.ltb_spec 9 (r - 48)); [|lia]. now exists n.
  - inversion Hall as [|? ? Hb Hbs]; subst.
    rewrite i32_small by lia.
    destruct (Z.ltb_spec 9 (b - 48)); [lia|]. now apply IH.
Qed.

Lemma numeral_value_from_nonneg s acc :
  is_numeral s -> 0 <= acc -> 0 <= numeral_value_from acc s.
Proof.
  revert acc. induction s as [|c s IH]; intros acc;
    cbn [is_numeral numeral_value_from]; [auto|].
  intros [Hc Hs] Hacc. apply IH; [assumption|]. unfold is_digit in Hc. lia.
Qed.

(** C9, amended: a size string made of a decimal numeral and a unit suffix
    is parsed to the numeral times 1024 for K or k, times 1024*1024 for M
    or m, times 1024*1024*1024 for G or g, reduced modulo 2^64; it is that
    product itself when the product is below 2^64, as for "10M" and "1G". *)
Theorem unitConv_numeral (ds : string) (c : ascii) (m : Z) (w : world) :
  is_numeral ds -> unit_factor c = Some m ->
  unitConv (ds +:+ String c "") w = Ret (u64 (numeral_value ds * m)) w /\
  (numeral_value ds * m < two64 ->
   unitConv (ds +:+ String c "") w = Ret (numeral_value ds * m) w) /\
  unitConv "10M" w = Ret 10485760 w /\
  unitConv "1G" w = Ret 1073741824 w.
Proof.
  intros Hds Hc.
  assert (Hrun : unitConv (ds +:+ String c "") w
                 = Ret (u64 (numeral_value ds * m)) w).
  { rewrite unitConv_split, stringToInt_numeral, Hc by assumption.
    now rewrite u64_mul_l. }
  split; [exact Hrun|]. split; [|split; reflexivity].
  intros Hlt. rewrite Hrun, u64_small; [reflexivity|].
  split; [|assumption].
  apply Z.mul_nonneg_nonneg.
  - apply numeral_value_from_nonneg; [assumption|lia].
  - unfold unit_factor in Hc. repeat case_match; simplify_eq; lia.
Qed.

Lemma unitConv_numeral_witness :
  unitConv "10M" (demo_world 0 0) = Ret (u64 (numeral_value "10" * (1024 * 1024)))
                                        (demo_world 0 0).
Proof.
  refine (proj1 (unitConv_numeral "10" "M"%char (1024 * 1024)
                   (demo_world 0 0) _ eq_refl)).
  vm_compute. intuition congruence.
Defined.

(** C9 as stated fails: the product of the numeral 17179869184 and the
    factor 2^30 of G is 2^64, and the parser returns 0. *)
Lemma unitConv_numeral_overflow :
  is_numeral "17179869184" /\
  unit_factor "G"%char = Some (1024 * 1024 * 1024) /\
  unitConv "17179869184G" (demo_world 0 0) = Ret 0 (demo_world 0 0) /\
  numeral_value "17179869184" * (1024 * 1024 * 1024) <> 0.
Proof.
  split; [vm_compute; intuition congruence|].
  split; [reflexivity|]. split; [vm_compute; reflexivity|].
  vm_compute. congruence.
Qed.

(** C6: a size string whose prefix holds a character that is no digit
    ought to end the process with code 1. The prefix of "1.5G" holds a dot,
    yet the parser returns a size: the rune of the dot minus ['0'] is
    negative and passes the test [ch > 9]. *)
Theorem unitConv_accepts_dot (w : world) :
  ~ is_numeral "1.5" /\ unitConv "1.5G" w = Ret 91268055040 w.
Proof.
  split; [|reflexivity].
  cbn [is_numeral]. unfold is_digit. vm_compute. intuition congruence.
Qed.

(** C10: on the empty size string the parser, and with it the
    construction of a logger, panics on the slice [s[:len(s)-1]]; it does
    not report a configuration error and exit with code 1. *)
Theorem unitConv_empty_panics (w : world) :
  unitConv "" w = Panic w /\
  (forall path level flushInterval,
      NewLogger path "" level flushInterval w = Panic w) /\
  (forall w', unitConv "" w <> Exit 1 w').
Proof.
  split; [reflexivity|]. split; [reflexivity|]. intros w'. discriminate.
Qed.

(** ** Decimal digits *)

Lemma bytes_of_app s t : bytes_of (s +:+ t) = bytes_of s ++ bytes_of t.
Proof.
  unfold bytes_of.
  induction s as [|c s IH]; rewrite ?append_nil_l, ?append_String;
    cbn [list_ascii_of_string app]; [reflexivity|now rewrite IH].
Qed.

Lemma append_assoc (s t u : string) : (s +:+ t) +:+ u = s +:+ t +:+ u.
Proof.
  induction s as [|c s IH]; rewrite ?append_nil_l, ?append_String;
    [reflexivity|now rewrite IH].
Qed.

Lemma digit_ok d : 0 <= d -> digit d = Some (digit_char (d mod 10)).
Proof.
  intros Hd. unfold digit. rewrite Z.rem_mod_nonneg by lia.
  pose proof (Z.mod_pos_bound d 10 ltac:(lia)) as Hr.
  set (r := d mod 10) in *.
  assert (r = 0 \/ r = 1 \/ r = 2 \/ r = 3 \/ r = 4 \/
          r = 5 \/ r = 6 \/ r = 7 \/ r = 8 \/ r = 9) as Hcases by lia.
  repeat (destruct Hcases as [-> | Hcases]; [reflexivity|]).
  subst r. rewrite Hcases. reflexivity.
Qed.

Lemma pretty_N_go_app x s : pretty_N_go x s = pretty_N_go x "" +:+ s.
Proof.
  revert s. induction (N.lt_wf_0 x) as [x _ IH]; intros s.
  destruct (decide (x = 0%N)) as [->|Hx].
  - now rewrite !pretty_N_go_0.
  - rewrite (pretty_N_go_step x s), (pretty_N_go_step x "") by lia.
    rewrite (IH (x `div` 10)%N) by (apply N.div_lt; lia).
    rewrite (IH (x `div` 10)%N ltac:(apply N.div_lt; lia) (String _ "")).
    now rewrite append_assoc.
Qed.

Lemma pretty_Z_pos d : 0 < d -> pretty d = pretty_N_go (Z.to_N d) "".
Proof.
  destruct d as [|p|p]; try lia. intros _.
  unfold pretty, pretty_Z, pretty, pretty_positive, pretty, pretty_N.
  now rewrite decide_False by discriminate.
Qed.

Lemma decimal_small d : 0 <= d < 10 -> decimal d = String (digit_char d) "".
Proof.
  intros Hd. unfold decimal.
  destruct (decide (d = 0)) as [->|Hd0]; [reflexivity|].
  rewrite pretty_Z_pos by lia.
  rewrite pretty_N_go_step by lia.
  replace (Z.to_N d `div` 10)%N with 0%N by (symmetry; apply N.div_small; lia).
  rewrite pretty_N_go_0. unfold digit_char. f_equal. f_equal.
  apply N.mod_small. lia.
Qed.

Lemma decimal_step d :
  10 <= d ->
  decimal d = decimal (d / 10) +:+ String (digit_char (d mod 10)) "".
Proof.
  intros Hd. unfold decimal.
  assert (0 < d / 10) by (apply Z.div_str_pos; lia).
  rewrite !pretty_Z_pos by lia.
  rewrite pretty_N_go_step by lia.
  rewrite pretty_N_go_app. unfold digit_char.
  rewrite Z2N.inj_div, Z2N.inj_mod by lia. reflexivity.
Qed.

Lemma decimal_nonempty d : 0 <= d -> (1 <= length (bytes_of (decimal d)))%nat.
Proof.
  intros Hd. destruct (Z_lt_ge_dec d 10).
  - rewrite decimal_small by lia. cbn. lia.
  - rewrite decimal_step, bytes_of_app, length_app by lia. cbn. lia.
Qed.

(** A number below [10^k] has [k] digits at most. *)
Lemma decimal_width k d :
  0 <= d < 10 ^ Z.of_nat k -> (1 <= k)%nat ->
  (length (bytes_of (decimal d)) <= k)%nat.
Proof.
  revert d. induction k as [|k IH]; intros d Hd Hk; [lia|].
  destruct (Z_lt_ge_dec d 10).
  - rewrite decimal_small by lia. cbn. lia.
  - rewrite decimal_step, bytes_of_app, length_app by lia.
    cbn [bytes_of list_ascii_of_string length].
    rewrite Nat2Z.inj_succ, Z.pow_succ_r in Hd by lia.
    assert (0 <= d / 10 < 10 ^ Z.of_nat k).
    { split; [apply Z.div_pos; lia|apply Z.div_lt_upper_bound; lia]. }
    destruct k as [|k'].
    + change (10 ^ Z.of_nat 0) with 1 in *. lia.
    + specialize (IH (d / 10) ltac:(assumption) ltac:(lia)). lia.
Qed.

(** A field of fixed width shows the zero-padded numeral of a number that
    fits the width. *)
Lemma fixed_digits_zero n : fixed_digits n 0 = replicate n "0"%char.
Proof.
  induction n as [|n IH]; [reflexivity|].
  cbn [fixed_digits]. change (0 / 10) with 0. rewrite IH.
  change (digit_char (0 mod 10)) with "0"%char.
  change (replicate (S n) "0"%char) with ("0"%char :: replicate n "0"%char).
  clear IH. induction n as [|n IH]; [reflexivity|].
  cbn [replicate app]. now rewrite IH.
Qed.

Lemma length_fixed_digits n d : length (fixed_digits n d) = n.
Proof.
  revert d. induction n as [|n IH]; intros d; [reflexivity|].
  cbn [fixed_digits]. rewrite length_app, IH. cbn. lia.
Qed.

(** A field of fixed width shows the low digits of a number that does
    not fit the width. *)
Lemma fixed_digits_mod n d :
  fixed_digits n (d mod 10 ^ Z.of_nat n) = fixed_digits n d.
Proof.
  revert d. induction n as [|n IH]; intros d; [reflexivity|].
  cbn [fixed_digits]. rewrite Nat2Z.inj_succ, Z.pow_succ_r by lia.
  assert (Hp : 0 < 10 ^ Z.of_nat n) by (apply Z.pow_pos_nonneg; lia).
  rewrite Z.rem_mul_r by lia.
  replace ((d mod 10 + 10 * ((d / 10) mod 10 ^ Z.of_nat n)) / 10)
    with ((d / 10) mod 10 ^ Z.of_nat n).
  2:{ apply (Z.div_unique _ 10 _ (d mod 10)); [|lia].
      left. apply Z.mod_pos_bound. lia. }
  replace ((d mod 10 + 10 * ((d / 10) mod 10 ^ Z.of_nat n)) mod 10)
    with (d mod 10).
  2:{ apply (Z.mod_unique _ 10 ((d / 10) mod 10 ^ Z.of_nat n)); [|lia].
      left. apply Z.mod_pos_bound. lia. }
  now rewrite IH.
Qed.

Lemma length_bytes_of s : length (bytes_of s) = String.length s.
Proof.
  unfold bytes_of. induction s as [|c s IH]; cbn; [reflexivity|now rewrite IH].
Qed.

Lemma bytes_of_zero_pad w s :
  bytes_of (zero_pad w s)
  = replicate (w - length (bytes_of s)) "0"%char ++ bytes_of s.
Proof.
  unfold zero_pad. rewrite bytes_of_app, length_bytes_of.
  unfold bytes_of at 1. now rewrite list_ascii_of_string_of_list_ascii.
Qed.

Lemma fixed_digits_pad n d :
  0 <= d < 10 ^ Z.of_nat n -> (1 <= n)%nat ->
  fixed_digits n d = bytes_of (zero_pad n (decimal d)).
Proof.
  revert d. induction n as [|n IH]; intros d Hd Hn; [lia|].
  rewrite bytes_of_zero_pad. cbn [fixed_digits].
  destruct (Z_lt_ge_dec d 10) as [Hlt|Hge].
  - rewrite Z.div_small, Z.mod_small, fixed_digits_zero by lia.
    rewrite decimal_small by lia.
    cbn [bytes_of list_ascii_of_string length].
    now replace (S n - 1)%nat with n by lia.
  - rewrite Nat2Z.inj_succ, Z.pow_succ_r in Hd by lia.
    assert (0 <= d / 10 < 10 ^ Z.of_nat n).
    { split; [apply Z.div_pos; lia|apply Z.div_lt_upper_bound; lia]. }
    destruct n as [|n'].
    { change (10 ^ Z.of_nat 0) with 1 in *. lia. }
    rewrite IH, bytes_of_zero_pad by (assumption || lia).
    rewrite (decimal_step d), bytes_of_app, length_app by lia.
    cbn [bytes_of list_ascii_of_string length].
    rewrite <- app_assoc. f_equal. f_equal. lia.
Qed.

(** ** The header formatter *)

Lemma tmp_set_ok i c buf :
  0 <= i < Z.of_nat (length (tmp buf)) ->
  tmp_set i c buf
  = Some {| Buffer := Buffer buf; tmp := <[Z.to_nat i := c]> (tmp buf) |}.
Proof.
  intros Hi. unfold tmp_set.
  destruct (Z.leb_spec 0 i); [|lia].
  destruct (Z.ltb_spec i (Z.of_nat (length (tmp buf)))); [|lia].
  reflexivity.
Qed.

Lemma twoDigits_ok i d buf :
  0 <= d -> 0 <= i -> i + 1 < Z.of_nat (length (tmp buf)) ->
  twoDigits i d buf
  = Some {| Buffer := Buffer buf;
            tmp := take (Z.to_nat i) (tmp buf) ++ fixed_digits 2 d ++
                   drop (Z.to_nat i + 2) (tmp buf) |}.
Proof.
  intros Hd Hi Hlen. unfold twoDigits.
  rewrite (digit_ok d) by assumption. cbn [mbind option_bind].
  rewrite tmp_set_ok by lia. cbn [mbind option_bind]. cbv zeta.
  rewrite Z.quot_div_nonneg by lia.
  rewrite (digit_ok (d / 10)) by (apply Z.div_pos; lia).
  cbn [mbind option_bind].
  rewrite tmp_set_ok by (cbn [tmp]; rewrite length_insert; lia).
  cbn [Buffer tmp fixed_digits app]. f_equal. f_equal.
  replace (Z.to_nat (i + 1)) with (S (Z.to_nat i)) by lia.
  set (k := Z.to_nat i). set (t := tmp buf).
  assert (Hk : (S k < length t)%nat) by (subst k t; lia).
  rewrite (insert_take_drop (<[S k := _]> t)) by (rewrite length_insert; lia).
  rewrite take_insert_ge by lia.
  rewrite drop_insert_ge by lia.
  replace (S k - S k)%nat with 0%nat by lia.
  destruct (drop (S k) t) as [|x rest] eqn:Hdrop.
  { apply (f_equal length) in Hdrop. rewrite length_drop in Hdrop.
    cbn in Hdrop. lia. }
  cbn [insert list_insert]. f_equal. f_equal. f_equal.
  replace (k + 2)%nat with (S k + 1)%nat by lia.
  rewrite <- drop_drop, Hdrop. reflexivity.
Qed.

Lemma splice_nil i t : splice i [] t = t.
Proof.
  unfold splice. cbn [app length]. rewrite Nat.add_0_r. apply take_drop.
Qed.

Lemma splice_snoc i seg c t :
  (i + length seg < length t)%nat ->
  splice i seg (<[(i + length seg)%nat := c]> t) = splice i (seg ++ [c]) t.
Proof.
  intros Hlt. unfold splice.
  rewrite take_insert_ge by lia.
  rewrite drop_insert_ge by lia.
  replace (i + length seg - (i + length seg))%nat with 0%nat by lia.
  destruct (drop (i + length seg) t) as [|x rest] eqn:Hdrop.
  { apply (f_equal length) in Hdrop. rewrite length_drop in Hdrop.
    cbn in Hdrop. lia. }
  cbn [insert list_insert]. rewrite <- app_assoc. cbn [app].
  do 3 f_equal. rewrite length_app. cbn [length].
  replace (i + (length seg + 1))%nat with (i + length seg + 1)%nat by lia.
  rewrite <- drop_drop, Hdrop. reflexivity.
Qed.

Lemma nDigits_pad_ok k i buf :
  0 <= i -> (Z.to_nat i + k <= length (tmp buf))%nat ->
  nDigits_pad k i "0" buf
  = Some {| Buffer := Buffer buf;
            tmp := splice (Z.to_nat i) (replicate k "0"%char) (tmp buf) |}.
Proof.
  revert buf. induction k as [|k IH]; intros buf Hi Hlen.
  - cbn [nDigits_pad replicate]. rewrite splice_nil. now destruct buf.
  - cbn [nDigits_pad]. rewrite tmp_set_ok by lia. cbn [mbind option_bind].
    rewrite IH by (cbn [tmp]; rewrite ?length_insert; lia).
    cbn [Buffer tmp]. do 2 f_equal.
    replace (Z.to_nat (i + Z.of_nat k))
      with (Z.to_nat i + length (replicate k "0"%char))%nat
      by (rewrite length_replicate; lia).
    rewrite splice_snoc by (rewrite length_replicate; lia).
    f_equal. rewrite <- fixed_digits_zero.
    change (fixed_digits k 0 ++ ["0"%char]) with (fixed_digits (S k) 0).
    apply fixed_digits_zero.
Qed.

Lemma nDigits_loops k i d buf :
  0 <= d -> 0 <= i -> (Z.to_nat i + k <= length (tmp buf))%nat ->
  (nDigits_fill k i d buf ≫= λ '(k', b), nDigits_pad k' i "0" b)
  = Some {| Buffer := Buffer buf;
            tmp := splice (Z.to_nat i) (fixed_digits k d) (tmp buf) |}.
Proof.
  revert d buf. induction k as [|k IH]; intros d buf Hd Hi Hlen.
  - cbn [nDigits_fill mbind option_bind nDigits_pad fixed_digits].
    rewrite splice_nil. now destruct buf.
  - cbn [nDigits_fill]. destruct (Z.ltb_spec 0 d) as [Hpos|Hzero].
    + rewrite digit_ok by lia. cbn [mbind option_bind].
      rewrite tmp_set_ok by lia. cbn [mbind option_bind].
      rewrite Z.quot_div_nonneg by lia.
      rewrite IH by (cbn [tmp]; rewrite ?length_insert;
                     try apply Z.div_pos; lia).
      cbn [Buffer tmp fixed_digits]. do 2 f_equal.
      replace (Z.to_nat (i + Z.of_nat k))
        with (Z.to_nat i + length (fixed_digits k (d / 10)))%nat
        by (rewrite length_fixed_digits; lia).
      apply splice_snoc. rewrite length_fixed_digits. lia.
    + assert (d = 0) as -> by lia. cbn [mbind option_bind].
      rewrite nDigits_pad_ok by assumption.
      now rewrite fixed_digits_zero.
Qed.

Lemma nDigits_ok n i d buf :
  0 <= n -> 0 <= i -> i + n <= Z.of_nat (length (tmp buf)) ->
  nDigits n i d "0" buf
  = Some {| Buffer := Buffer buf;
            tmp := splice (Z.to_nat i)
                     (fixed_digits (Z.to_nat n) (Z.max 0 d)) (tmp buf) |}.
Proof.
  intros Hn Hi Hlen. unfold nDigits.
  destruct (Z_lt_ge_dec d 0) as [Hneg|Hpos].
  - replace (Z.max 0 d) with 0 by lia.
    assert (Hfill : forall k, nDigits_fill k i d buf
                              = nDigits_fill k i 0 buf).
    { intros [|k]; [reflexivity|]. cbn [nDigits_fill].
      destruct (Z.ltb_spec 0 d); [lia|]. reflexivity. }
    rewrite Hfill. apply nDigits_loops; lia.
  - replace (Z.max 0 d) with d by lia. apply nDigits_loops; lia.
Qed.

Lemma someDigits_loop_ok j d buf :
  0 <= d ->
  (length (bytes_of (decimal d)) <= j <= length (tmp buf))%nat ->
  someDigits_loop j d buf
  = Some ((j - length (bytes_of (decimal d)))%nat,
          {| Buffer := Buffer buf;
             tmp := splice (j - length (bytes_of (decimal d)))
                      (bytes_of (decimal d)) (tmp buf) |}).
Proof.
  revert d buf. induction j as [|j IH]; intros d buf Hd Hj.
  { pose proof (decimal_nonempty d Hd). lia. }
  cbn [someDigits_loop]. rewrite digit_ok by assumption.
  cbn [mbind option_bind]. rewrite tmp_set_ok by lia.
  cbn [mbind option_bind]. cbv zeta.
  rewrite Z.quot_div_nonneg by lia. rewrite Nat2Z.id.
  destruct (Z.eqb_spec (d / 10) 0) as [Hz|Hnz].
  - assert (d < 10).
    { destruct (Z_lt_ge_dec d 10); [assumption|].
      assert (0 < d / 10) by (apply Z.div_str_pos; lia). lia. }
    rewrite decimal_small, Z.mod_small by lia.
    cbn [bytes_of list_ascii_of_string length Buffer tmp].
    replace (S j - 1)%nat with j by lia. do 3 f_equal.
    unfold splice. cbn [length app].
    rewrite insert_take_drop by lia.
    now replace (j + 1)%nat with (S j) by lia.
  - assert (10 <= d).
    { destruct (Z_lt_ge_dec d 10); [|lia].
      rewrite Z.div_small in Hnz by lia. congruence. }
    rewrite (decimal_step d), bytes_of_app, length_app in * by assumption.
    cbn [bytes_of list_ascii_of_string length] in *.
    fold (bytes_of (decimal (d / 10))) in *.
    set (ds := bytes_of (decimal (d / 10))) in *.
    rewrite IH by (cbn [tmp]; rewrite ?length_insert;
                   try apply Z.div_pos; fold ds; lia).
    fold ds. cbn [Buffer tmp].
    replace (S j - (length ds + 1))%nat with (j - length ds)%nat by lia.
    do 3 f_equal.
    transitivity
      (splice (j - length ds) ds
         (<[(j - length ds + length ds)%nat := digit_char (d mod 10)]>
            (tmp buf))).
    + now replace (j - length ds + length ds)%nat with j by lia.
    + apply splice_snoc. lia.
Qed.

Lemma header_tail_ok line buf :
  0 <= line -> length (tmp buf) = 29%nat ->
  (length (bytes_of (decimal line)) <= 26)%nat ->
  exists t',
    length t' = 29%nat /\
    header_tail line buf
    = Some {| Buffer := Buffer buf ++ [":"%char] ++ bytes_of (decimal line) ++
                        ["]"%char; " "%char];
              tmp := t' |}.
Proof.
  intros Hline Hlen Hnd. unfold header_tail.
  rewrite tmp_set_ok by lia. cbn [mbind option_bind].
  unfold someDigits. cbn [tmp].
  set (ds := bytes_of (decimal line)) in *.
  set (t1 := <[Z.to_nat 0 := ":"%char]> (tmp buf)).
  assert (Hlen1 : length t1 = 29%nat) by (subst t1; now rewrite length_insert).
  rewrite someDigits_loop_ok by (cbn [tmp]; fold ds; lia).
  fold ds. cbn [mbind option_bind Buffer tmp]. rewrite Hlen1.
  set (t2 := splice (29 - length ds) ds t1).
  assert (Ht2 : t2 = take (29 - length ds) t1 ++ ds).
  { subst t2. unfold splice. rewrite (drop_ge t1) by lia.
    now rewrite app_nil_r. }
  assert (Hlen2 : length t2 = 29%nat).
  { rewrite Ht2, length_app, length_take. lia. }
  pose proof (decimal_nonempty line Hline) as Hne. fold ds in Hne.
  assert (Hhead : take 1 t2 = [":"%char]).
  { rewrite Ht2, take_app_le by (rewrite length_take; lia).
    rewrite take_take. replace (1 `min` (29 - length ds))%nat with 1%nat by lia.
    subst t1. change (Z.to_nat 0) with 0%nat.
    destruct (tmp buf); [discriminate|reflexivity]. }
  unfold copy_tmp. cbn [tmp Buffer]. rewrite Hlen2.
  change ((0 <=? 1) && (1 <=? Z.of_nat 29)) with true. cbv iota.
  assert (Hsrc : drop (29 - length ds) t2 = ds).
  { rewrite Ht2. apply drop_app_length'. rewrite length_take. lia. }
  rewrite Hsrc. change (Z.to_nat 1) with 1%nat.
  replace ((29 - 1) `min` length ds)%nat with (length ds) by lia.
  rewrite Hhead, (take_ge ds) by lia.
  assert (Hrest : exists r0 r1 R, drop (1 + length ds) t2 = r0 :: r1 :: R /\
                                  length R = (26 - length ds)%nat).
  { pose proof (length_drop t2 (1 + length ds)) as Hd. rewrite Hlen2 in Hd.
    destruct (drop (1 + length ds) t2) as [|r0 [|r1 R]]; cbn in Hd;
      try lia. exists r0, r1, R. split; [reflexivity|lia]. }
  destruct Hrest as (r0 & r1 & R & -> & HR).
  set (l1 := [":"%char] ++ ds).
  assert (Hl1 : length l1 = S (length ds)) by reflexivity.
  change ([":"%char] ++ ds ++ r0 :: r1 :: R) with (l1 ++ r0 :: r1 :: R).
  cbn [mbind option_bind].
  rewrite tmp_set_ok by (cbn [tmp]; rewrite length_app, Hl1; cbn [length]; lia).
  cbn [mbind option_bind tmp Buffer].
  replace (Z.to_nat (Z.of_nat (length ds) + 1)) with (length l1 + 0)%nat by lia.
  rewrite insert_app_r. cbn [insert list_insert].
  rewrite tmp_set_ok by (cbn [tmp]; rewrite length_app, Hl1; cbn [length]; lia).
  cbn [mbind option_bind tmp Buffer].
  replace (Z.to_nat (Z.of_nat (length ds) + 2)) with (length l1 + 1)%nat by lia.
  rewrite insert_app_r. cbn [insert list_insert].
  unfold Write_tmp. cbn [tmp Buffer].
  rewrite length_app, Hl1. cbn [length]. rewrite HR.
  destruct (Z.leb_spec 0 (Z.of_nat (length ds) + 3)); [|lia].
  destruct (Z.leb_spec (Z.of_nat (length ds) + 3)
              (Z.of_nat (S (length ds) + S (S (26 - length ds)))));
    [|lia].
  cbv iota. cbn [andb].
  replace (Z.to_nat (Z.of_nat (length ds) + 3)) with (length l1 + 2)%nat by lia.
  rewrite take_app_add' by reflexivity. cbn [take].
  exists (l1 ++ "]"%char :: " "%char :: R). split.
  - rewrite length_app, Hl1. cbn [length]. lia.
  - rewrite take_0. subst l1. now rewrite <- !app_assoc.
Qed.

Lemma formatHeader_unfold s file line w :
  formatHeader s file line w =
  match header_fill (if FatalLog <? s then FatalLog else s)
          (clock w (ticks w)) file (if line <? 0 then 0 else line)
          (next_buffer w) with
  | Some buf => Ret buf (taken w)
  | None => Panic (taken w)
  end.
Proof.
  unfold formatHeader, timeNow, time_Now, bind, getBuffer, next_buffer, taken.
  cbn [pool set_ticks].
  set (s' := if FatalLog <? s then FatalLog else s).
  set (line' := if line <? 0 then 0 else line).
  destruct (pool w) as [|b rest].
  - change (checked (header_fill s' (clock w (ticks w)) file line' new_buffer)
              (set_ticks (S (ticks w)) w) =
            match header_fill s' (clock w (ticks w)) file line' new_buffer with
            | Some buf => Ret buf (set_ticks (S (ticks w)) w)
            | None => Panic (set_ticks (S (ticks w)) w)
            end).
    now destruct (header_fill s' (clock w (ticks w)) file line' new_buffer).
  - change (checked (header_fill s' (clock w (ticks w)) file line' b)
              (set_pool rest (set_ticks (S (ticks w)) w)) =
            match header_fill s' (clock w (ticks w)) file line' b with
            | Some buf => Ret buf (set_pool rest (set_ticks (S (ticks w)) w))
            | None => Panic (set_pool rest (set_ticks (S (ticks w)) w))
            end).
    now destruct (header_fill s' (clock w (ticks w)) file line' b).
Qed.

Lemma severity_char_ok s :
  0 <= s ->
  str_index severityChar (if FatalLog <? s then FatalLog else s)
  = Some (severity_letter s).
Proof.
  intros Hs. unfold FatalLog, severity_letter.
  destruct (Z.ltb_spec 4 s) as [Hgt|Hle].
  - destruct (Z.eqb_spec s 0); [lia|]. destruct (Z.eqb_spec s 1); [lia|].
    destruct (Z.eqb_spec s 2); [lia|]. destruct (Z.eqb_spec s 3); [lia|].
    reflexivity.
  - assert (s = 0 \/ s = 1 \/ s = 2 \/ s = 3 \/ s = 4) as Hc by lia.
    repeat (destruct Hc as [-> | Hc]; [reflexivity|]). now subst.
Qed.

Lemma Write_tmp_ok k buf :
  0 <= k <= Z.of_nat (length (tmp buf)) ->
  Write_tmp k buf
  = Some {| Buffer := Buffer buf ++ take (Z.to_nat k) (tmp buf);
            tmp := tmp buf |}.
Proof.
  intros Hk. unfold Write_tmp.
  destruct (Z.leb_spec 0 k); [|lia].
  destruct (Z.leb_spec k (Z.of_nat (length (tmp buf)))); [|lia].
  reflexivity.
Qed.

Ltac header_step :=
  first [ rewrite tmp_set_ok by (cbn [tmp length]; lia)
        | rewrite Write_tmp_ok by (cbn [tmp length]; lia)
        | rewrite twoDigits_ok by (cbn [tmp length]; lia)
        | rewrite nDigits_ok by (cbn [tmp length]; lia) ];
  lazymatch goal with
  | |- context [Some ?R ≫= ?k] =>
    let R' := eval lazy -[Z.div Z.modulo Z.max Z.quot digit_char
                          severity_letter Year Month Day Hour Minute Second
                          Nanosecond] in R in
    change (Some R ≫= k) with (k R'); cbv beta
  end.

Lemma header_fill_ok s now file line buf :
  0 <= s -> wf_time now -> 0 <= line < 2 ^ 63 ->
  length (tmp buf) = 29%nat ->
  exists t',
    length t' = 29%nat /\
    header_fill (if FatalLog <? s then FatalLog else s) now file line buf
    = Some {| Buffer := Buffer buf ++ header_bytes s now file line;
              tmp := t' |}.
Proof.
  intros Hs (HM & HD & Hh & Hm & Hsec & Hns) Hline Hlen.
  destruct buf as [B t]. cbn [tmp Buffer] in *.
  do 29 (destruct t as [|? t]; [discriminate|]).
  destruct t; [|discriminate]. clear Hlen.
  unfold header_fill. rewrite severity_char_ok by assumption.
  cbn [mbind option_bind].
  do 16 header_step.
  match goal with
  | |- context [header_tail line ?b] =>
    destruct (header_tail_ok line b) as (t' & Hlen' & Htail)
  end.
  { lia. }
  { reflexivity. }
  { pose proof (decimal_width 19 line ltac:(lia) ltac:(lia)). lia. }
  rewrite Htail. exists t'. split; [assumption|].
  unfold header_bytes, WriteString. cbn [Buffer tmp fixed_digits].
  replace (Z.max 0 line) with line by lia.
  rewrite <- !app_assoc. cbn [app]. reflexivity.
Qed.

(** The formatter returns for every clock and every line an [int] holds;
    it reads the clock and takes a buffer from the pool. *)
Lemma formatHeader_run s file line w :
  0 <= s -> wf_time (clock w (ticks w)) -> line < 2 ^ 63 ->
  length (tmp (next_buffer w)) = 29%nat ->
  exists t',
    length t' = 29%nat /\
    formatHeader s file line w
    = Ret {| Buffer := Buffer (next_buffer w) ++
                       header_bytes s (clock w (ticks w)) file line;
             tmp := t' |} (taken w).
Proof.
  intros Hs Hnow Hline Hlen. rewrite formatHeader_unfold.
  replace (if line <? 0 then 0 else line) with (Z.max 0 line)
    by (destruct (Z.ltb_spec line 0); lia).
  destruct (header_fill_ok s (clock w (ticks w)) file (Z.max 0 line)
              (next_buffer w)) as (t' & Hlen' & Hfill);
    try assumption; [lia|].
  rewrite Hfill. exists t'. split; [assumption|].
  unfold header_bytes. now rewrite Z.max_assoc, Z.max_id.
Qed.

Lemma bytes_of_String c s : bytes_of (String c s) = c :: bytes_of s.
Proof. reflexivity. Qed.

Lemma header_bytes_text s now file line :
  wf_time now -> 0 <= Year now <= 9999 -> 0 <= line ->
  header_bytes s now file line = bytes_of (header_text s now file line).
Proof.
  intros (HM & HD & Hh & Hm & Hsec & Hns) HY Hline.
  unfold header_bytes, header_text.
  rewrite bytes_of_String, !bytes_of_app.
  rewrite !Z.max_r by (try apply Z.quot_pos; lia).
  rewrite Z.quot_div_nonneg by lia.
  rewrite <- !fixed_digits_pad; try reflexivity; try lia.
  split; [apply Z.div_pos; lia|].
  apply Z.div_lt_upper_bound; lia.
Qed.

(** The header for every clock and every line, in the words of the
    specification: the year field shows [printed_year], a negative line
    counts as zero. *)
Lemma header_bytes_printed s now file line :
  wf_time now ->
  header_bytes s now file line
  = bytes_of (header_text s (with_year (printed_year (Year now)) now) file
                (Z.max 0 line)).
Proof.
  intros Hnow.
  assert (HY : 0 <= printed_year (Year now) <= 9999).
  { unfold printed_year.
    pose proof (Z.mod_pos_bound (Z.max 0 (Year now)) 10000 ltac:(lia)). lia. }
  rewrite <- header_bytes_text; [|exact Hnow|exact HY|lia].
  unfold header_bytes. cbn [with_year Year Month Day Hour Minute Second
                            Nanosecond].
  rewrite (Z.max_r 0 (printed_year (Year now))) by lia.
  rewrite (Z.max_r 0 (Z.max 0 line)) by lia.
  unfold printed_year.
  pose proof (fixed_digits_mod 4 (Z.max 0 (Year now))) as Hmod.
  change (10 ^ Z.of_nat 4) with 10000 in Hmod. now rewrite Hmod.
Qed.

(** C3, amended: for every severity, clock, caller file and caller line the
    header formatter returns the bytes
    [<SeverityChar><YYYY>-<MM>-<DD> <HH>:<MM>:<SS>.<uuuuuu> <file>:<line>] ]
    with one trailing space: the severity letter is one of D I W E F, the
    year field has 4 digits, month, day, hour, minute and second have 2
    digits with zero padding, the microseconds 6 digits with zero padding,
    the line is a decimal of minimal width. The year field is the year
    when the year is between 0 and 9999; it holds the low four digits of a
    later year and 0000 for a negative year, and a negative line is
    printed as 0. At the clock 2024-03-07 08:09:05.000123, for the caller
    ("demo.go", 42) and severity Info the header is
    "I2024-03-07 08:09:05.000123 demo.go:42] ". *)
Theorem formatHeader_exact (s : Z) (file : string) (line : Z) (w : world) :
  0 <= s -> wf_time (clock w (ticks w)) -> line < 2 ^ 63 ->
  wf_buffer (next_buffer w) ->
  (exists buf,
      formatHeader s file line w = Ret buf (taken w) /\
      string_of_list_ascii (Buffer buf)
      = header_text s
          (with_year (printed_year (Year (clock w (ticks w))))
             (clock w (ticks w)))
          file (Z.max 0 line) /\
      (0 <= Year (clock w (ticks w)) <= 9999 -> 0 <= line ->
       string_of_list_ascii (Buffer buf)
       = header_text s (clock w (ticks w)) file line)) /\
  header_text InfoLog demo_time "demo.go" 42
  = "I2024-03-07 08:09:05.000123 demo.go:42] ".
Proof.
  intros Hs Hnow Hline [Hempty Hlen]. split; [|vm_compute; reflexivity].
  destruct (formatHeader_run s file line w) as (t' & _ & Hrun);
    try assumption.
  eexists. split; [exact Hrun|]. cbn [Buffer]. rewrite Hempty, app_nil_l.
  split.
  - rewrite header_bytes_printed by assumption.
    apply string_of_list_ascii_of_string.
  - intros HY Hl. rewrite header_bytes_text by (assumption || lia).
    apply string_of_list_ascii_of_string.
Qed.

Lemma formatHeader_exact_witness :
  exists buf,
    formatHeader InfoLog "demo.go" 42 (demo_world 0 0)
    = Ret buf (taken (demo_world 0 0)) /\
    string_of_list_ascii (Buffer buf)
    = "I2024-03-07 08:09:05.000123 demo.go:42] ".
Proof.
  destruct (formatHeader_exact InfoLog "demo.go" 42 (demo_world 0 0))
    as [(buf & Hrun & _ & Htext) Hdemo].
  - vm_compute. congruence.
  - unfold wf_time. cbn. lia.
  - lia.
  - split; reflexivity.
  - exists buf. split; [exact Hrun|].
    rewrite <- Hdemo. apply Htext; [cbn; lia|lia].
Defined.

(** C3 as stated fails: in the year 12345 the year field of the header
    is 2345, where the year in four digits or more is 12345. *)
Lemma formatHeader_year_12345 :
  exists buf,
    formatHeader InfoLog "demo.go" 42 demo_year_12345
    = Ret buf (taken demo_year_12345) /\
    string_of_list_ascii (Buffer buf)
    = "I2345-03-07 08:09:05.000123 demo.go:42] " /\
    header_text InfoLog (clock demo_year_12345 (ticks demo_year_12345))
      "demo.go" 42
    = "I12345-03-07 08:09:05.000123 demo.go:42] " /\
    string_of_list_ascii (Buffer buf)
    <> header_text InfoLog (clock demo_year_12345 (ticks demo_year_12345))
         "demo.go" 42.
Proof.
  eexists. split; [vm_compute; reflexivity|].
  split; [vm_compute; reflexivity|]. split; [vm_compute; reflexivity|].
  vm_compute. discriminate.
Qed.

(** ** The record assembler *)

Lemma last_byte_last buf : last_byte buf = last (Buffer buf).
Proof.
  unfold last_byte. rewrite last_lookup.
  destruct (Buffer buf) as [|c l]; [reflexivity|].
  cbn [length]. destruct (Z.leb_spec 0 (Z.of_nat (S (length l)) - 1)); [|lia].
  f_equal. lia.
Qed.

Lemma header_tail_space line b buf :
  header_tail line b = Some buf ->
  exists pre, Buffer buf = pre ++ [" "%char].
Proof.
  unfold header_tail. intros H.
  destruct (tmp_set 0 ":" b) as [b1|]; [|discriminate].
  cbn [mbind option_bind] in H.
  destruct (someDigits 1 line b1) as [[n b2]|]; [|discriminate].
  cbn [mbind option_bind] in H.
  destruct (tmp_set (n + 1) "]" b2) as [b3|]; [|discriminate].
  cbn [mbind option_bind] in H.
  unfold tmp_set in H.
  destruct ((0 <=? n + 2) && (n + 2 <? Z.of_nat (length (tmp b3)))) eqn:Hin;
    [|discriminate].
  cbn [mbind option_bind] in H. unfold Write_tmp in H. cbn [tmp Buffer] in H.
  destruct ((0 <=? n + 3) &&
            (n + 3 <=? Z.of_nat (length (<[Z.to_nat (n + 2):=" "%char]>
                                           (tmp b3))))); [|discriminate].
  injection H as <-. cbn [Buffer].
  apply andb_prop in Hin as [H0 H1].
  apply Z.leb_le in H0. apply Z.ltb_lt in H1.
  replace (Z.to_nat (n + 3)) with (S (Z.to_nat (n + 2))) by lia.
  erewrite take_S_r by (apply list_lookup_insert_eq; lia).
  rewrite app_assoc. eauto.
Qed.

(** Whatever the clock and the caller are, a header that is returned is not
    empty: it ends in a space. *)
Lemma header_space s depth w buf file line w1 :
  header s depth w = Ret (buf, file, line) w1 ->
  exists pre, Buffer buf = pre ++ [" "%char].
Proof.
  unfold header, bind, get. intros H.
  match type of H with
  | match ?m with _ => _ end = _ =>
    destruct m as [[file0 line0] w0| |] eqn:Hm; try discriminate
  end.
  rewrite formatHeader_unfold in H. unfold header_fill in H.
  repeat match type of H with
  | context [match (?o ≫= ?k) with _ => _ end] =>
    let b := fresh "b" in
    destruct o as [b|]; cbn [mbind option_bind] in H; [|discriminate]
  end.
  match type of H with
  | context [header_tail ?l ?b] =>
    destruct (header_tail l b) as [b'|] eqn:Htail; [|discriminate]
  end.
  unfold ret in H. injection H as <- _ _ _.
  eapply header_tail_space; eassumption.
Qed.

Lemma leading_newlines_app_stop a c b :
  c <> newline -> leading_newlines (a ++ c :: b) = leading_newlines a.
Proof.
  intros Hc. induction a as [|x a IH]; cbn [app leading_newlines].
  - now rewrite bool_decide_eq_false_2.
  - destruct (bool_decide (x = newline)); [now rewrite IH|reflexivity].
Qed.

Lemma ends_with_newline_trailing l :
  ends_with_newline l = false -> trailing_newlines l = 0%nat.
Proof.
  unfold ends_with_newline, trailing_newlines. rewrite <- head_reverse.
  destruct (reverse l) as [|c r]; [reflexivity|]. cbn [head leading_newlines].
  now intros ->.
Qed.

Lemma ends_with_newline_app pre text :
  ends_with_newline ((pre ++ [" "%char]) ++ text) = ends_with_newline text.
Proof.
  unfold ends_with_newline. rewrite last_app.
  destruct (last text) as [c|]; [reflexivity|].
  now rewrite last_snoc.
Qed.

(** The record ends in as many newlines as the text, and in one at least. *)
Lemma trailing_newlines_terminated pre text :
  trailing_newlines (terminated ((pre ++ [" "%char]) ++ text))
  = Nat.max 1 (trailing_newlines text).
Proof.
  unfold terminated. rewrite ends_with_newline_app.
  destruct (ends_with_newline text) eqn:Hend.
  - unfold trailing_newlines. rewrite !reverse_app. cbn [reverse app].
    rewrite reverse_singleton. cbn [app].
    rewrite leading_newlines_app_stop by discriminate.
    unfold ends_with_newline in Hend. rewrite <- head_reverse in Hend.
    destruct (reverse text) as [|c r]; [discriminate|].
    cbn [head] in Hend. cbn [leading_newlines]. rewrite Hend. lia.
  - rewrite (ends_with_newline_trailing text Hend).
    unfold trailing_newlines. rewrite reverse_snoc. cbn [leading_newlines].
    rewrite bool_decide_eq_true_2 by reflexivity.
    rewrite !reverse_app, reverse_singleton. cbn [app].
    rewrite leading_newlines_app_stop by discriminate.
    apply ends_with_newline_trailing in Hend.
    unfold trailing_newlines in Hend. rewrite Hend. reflexivity.
Qed.

Lemma end_line_run hdr text pre w :
  Buffer hdr = pre ++ [" "%char] ->
  end_line (Fprint text hdr) w = Ret (record_of hdr text) w.
Proof.
  intros Hhdr. unfold end_line, bind, checked.
  rewrite last_byte_last. unfold record_of, terminated, ends_with_newline.
  cbn [Fprint Buffer tmp].
  assert (Hne : is_Some (last (Buffer hdr ++ text))).
  { apply last_is_Some. rewrite Hhdr. now destruct pre. }
  destruct Hne as [c Hc]. rewrite Hc. cbn [ret].
  now destruct (bool_decide (c = newline)).
Qed.

(** C4, amended: for a text formatted in the print style or in the printf
    style, the record handed to [output] is the header followed by the text
    and ends in a newline; a newline is appended exactly when the text does
    not end in one already. The record ends in as many newlines as the text
    does, and in one when the text ends in none: one newline exactly for a
    text with at most one trailing newline. *)
Theorem record_ends_in_newline (s depth : Z) (text : list ascii) (w : world)
    (buf : buffer) (file : string) (line : Z) (w1 : world) :
  header s depth w = Ret (buf, file, line) w1 ->
  printDepth s depth text w = output (record_of buf text) file line w1 /\
  printfDepth s depth text w = output (record_of buf text) file line w1 /\
  (exists body, Buffer (record_of buf text) = body ++ [newline]) /\
  (ends_with_newline text = true ->
   Buffer (record_of buf text) = Buffer buf ++ text) /\
  (ends_with_newline text = false ->
   Buffer (record_of buf text) = Buffer buf ++ text ++ [newline]) /\
  trailing_newlines (Buffer (record_of buf text))
  = Nat.max 1 (trailing_newlines text).
Proof.
  intros Hheader. destruct (header_space _ _ _ _ _ _ _ Hheader) as [pre Hpre].
  split; [|split].
  - unfold printDepth. unfold bind at 1. rewrite Hheader.
    unfold bind. now rewrite (end_line_run buf text pre w1 Hpre).
  - unfold printfDepth. unfold bind at 1. rewrite Hheader.
    unfold bind. now rewrite (end_line_run buf text pre w1 Hpre).
  - cbn [record_of Buffer]. rewrite Hpre.
    pose proof (ends_with_newline_app pre text) as Hends.
    split; [|split; [|split]].
    + unfold terminated. destruct (ends_with_newline _) eqn:He; [|eauto].
      unfold ends_with_newline in He.
      destruct (last ((pre ++ [" "%char]) ++ text)) as [c|] eqn:Hl;
        [|discriminate].
      apply bool_decide_eq_true in He. subst c.
      apply last_Some in Hl. exact Hl.
    + intros Ht. unfold terminated. now rewrite Hends, Ht.
    + intros Ht. unfold terminated. rewrite Hends, Ht.
      now rewrite <- app_assoc.
    + apply trailing_newlines_terminated.
Qed.

Lemma record_ends_in_newline_witness :
  exists buf file line w1,
    header InfoLog 0 (demo_world 0 0) = Ret (buf, file, line) w1 /\
    trailing_newlines (Buffer (record_of buf (bytes_of "x"))) = 1%nat.
Proof.
  eexists _, _, _, _. split; [vm_compute; reflexivity|].
  match goal with
  | |- trailing_newlines (Buffer (record_of ?b ?t)) = _ =>
    pose proof (record_ends_in_newline InfoLog 0 t (demo_world 0 0) b
                  _ _ _ ltac:(vm_compute; reflexivity)) as H
  end.
  destruct H as (_ & _ & _ & _ & _ & H). rewrite H. reflexivity.
Defined.

(** C4 as stated fails: a text that ends in two newlines gives a record
    that ends in two newlines, here in the file of the log. *)
Lemma record_two_newlines :
  exists w' content,
    (let* _ := Info (bytes_of "x" ++ [newline; newline]) in Flush)
      (demo_world 0 1000) = Ret tt w' /\
    disk w' !! "/tmp/app.log" = Some content /\
    content = bytes_of "I2024-03-07 08:09:05.000123 demo.go:42] x" ++
              [newline; newline] /\
    trailing_newlines content = 2%nat.
Proof.
  eexists _, _. split; [vm_compute; reflexivity|].
  split; [vm_compute; reflexivity|]. split; vm_compute; reflexivity.
Qed.

(** ** The file and its write buffer *)

Lemma alter_lookup_insert (f : list ascii -> list ascii)
    (m : gmap string (list ascii)) i x :
  m !! i = Some x -> alter f i m = <[i := f x]> m.
Proof.
  intros Hi. apply map_eq. intros j. destruct (decide (i = j)) as [->|Hne].
  - now rewrite lookup_alter_eq, lookup_insert_eq, Hi.
  - now rewrite lookup_alter_ne, lookup_insert_ne.
Qed.

Lemma with_file_id w path c :
  disk w !! path = Some c -> with_file (<[path := c]> (disk w)) (space w) w = w.
Proof.
  intros H. unfold with_file, set_space, set_disk. cbn.
  rewrite insert_id by assumption. now destruct w.
Qed.

Lemma accepted_range p w : 0 <= accepted p w <= Z.of_nat (length p).
Proof. unfold accepted. lia. Qed.

Lemma accepted_all p w :
  Z.of_nat (length p) <= space w -> accepted p w = Z.of_nat (length p).
Proof. unfold accepted. lia. Qed.

Lemma File_Write_open path p w c :
  disk w !! path = Some c ->
  exists e,
    File_Write (FileOpen path) p w
    = Ret (accepted p w, e)
          (with_file (<[path := c ++ take (Z.to_nat (accepted p w)) p]> (disk w))
                     (space w - accepted p w) w) /\
    (e = None <-> accepted p w = Z.of_nat (length p)).
Proof.
  intros Hc. unfold File_Write. fold (accepted p w).
  rewrite (alter_lookup_insert _ _ _ _ Hc).
  eexists. split; [reflexivity|].
  pose proof (accepted_range p w).
  destruct (Z.ltb_spec (accepted p w) (Z.of_nat (length p))); split;
    intros; (discriminate || lia || reflexivity).
Qed.

(** A flush keeps the content of the log file: what the file takes leaves
    the buffer. *)
Lemma Writer_Flush_open path b w c :
  disk w !! path = Some c ->
  exists b' e c' sp',
    Writer_Flush (FileOpen path) b w
    = Ret (b', e) (with_file (<[path := c']> (disk w)) sp' w) /\
    c' ++ wr_buf b' = c ++ wr_buf b /\
    wr_err b' = e /\
    (length (wr_buf b') <= length (wr_buf b))%nat /\
    space w - Buffered b <= sp' <= space w /\
    (e = None -> wr_buf b' = []) /\
    (wr_err b = None -> Buffered b <= space w -> e = None).
Proof.
  intros Hc. unfold Writer_Flush.
  destruct (wr_err b) as [e0|] eqn:Herr.
  { exists b, (Some e0), c, (space w). rewrite (with_file_id w path c Hc).
    unfold ret, Buffered. repeat apply conj; auto; try lia; discriminate. }
  destruct (Z.eqb_spec (Buffered b) 0) as [Hz|Hnz].
  { exists b, None, c, (space w). rewrite (with_file_id w path c Hc).
    unfold ret. unfold Buffered in *. repeat apply conj; auto; try lia.
    intros _. destruct (wr_buf b); [reflexivity|cbn in Hz; lia]. }
  destruct (File_Write_open path (wr_buf b) w c Hc) as (e & Hw & He).
  unfold bind. rewrite Hw. clear Hw.
  pose proof (accepted_range (wr_buf b) w) as Hr. fold (Buffered b) in *.
  set (n := accepted (wr_buf b) w) in *.
  destruct e as [e|].
  - eexists _, _, _, _. unfold ret. split; [reflexivity|].
    cbn [wr_buf wr_err]. rewrite <- app_assoc, take_drop.
    rewrite length_drop. unfold Buffered in *.
    repeat apply conj; auto; try lia; try discriminate.
    intros _ Hsp. exfalso.
    assert (n = Z.of_nat (length (wr_buf b)))
      by (apply accepted_all; exact Hsp).
    destruct He as [_ He]. specialize (He ltac:(assumption)). discriminate.
  - assert (Hn : n = Buffered b) by (now apply He).
    destruct (Z.ltb_spec n (Buffered b)); [lia|].
    eexists _, _, _, _. unfold ret. split; [reflexivity|].
    cbn [wr_buf wr_err]. rewrite app_nil_r.
    rewrite take_ge by (unfold Buffered in *; lia).
    unfold Buffered in *. repeat apply conj; auto; cbn [length]; lia.
Qed.

Lemma Writer_Write_end_run p nn b w :
  Writer_Write_end p nn b w =
  match wr_err b with
  | Some e => Ret (nn, Some e, b) w
  | None => Ret (nn + Z.of_nat (length p), None,
                 {| wr_buf := wr_buf b ++ p; wr_err := None |}) w
  end.
Proof. unfold Writer_Write_end. now destruct (wr_err b). Qed.

Lemma Writer_Write_loop_skip k f p nn b :
  Z.of_nat (length p) <= Available b \/ wr_err b <> None ->
  Writer_Write_loop k f p nn b = Writer_Write_end p nn b.
Proof.
  intros H. destruct k as [|k]; [reflexivity|]. cbn [Writer_Write_loop].
  destruct H as [H|H].
  - destruct (Z.ltb_spec (Available b) (Z.of_nat (length p))); [lia|].
    reflexivity.
  - rewrite (bool_decide_eq_false_2 _ H). now rewrite andb_false_r.
Qed.

Lemma Writer_Write_loop_direct k f p nn b :
  Available b < Z.of_nat (length p) -> wr_err b = None -> Buffered b = 0 ->
  Writer_Write_loop (S k) f p nn b =
  (let* '(n, e) := File_Write f p in
   Writer_Write_loop k f (drop (Z.to_nat n) p) (nn + n)
     {| wr_buf := wr_buf b; wr_err := e |}).
Proof.
  intros Hlt Herr Hz. cbn [Writer_Write_loop].
  destruct (Z.ltb_spec (Available b) (Z.of_nat (length p))); [|lia].
  rewrite (bool_decide_eq_true_2 _ Herr). cbn [andb].
  rewrite Hz. reflexivity.
Qed.

Lemma Writer_Write_loop_fill k f p nn b :
  Available b < Z.of_nat (length p) -> wr_err b = None -> Buffered b <> 0 ->
  Writer_Write_loop (S k) f p nn b =
  (let* '(b', _) := Writer_Flush f
     {| wr_buf := wr_buf b ++ take (Z.to_nat (Available b)) p;
        wr_err := wr_err b |} in
   Writer_Write_loop k f (drop (Z.to_nat (Available b)) p)
     (nn + Available b) b').
Proof.
  intros Hlt Herr Hnz. cbn [Writer_Write_loop].
  destruct (Z.ltb_spec (Available b) (Z.of_nat (length p))); [|lia].
  rewrite (bool_decide_eq_true_2 _ Herr). cbn [andb].
  destruct (Z.eqb_spec (Buffered b) 0); [contradiction|]. reflexivity.
Qed.

Lemma bufferSize_pos : 0 < bufferSize.
Proof. reflexivity. Qed.

(** A direct write of [p] through an empty buffer. *)
Lemma Writer_Write_direct k path p nn b w c :
  disk w !! path = Some c -> wr_buf b = [] -> wr_err b = None ->
  bufferSize < Z.of_nat (length p) ->
  exists n e c' sp',
    Writer_Write_loop (S k) (FileOpen path) p nn b w
    = Ret (nn + n, e, {| wr_buf := []; wr_err := e |})
          (with_file (<[path := c']> (disk w)) sp' w) /\
    0 <= n <= Z.of_nat (length p) /\
    (e = None -> n = Z.of_nat (length p) /\ c' = c ++ p) /\
    (Z.of_nat (length p) <= space w -> e = None) /\
    space w - Z.of_nat (length p) <= sp' <= space w.
Proof.
  intros Hc Hbuf Herr Hbig.
  assert (Hz : Buffered b = 0) by (unfold Buffered; now rewrite Hbuf).
  rewrite Writer_Write_loop_direct by (unfold Available; lia || assumption).
  destruct (File_Write_open path p w c Hc) as (e & Hw & He).
  unfold bind. rewrite Hw. clear Hw.
  pose proof (accepted_range p w) as Hr. set (n := accepted p w) in *.
  rewrite Hbuf.
  exists n, e, (c ++ take (Z.to_nat n) p), (space w - n).
  destruct e as [e|].
  - rewrite Writer_Write_loop_skip by (right; discriminate).
    rewrite Writer_Write_end_run. cbn [wr_err].
    repeat apply conj; auto; try lia; try discriminate.
    intros Hsp. apply He. now apply accepted_all.
  - assert (Hn : n = Z.of_nat (length p)) by (now apply He).
    rewrite Writer_Write_loop_skip.
    2:{ left. rewrite length_drop. unfold Available, Buffered. cbn [wr_buf length].
        pose proof bufferSize_pos. lia. }
    rewrite Writer_Write_end_run. cbn [wr_err wr_buf].
    rewrite drop_ge by lia. rewrite take_ge by lia. cbn [app length].
    rewrite Z.add_0_r.
    repeat apply conj; auto; lia.
Qed.

(** What [Write] of the buffered writer does on an open file: it always
    returns; without an error all of [p] is accepted and appended to the
    content of the file as the sink sees it; with room on the device for
    what is pending and for [p] there is no error. *)
Lemma Writer_Write_open path p b w c :
  disk w !! path = Some c -> Buffered b <= bufferSize ->
  exists n e b' c' sp',
    Writer_Write (FileOpen path) p b w
    = Ret (n, e, b') (with_file (<[path := c']> (disk w)) sp' w) /\
    wr_err b' = e /\
    Buffered b' <= bufferSize /\
    0 <= n <= Z.of_nat (length p) /\
    (e = None ->
     n = Z.of_nat (length p) /\ c' ++ wr_buf b' = c ++ wr_buf b ++ p) /\
    (wr_err b = None -> Buffered b + Z.of_nat (length p) <= space w ->
     e = None) /\
    sp' <= space w.
Proof.
  intros Hc Hsize. unfold Writer_Write.
  pose proof bufferSize_pos as Hpos.
  destruct (wr_err b) as [e0|] eqn:Herr.
  { (* The error of an earlier write sticks. *)
    rewrite Writer_Write_loop_skip by (right; congruence).
    rewrite Writer_Write_end_run, Herr.
    exists 0, (Some e0), b, c, (space w).
    rewrite (with_file_id w path c Hc).
    split; [reflexivity|]. split; [assumption|]. split; [assumption|].
    split; [lia|]. split; [discriminate|]. split; [discriminate|lia]. }
  destruct (Z_le_gt_dec (Z.of_nat (length p)) (Available b)) as [Hfit|Hbig].
  { (* [p] fits the buffer. *)
    rewrite Writer_Write_loop_skip by (left; assumption).
    rewrite Writer_Write_end_run, Herr.
    exists (0 + Z.of_nat (length p)), None,
      {| wr_buf := wr_buf b ++ p; wr_err := None |}, c, (space w).
    rewrite (with_file_id w path c Hc). split; [reflexivity|].
    unfold Available, Buffered in *. cbn [wr_err wr_buf].
    rewrite length_app.
    split; [reflexivity|]. split; [lia|]. split; [lia|].
    split; [intros _; split; [lia|reflexivity]|]. split; [reflexivity|lia]. }
  destruct (Z.eq_dec (Buffered b) 0) as [Hz|Hnz].
  { (* Nothing is pending: [p] goes to the file directly. *)
    assert (Hbuf : wr_buf b = []).
    { unfold Buffered in Hz. destruct (wr_buf b); [reflexivity|cbn in Hz; lia]. }
    destruct (Writer_Write_direct 1 path p 0 b w c Hc Hbuf Herr)
      as (n & e & c' & sp' & Hrun & Hn & He & Hsp & Hsp').
    { unfold Available in Hbig. lia. }
    rewrite Hrun. exists (0 + n), e, {| wr_buf := []; wr_err := e |}, c', sp'.
    split; [reflexivity|]. unfold Buffered. cbn [wr_err wr_buf].
    rewrite Hbuf. cbn [length app].
    split; [reflexivity|]. split; [lia|]. split; [lia|]. split; [|split].
    - intros He'. destruct (He He') as [-> ->]. split; [lia|].
      now rewrite app_nil_r.
    - intros _ Hroom. apply Hsp. lia.
    - lia. }
  (* The buffer is filled up and flushed. *)
  rewrite Writer_Write_loop_fill by (assumption || lia).
  set (n := Available b) in *.
  assert (Hn : 0 <= n < Z.of_nat (length p))
    by (subst n; unfold Available in *; lia).
  set (b0 := {| wr_buf := wr_buf b ++ take (Z.to_nat n) p;
                wr_err := wr_err b |}).
  assert (Hb0 : Buffered b0 = bufferSize).
  { unfold Buffered, b0. cbn [wr_buf]. rewrite length_app, length_take.
    subst n. unfold Available, Buffered in *. lia. }
  destruct (Writer_Flush_open path b0 w c Hc)
    as (b1 & e1 & c1 & sp1 & Hflush & Hcont & Herr1 & Hlen1 & Hsp1 & Hemp & Hok).
  unfold bind at 1. rewrite Hflush. clear Hflush.
  set (w1 := with_file (<[path := c1]> (disk w)) sp1 w).
  assert (Hc1 : disk w1 !! path = Some c1) by apply lookup_insert_eq.
  set (p1 := drop (Z.to_nat n) p).
  assert (Hp1 : Z.of_nat (length p1) = Z.of_nat (length p) - n).
  { subst p1. rewrite length_drop. lia. }
  cbn [wr_buf] in Hcont. unfold b0 in Hcont. cbn [wr_buf] in Hcont.
  assert (Hroom1 : wr_err b = None ->
                   Buffered b + Z.of_nat (length p) <= space w -> e1 = None).
  { intros _ Hroom. apply Hok; [unfold b0; cbn [wr_err]; assumption|].
    rewrite Hb0. subst n. unfold Available in *. lia. }
  destruct e1 as [e1|].
  { (* The flush failed. *)
    rewrite Writer_Write_loop_skip by (right; congruence).
    rewrite Writer_Write_end_run, Herr1.
    exists (0 + n), (Some e1), b1, c1, sp1. split; [reflexivity|].
    split; [assumption|]. split; [unfold Buffered in *; lia|].
    split; [lia|]. split; [discriminate|].
    split; [intros _ Hroom; now apply Hroom1|lia]. }
  specialize (Hemp eq_refl).
  destruct (Z_le_gt_dec (Z.of_nat (length p1)) bufferSize) as [Hfit1|Hbig1].
  { (* The rest of [p] fits the empty buffer. *)
    rewrite Writer_Write_loop_skip
      by (left; unfold Available, Buffered; rewrite Hemp; cbn [length]; lia).
    rewrite Writer_Write_end_run, Herr1.
    exists (0 + n + Z.of_nat (length p1)), None,
      {| wr_buf := wr_buf b1 ++ p1; wr_err := None |}, c1, sp1.
    split; [reflexivity|].
    unfold Buffered. cbn [wr_err wr_buf]. rewrite Hemp. cbn [app].
    split; [reflexivity|]. split; [lia|]. split; [lia|].
    split; [|split; [reflexivity|lia]].
    intros _. split; [lia|].
    rewrite Hemp, app_nil_r in Hcont. rewrite Hcont.
    subst p1. rewrite <- !app_assoc. now rewrite take_drop. }
  (* The rest of [p] goes to the file directly. *)
  destruct (Writer_Write_direct 0 path p1 (0 + n) b1 w1 c1 Hc1 Hemp Herr1)
    as (n2 & e2 & c2 & sp2 & Hrun & Hn2 & He2 & Hsp2 & Hsp2'); [lia|].
  rewrite Hrun. clear Hrun.
  exists (0 + n + n2), e2, {| wr_buf := []; wr_err := e2 |}, c2, sp2.
  split.
  { unfold w1, with_file. cbn [disk set_space set_disk].
    now rewrite insert_insert_eq. }
  unfold Buffered. cbn [wr_err wr_buf length].
  unfold w1 in Hsp2, Hsp2'. cbn [space with_file set_space set_disk] in Hsp2, Hsp2'.
  split; [reflexivity|]. split; [lia|]. split; [lia|]. split; [|split].
  - intros He'. destruct (He2 He') as [-> ->]. split; [lia|].
    rewrite Hemp, app_nil_r in Hcont. rewrite Hcont, app_nil_r.
    subst p1. rewrite <- !app_assoc. now rewrite take_drop.
  - intros _ Hroom. apply Hsp2. rewrite Hb0 in Hsp1.
    subst n. unfold Available, Buffered in *. lia.
  - lia.
Qed.

(** ** Calls that return, calls that exit *)

Lemma File_Write_returns f p w :
  exists n e w', File_Write f p w = Ret (n, e) w' /\ lg w' = lg w.
Proof. destruct f; cbn; eauto. Qed.

Lemma Writer_Flush_returns f b w :
  exists b' e w', Writer_Flush f b w = Ret (b', e) w' /\ lg w' = lg w.
Proof.
  unfold Writer_Flush. destruct (wr_err b) as [e0|]; [unfold ret; eauto|].
  destruct (Buffered b =? 0); [unfold ret; eauto|].
  destruct (File_Write_returns f (wr_buf b) w) as (n & e & w' & Hw & Hlg).
  unfold bind. rewrite Hw.
  destruct e as [e|]; [unfold ret; eauto|].
  destruct (n <? Buffered b); unfold ret; eauto.
Qed.

Lemma Writer_Write_end_returns p nn b w :
  exists r, Writer_Write_end p nn b w = Ret r w.
Proof. rewrite Writer_Write_end_run. destruct (wr_err b); eauto. Qed.

Lemma Writer_Write_loop_returns k f p nn b w :
  exists r w', Writer_Write_loop k f p nn b w = Ret r w' /\ lg w' = lg w.
Proof.
  revert p nn b w. induction k as [|k IH]; intros p nn b w.
  - destruct (Writer_Write_end_returns p nn b w) as [r Hr].
    cbn [Writer_Write_loop]. eauto.
  - cbn [Writer_Write_loop].
    destruct ((Available b <? Z.of_nat (length p)) &&
              bool_decide (wr_err b = None)).
    2:{ destruct (Writer_Write_end_returns p nn b w) as [r Hr]. eauto. }
    destruct (Buffered b =? 0).
    + destruct (File_Write_returns f p w) as (n & e & w1 & Hw & Hlg).
      unfold bind. rewrite Hw.
      destruct (IH (drop (Z.to_nat n) p) (nn + n)
                  {| wr_buf := wr_buf b; wr_err := e |} w1)
        as (r & w' & Hr & Hlg').
      rewrite Hr. exists r, w'. split; [reflexivity|congruence].
    + match goal with
      | |- context [Writer_Flush f ?b0] =>
        destruct (Writer_Flush_returns f b0 w) as (b' & e & w1 & Hw & Hlg)
      end.
      unfold bind. rewrite Hw.
      destruct (IH (drop (Z.to_nat (Available b)) p) (nn + Available b) b' w1)
        as (r & w' & Hr & Hlg').
      rewrite Hr. exists r, w'. split; [reflexivity|congruence].
Qed.

Lemma the_sink_run w sb : l_file (lg w) = Some sb -> the_sink w = Ret sb w.
Proof. intros H. unfold the_sink. now rewrite H. Qed.

Lemma sb_Flush_returns w sb :
  l_file (lg w) = Some sb ->
  exists e w' sb', sb_Flush w = Ret e w' /\ l_file (lg w') = Some sb'.
Proof.
  intros Hsb. unfold sb_Flush, bind. rewrite (the_sink_run w sb Hsb).
  destruct (Writer_Flush_returns (sb_file sb) (sb_Writer sb) w)
    as (b' & e & w' & Hw & _).
  rewrite Hw. cbn. eauto.
Qed.

Lemma flushAll_returns w : exists w', flushAll w = Ret tt w'.
Proof.
  unfold flushAll, bind, get.
  destruct (l_file (lg w)) as [sb|] eqn:Hsb; [|unfold ret; eauto].
  destruct (sb_Flush_returns w sb Hsb) as (e & w' & sb' & Hf & Hsb').
  rewrite Hf. unfold sb_Sync, bind. rewrite (the_sink_run w' sb' Hsb').
  destruct (sb_file sb'); unfold ret; eauto.
Qed.

Lemma bind_Ret {A B} (m : M A) (f : A -> M B) w a w' :
  m w = Ret a w' -> bind m f w = f a w'.
Proof. intros H. unfold bind. now rewrite H. Qed.

Lemma bind_Exit {A B} (m : M A) (f : A -> M B) w c w' :
  m w = Exit c w' -> bind m f w = Exit c w'.
Proof. intros H. unfold bind. now rewrite H. Qed.

(** [exit] ends the process with code 2. *)
Lemma exit_exits {A} err w : exists w', @exit A err w = Exit 2 w'.
Proof.
  unfold exit, Stderr_Write, modify.
  erewrite bind_Ret by reflexivity.
  match goal with
  | |- context [bind flushAll _ ?w0] =>
    destruct (flushAll_returns w0) as [w' Hw]
  end.
  erewrite bind_Ret by exact Hw. unfold os_Exit. eauto.
Qed.

Lemma exit_ends {A} err w : ends (@exit A err w).
Proof. destruct (@exit_exits A err w) as [w' ->]. reflexivity. Qed.

Lemma create_returns w :
  exists r w',
    create w = Ret r w' /\
    (r = None -> is_Some (l_file (lg w'))) /\
    (is_Some (l_file (lg w)) -> is_Some (l_file (lg w'))).
Proof.
  unfold create, bind, get, os_Create.
  destruct (decide (logPath (lg w) ∈ denied w)).
  - eexists _, _. split; [reflexivity|]. split; [discriminate|].
    cbn. intros [sb ->]. cbn. eauto.
  - eexists _, _. split; [reflexivity|]. cbn. split; eauto.
Qed.

Lemma rotateFile_returns now w :
  is_Some (l_file (lg w)) ->
  exists r w', rotateFile now w = Ret r w' /\ is_Some (l_file (lg w')).
Proof.
  intros [sb Hsb]. unfold rotateFile, bind.
  destruct (sb_Flush_returns w sb Hsb) as (e & w1 & sb1 & Hf & Hsb1).
  rewrite Hf. rewrite (the_sink_run w1 sb1 Hsb1).
  unfold put_sink, modify, get, os_Rename.
  cbn [disk set_lg logPath lg set_l_file denied].
  destruct (disk w1 !! logPath (lg w1)); [|cbn; eauto].
  match goal with
  | |- context [decide (?x ∈ denied w1)] => destruct (decide (x ∈ denied w1))
  end; [cbn; eauto|].
  match goal with
  | |- context [create ?w2] =>
    destruct (create_returns w2) as (r & w' & Hc & _ & Hs); rewrite Hc
  end.
  exists r, w'. split; [reflexivity|]. apply Hs. cbn. eauto.
Qed.

(** A write to the sink returns, or ends the process with code 2. *)
Lemma sb_Write_append_ends p w :
  is_Some (l_file (lg w)) ->
  ends ((let* sb := the_sink in
         let* '(n, err, b) := Writer_Write (sb_file sb) p (sb_Writer sb) in
         let* _ := put_sink (set_nbytes (u64 (nbytes sb + u64 n))
                               (set_Writer b sb)) in
         match err with
         | Some e => exit e
         | None => ret (n, err)
         end) w).
Proof.
  intros [sb Hsb]. erewrite bind_Ret by (apply the_sink_run; eassumption).
  destruct (Writer_Write_loop_returns 2 (sb_file sb) p 0 (sb_Writer sb) w)
    as ([[n e] b] & w2 & Hw & _).
  erewrite bind_Ret by exact Hw. cbv beta iota.
  erewrite bind_Ret by reflexivity.
  destruct e as [e|]; [apply exit_ends|exact I].
Qed.

Lemma sb_Write_ends p w : is_Some (l_file (lg w)) -> ends (sb_Write p w).
Proof.
  intros [sb Hsb]. unfold sb_Write.
  erewrite bind_Ret by (apply the_sink_run; eassumption).
  erewrite bind_Ret by reflexivity.
  destruct (fileMaxSize (lg w) <=? u64 (nbytes sb + u64 (Z.of_nat (length p)))).
  - destruct (rotateFile_returns (clock w (ticks w))
                (set_ticks (S (ticks w)) w)) as (r & w1 & Hr & Hs);
      [cbn; eauto|].
    match goal with
    | |- ends (bind ?m ?k w) =>
      assert (Hin : m w = match r with
                          | Some e => exit e w1
                          | None => Ret tt w1
                          end)
    end.
    { erewrite bind_Ret by reflexivity. erewrite bind_Ret by exact Hr.
      now destruct r. }
    destruct r as [e|].
    + destruct (@exit_exits unit e w1) as [w' Hw']. rewrite Hw' in Hin.
      erewrite bind_Exit by exact Hin. reflexivity.
    + erewrite bind_Ret by exact Hin. now apply sb_Write_append_ends.
  - erewrite bind_Ret by reflexivity. apply sb_Write_append_ends. eauto.
Qed.

Lemma output_ends buf file line w : ends (output buf file line w).
Proof.
  unfold output. erewrite bind_Ret by reflexivity.
  assert (Hwrite : forall w1, is_Some (l_file (lg w1)) ->
            ends ((let* _ := sb_Write (Buffer buf) in putBuffer buf) w1)).
  { intros w1 Hs. pose proof (sb_Write_ends (Buffer buf) w1 Hs) as He.
    destruct (sb_Write (Buffer buf) w1) as [r w2|c w2|w2] eqn:Hw.
    - erewrite bind_Ret by exact Hw. exact I.
    - erewrite bind_Exit by exact Hw. exact He.
    - contradiction. }
  destruct (l_file (lg w)) as [sb|] eqn:Hsb.
  - erewrite bind_Ret by reflexivity. apply Hwrite. eauto.
  - destruct (create_returns w) as (r & w1 & Hc & Hnew & _).
    destruct r as [e|].
    + destruct (@exit_exits unit e (set_stderr (stderr w1 ++ Buffer buf) w1))
        as [w' Hw'].
      erewrite bind_Exit; [reflexivity|].
      erewrite bind_Ret by exact Hc. cbv beta iota.
      erewrite bind_Ret by reflexivity. exact Hw'.
    + erewrite (bind_Ret (bind create _)).
      2:{ erewrite bind_Ret by exact Hc. reflexivity. }
      apply Hwrite. now apply Hnew.
Qed.

(** ** Rotation *)

Lemma same_config_refl w : same_config w w.
Proof. unfold same_config. tauto. Qed.

Lemma same_config_trans w1 w2 w3 :
  same_config w1 w2 -> same_config w2 w3 -> same_config w1 w3.
Proof. unfold same_config. intuition congruence. Qed.

Lemma rotated_name_Sprintf path now :
  path +:+ "." +:+ Sprintf_d (Year now) +:+ Sprintf_d (Month now) +:+
  Sprintf_d (Day now) +:+ "." +:+ Sprintf_d (Hour now) +:+
  Sprintf_d (Minute now) +:+ Sprintf_d (Day now)
  = rotated_name path now.
Proof. reflexivity. Qed.

Lemma rotated_name_fresh path now : rotated_name path now <> path.
Proof.
  unfold rotated_name. intros H. apply (f_equal len) in H.
  rewrite len_app, append_String, append_nil_l, len_String in H.
  match type of H with
  | context [len ?s + 1] => pose proof (len_nonneg s)
  end.
  lia.
Qed.

Lemma os_Rename_run old new w c :
  disk w !! old = Some c ->
  os_Rename old new w =
  if decide (new ∈ denied w)
  then Ret (Some ("rename " +:+ old +:+ " " +:+ new +:+
                  ": permission denied")) w
  else Ret None (set_disk (<[new := c]> (delete old (disk w))) w).
Proof. intros H. unfold os_Rename. now rewrite H. Qed.

Lemma create_run w :
  create w =
  if decide (logPath (lg w) ∈ denied w)
  then Ret (Some ("open " +:+ logPath (lg w) +:+ ": permission denied"))
           (set_lg (set_l_file (set_sb_file FileNil <$> l_file (lg w)) (lg w))
                   w)
  else Ret None
         (set_lg (set_l_file
                    (Some (fresh_sink (logPath (lg w))
                             match l_file (lg w) with
                             | Some sb => num sb
                             | None => 0
                             end))
                    (lg w))
                 (set_disk (<[logPath (lg w) := []]> (disk w)) w)).
Proof.
  unfold create, bind, get, os_Create.
  destruct (decide (logPath (lg w) ∈ denied w)); reflexivity.
Qed.

(** What [rotateFile] does to an open sink: it flushes what the device
    takes, moves the file to its new name and opens an empty file at the
    log path; it fails when the new name or the log path is denied. *)
Lemma rotateFile_run now w sb c :
  sink_open w sb -> disk w !! logPath (lg w) = Some c ->
  exists r w' c1,
    rotateFile now w = Ret r w' /\
    same_config w w' /\ ticks w' = ticks w /\
    space w - Buffered (sb_Writer sb) <= space w' <= space w /\
    (exists rest, c1 ++ rest = c ++ wr_buf (sb_Writer sb)) /\
    (wr_err (sb_Writer sb) = None -> Buffered (sb_Writer sb) <= space w ->
     c1 = c ++ wr_buf (sb_Writer sb)) /\
    match r with
    | None =>
      (rotated_name (logPath (lg w)) now ∉ denied w) /\
      (logPath (lg w) ∉ denied w) /\
      disk w' = <[logPath (lg w) := []]>
                  (<[rotated_name (logPath (lg w)) now := c1]>
                     (delete (logPath (lg w)) (disk w))) /\
      l_file (lg w') = Some (fresh_sink (logPath (lg w)) (num sb))
    | Some _ =>
      (rotated_name (logPath (lg w)) now ∈ denied w \/
       logPath (lg w) ∈ denied w) /\
      is_Some (l_file (lg w'))
    end.
Proof.
  intros (Hsb & Hfile & _ & Hsize) Hc.
  set (path := logPath (lg w)) in *.
  destruct (Writer_Flush_open path (sb_Writer sb) w c Hc)
    as (b1 & e1 & c1 & sp1 & Hflush & Hcont & _ & _ & Hsp1 & Hemp & Hok).
  unfold rotateFile.
  erewrite bind_Ret.
  2:{ unfold sb_Flush. erewrite bind_Ret by (apply the_sink_run; exact Hsb).
      rewrite Hfile. erewrite bind_Ret by exact Hflush.
      cbv beta iota. erewrite bind_Ret by reflexivity. reflexivity. }
  erewrite bind_Ret by (apply the_sink_run; reflexivity).
  erewrite bind_Ret by reflexivity. erewrite bind_Ret by reflexivity.
  cbn [lg set_lg logPath set_l_file with_file set_space set_disk].
  fold path. rewrite rotated_name_Sprintf. set (name := rotated_name path now).
  assert (Hfull : wr_err (sb_Writer sb) = None ->
                  Buffered (sb_Writer sb) <= space w ->
                  c1 = c ++ wr_buf (sb_Writer sb)).
  { intros He Hs. specialize (Hok He Hs). subst e1.
    rewrite (Hemp eq_refl), app_nil_r in Hcont. exact Hcont. }
  match goal with
  | |- context [bind (os_Rename path name) _ ?w0] => set (w2 := w0)
  end.
  assert (Hc2 : disk w2 !! path = Some c1) by apply lookup_insert_eq.
  unfold bind at 1. rewrite (os_Rename_run path name w2 c1 Hc2).
  change (denied w2) with (denied w).
  destruct (decide (name ∈ denied w)) as [Hden|Hfree].
  { exists (Some ("rename " +:+ path +:+ " " +:+ name +:+
                  ": permission denied")), w2, c1.
    split; [reflexivity|].
    split; [unfold same_config; cbn; tauto|]. split; [reflexivity|].
    split; [cbn; lia|]. split; [eauto|]. split; [assumption|].
    split; [now left|cbn; eauto]. }
  rewrite create_run.
  cbn [lg set_lg logPath set_l_file with_file set_space set_disk denied disk
       l_file w2 num set_sb_file set_Writer].
  fold path.
  destruct (decide (path ∈ denied w)) as [Hden|Hfree'].
  { eexists _, _, c1. split; [reflexivity|].
    split; [unfold same_config; cbn; tauto|]. split; [reflexivity|].
    split; [cbn; lia|]. split; [eauto|]. split; [assumption|].
    split; [now right|cbn; eauto]. }
  eexists _, _, c1. split; [reflexivity|].
  split; [unfold same_config; cbn; tauto|]. split; [reflexivity|].
  split; [cbn; lia|]. split; [eauto|]. split; [assumption|].
  split; [assumption|]. split; [assumption|].
  split; [|reflexivity].
  cbn [disk set_lg set_disk]. now rewrite delete_insert_eq.
Qed.

Lemma sink_open_demo n : sink_open (demo_open n) demo_sink.
Proof.
  split; [reflexivity|]. split; [reflexivity|].
  split; [eexists; reflexivity|]. vm_compute. discriminate.
Qed.



(** ** Writes to the sink *)

Lemma sb_Write_unfold p w sb :
  l_file (lg w) = Some sb ->
  sb_Write p w =
  if rotates w sb p
  then
    (let* _ := (let* now := time_Now in
                let* err := rotateFile now in
                match err with
                | Some e => exit e
                | None => ret tt
                end) in
     sb_append p) w
  else sb_append p w.
Proof.
  intros Hsb. unfold sb_Write.
  erewrite bind_Ret by (apply the_sink_run; exact Hsb).
  erewrite bind_Ret by reflexivity. fold (rotates w sb p).
  destruct (rotates w sb p); [reflexivity|].
  erewrite bind_Ret by reflexivity. reflexivity.
Qed.

(** The buffered write on an open sink. When it returns, all of [p] was
    accepted, the log file as the sink sees it has grown by [p] and the
    byte counter by the length of [p]; it returns when the device has room
    for what is pending and for [p]. *)
Lemma sb_append_run p w sb c :
  sink_open w sb -> disk w !! logPath (lg w) = Some c ->
  (forall r w', sb_append p w = Ret r w' ->
     exists sb' c',
       r = (Z.of_nat (length p), None) /\
       sink_open w' sb' /\ wr_err (sb_Writer sb') = None /\
       disk w' = <[logPath (lg w) := c']> (disk w) /\
       same_config w w' /\ ticks w' = ticks w /\ num sb' = num sb /\
       space w' <= space w /\
       nbytes sb' = u64 (nbytes sb + Z.of_nat (length p)) /\
       c' ++ wr_buf (sb_Writer sb') = c ++ wr_buf (sb_Writer sb) ++ p) /\
  (wr_err (sb_Writer sb) = None ->
   Buffered (sb_Writer sb) + Z.of_nat (length p) <= space w ->
   exists r w', sb_append p w = Ret r w').
Proof.
  intros (Hsb & Hfile & Hdisk & Hsize) Hc.
  set (path := logPath (lg w)) in *.
  destruct (Writer_Write_open path p (sb_Writer sb) w c Hc Hsize)
    as (n & e & b' & c' & sp' & Hrun & Herr & Hsize' & Hn & He & Hok & Hsp).
  assert (Happ : sb_append p w =
    match e with
    | Some e0 =>
      exit e0 (set_lg (set_l_file
                 (Some (set_nbytes (u64 (nbytes sb + u64 n)) (set_Writer b' sb)))
                 (lg w)) (with_file (<[path := c']> (disk w)) sp' w))
    | None =>
      Ret (n, None)
          (set_lg (set_l_file
             (Some (set_nbytes (u64 (nbytes sb + u64 n)) (set_Writer b' sb)))
             (lg w)) (with_file (<[path := c']> (disk w)) sp' w))
    end).
  { unfold sb_append.
    erewrite bind_Ret by (apply the_sink_run; exact Hsb).
    rewrite Hfile. erewrite bind_Ret by exact Hrun. cbv beta iota.
    erewrite bind_Ret by reflexivity. now destruct e. }
  rewrite Happ. clear Happ Hrun. split.
  - intros r w' Hret. destruct e as [e0|].
    { destruct (@exit_exits (Z * option error) e0
                  (set_lg (set_l_file
                     (Some (set_nbytes (u64 (nbytes sb + u64 n))
                              (set_Writer b' sb))) (lg w))
                     (with_file (<[path := c']> (disk w)) sp' w)))
        as [w'' Hw'']. rewrite Hw'' in Hret. discriminate. }
    injection Hret as <- <-. destruct (He eq_refl) as [-> Hcont].
    eexists _, c'. split; [reflexivity|].
    split.
    { split; [reflexivity|]. cbn. fold path.
      split; [assumption|]. split; [|assumption].
      rewrite lookup_insert_eq. eauto. }
    cbn. fold path. split; [assumption|]. split; [reflexivity|].
    split; [unfold same_config; cbn; tauto|]. split; [reflexivity|].
    split; [reflexivity|]. split; [assumption|].
    split; [now rewrite u64_add_r|assumption].
  - intros Hnoerr Hroom. rewrite (Hok Hnoerr Hroom). eauto.
Qed.

(** A write to an open sink, with the rotation that may come first. *)
Lemma sb_Write_run p w sb c :
  sink_open w sb -> disk w !! logPath (lg w) = Some c ->
  (forall r w', sb_Write p w = Ret r w' ->
     exists sb' c',
       r = (Z.of_nat (length p), None) /\
       sink_open w' sb' /\ wr_err (sb_Writer sb') = None /\
       disk w' !! logPath (lg w) = Some c' /\
       same_config w w' /\ num sb' = num sb /\ space w' <= space w /\
       if rotates w sb p
       then
         ticks w' = S (ticks w) /\
         nbytes sb' = u64 (Z.of_nat (length p)) /\
         c' ++ wr_buf (sb_Writer sb') = p /\
         exists c1,
           (exists rest, c1 ++ rest = c ++ wr_buf (sb_Writer sb)) /\
           (wr_err (sb_Writer sb) = None ->
            Buffered (sb_Writer sb) <= space w ->
            c1 = c ++ wr_buf (sb_Writer sb)) /\
           disk w' = <[logPath (lg w) := c']>
                       (<[rotated_name (logPath (lg w)) (clock w (ticks w))
                          := c1]> (delete (logPath (lg w)) (disk w)))
       else
         ticks w' = ticks w /\
         nbytes sb' = u64 (nbytes sb + Z.of_nat (length p)) /\
         c' ++ wr_buf (sb_Writer sb') = c ++ wr_buf (sb_Writer sb) ++ p /\
         disk w' = <[logPath (lg w) := c']> (disk w)) /\
  (wr_err (sb_Writer sb) = None ->
   Buffered (sb_Writer sb) + Z.of_nat (length p) <= space w ->
   (rotates w sb p = true ->
    (rotated_name (logPath (lg w)) (clock w (ticks w)) ∉ denied w) /\
    (logPath (lg w) ∉ denied w)) ->
   exists r w', sb_Write p w = Ret r w').
Proof.
  intros Hopen Hc. pose proof Hopen as (Hsb & Hfile & Hdisk & Hsize).
  rewrite (sb_Write_unfold p w sb Hsb).
  set (path := logPath (lg w)) in *.
  destruct (rotates w sb p) eqn:Hrot.
  2:{ destruct (sb_append_run p w sb c Hopen Hc) as [Hret Hok]. split.
      - intros r w' Hrun. destruct (Hret r w' Hrun)
          as (sb' & c' & -> & Ho & He & Hd & Hcfg & Ht & Hnum & Hsp & Hnb & Hcont).
        exists sb', c'. split; [reflexivity|]. split; [assumption|].
        split; [assumption|]. split; [rewrite Hd; apply lookup_insert_eq|].
        split; [assumption|]. split; [assumption|]. split; [assumption|].
        tauto.
      - intros He Hroom _. now apply Hok. }
  set (w0 := set_ticks (S (ticks w)) w).
  set (now := clock w (ticks w)).
  assert (Hopen0 : sink_open w0 sb) by exact Hopen.
  destruct (rotateFile_run now w0 sb c Hopen0 Hc)
    as (r & w1 & c1 & Hrun & Hcfg1 & Ht1 & Hsp1 & Hpre & Hfull & Hr).
  change (logPath (lg w0)) with path in Hr.
  change (denied w0) with (denied w) in Hr.
  change (disk w0) with (disk w) in Hr. change (space w0) with (space w) in Hsp1.
  match goal with
  | |- context [bind ?m (fun _ => sb_append p) w] =>
    assert (Hin : m w = match r with
                        | Some e => exit e w1
                        | None => Ret tt w1
                        end)
  end.
  { erewrite bind_Ret by reflexivity. fold w0 now.
    erewrite bind_Ret by exact Hrun. now destruct r. }
  destruct r as [e|].
  { destruct (@exit_exits unit e w1) as [w' Hw']. rewrite Hw' in Hin.
    erewrite bind_Exit by exact Hin. split; [discriminate|].
    intros _ _ Hfree. destruct (Hfree eq_refl) as [Hn Hp].
    destruct Hr as [[H|H] _]; contradiction. }
  erewrite bind_Ret by exact Hin.
  destruct Hr as (Hname & Hpath & Hdisk1 & Hsink1).
  assert (Hpath1 : logPath (lg w1) = path) by apply Hcfg1.
  assert (Hc1 : disk w1 !! logPath (lg w1) = Some []).
  { rewrite Hpath1, Hdisk1. apply lookup_insert_eq. }
  assert (Hopen1 : sink_open w1 (fresh_sink path (num sb))).
  { split; [assumption|]. split; [now rewrite Hpath1|].
    split; [rewrite Hc1; eauto|]. vm_compute. discriminate. }
  destruct (sb_append_run p w1 _ [] Hopen1 Hc1) as [Hret Hok]. split.
  - intros r w' Hrun'. destruct (Hret r w' Hrun')
      as (sb' & c' & -> & Ho & He & Hd & Hcfg & Ht & Hnum & Hsp & Hnb & Hcont).
    rewrite Hpath1 in Hd.
    exists sb', c'. split; [reflexivity|]. split; [assumption|].
    split; [assumption|]. split; [rewrite Hd; apply lookup_insert_eq|].
    split; [eapply same_config_trans; [exact Hcfg1|exact Hcfg]|].
    split; [assumption|]. split; [lia|].
    split; [rewrite Ht, Ht1; reflexivity|].
    split; [rewrite Hnb; reflexivity|]. split; [exact Hcont|].
    exists c1. split; [assumption|]. split; [assumption|].
    rewrite Hd, Hdisk1. apply insert_insert_eq.
  - intros He Hroom _. apply Hok; [reflexivity|].
    change (Buffered (sb_Writer (fresh_sink path (num sb)))) with 0. lia.
Qed.

Lemma log_content_open w sb c :
  l_file (lg w) = Some sb -> disk w !! logPath (lg w) = Some c ->
  log_content w = c ++ wr_buf (sb_Writer sb).
Proof. intros Hsb Hc. unfold log_content. now rewrite Hsb, Hc. Qed.

Lemma rotates_no_overflow w sb p :
  0 <= nbytes sb -> nbytes sb + Z.of_nat (length p) < two64 ->
  rotates w sb p = (fileMaxSize (lg w) <=? nbytes sb + Z.of_nat (length p)).
Proof.
  intros H0 H1. unfold rotates.
  rewrite (u64_small (Z.of_nat (length p))) by lia.
  now rewrite u64_small by lia.
Qed.

(** C2: a write to the sink rotates the file before it appends exactly
    when [bytesWritten + len(p) >= maxSize]; after such a rotation the old
    content is in the rotated file and the new file holds the bytes of [p]
    only. With [maxSize = 100] and two writes of 60 bytes the first write
    does not rotate and the second rotates before it is appended. *)
Theorem write_rotates_when_full (p : list ascii) (w : world)
    (sb : syncBuffer) (c : list ascii) :
  sink_open w sb -> disk w !! logPath (lg w) = Some c ->
  wr_err (sb_Writer sb) = None ->
  Buffered (sb_Writer sb) + Z.of_nat (length p) <= space w ->
  (rotated_name (logPath (lg w)) (clock w (ticks w)) ∉ denied w) ->
  (logPath (lg w) ∉ denied w) ->
  0 <= nbytes sb -> nbytes sb + Z.of_nat (length p) < two64 ->
  (exists w' sb',
      sb_Write p w = Ret (Z.of_nat (length p), None) w' /\
      l_file (lg w') = Some sb' /\
      if decide (fileMaxSize (lg w) <= nbytes sb + Z.of_nat (length p))
      then
        disk w' !! rotated_name (logPath (lg w)) (clock w (ticks w))
        = Some (log_content w) /\
        log_content w' = p /\
        nbytes sb' = Z.of_nat (length p)
      else
        (forall q, q <> logPath (lg w) -> disk w' !! q = disk w !! q) /\
        ticks w' = ticks w /\
        log_content w' = log_content w ++ p /\
        nbytes sb' = nbytes sb + Z.of_nat (length p)) /\
  ((let* _ := create in sb_Write (replicate 60 "a"%char)) (demo_world 0 100)
   = Ret (60, None) demo_first /\
   disk demo_first !! "/tmp/app.log.202437.897" = None /\
   log_content demo_first = replicate 60 "a"%char /\
   sb_Write (replicate 60 "b"%char) demo_first = Ret (60, None) demo_second /\
   disk demo_second !! "/tmp/app.log.202437.897"
   = Some (replicate 60 "a"%char) /\
   log_content demo_second = replicate 60 "b"%char).
Proof.
  intros Hopen Hc Herr Hroom Hname Hpath Hnb Hno.
  split; [|repeat apply conj; vm_compute; reflexivity].
  destruct (sb_Write_run p w sb c Hopen Hc) as [Hret Hok].
  destruct Hok as (r & w' & Hrun); try assumption; [tauto|].
  destruct (Hret r w' Hrun)
    as (sb' & c' & -> & Hopen' & _ & Hc' & Hcfg & _ & _ & Hcase).
  exists w', sb'. split; [assumption|].
  pose proof Hopen as (Hsb & _). pose proof Hopen' as (Hsb' & _).
  split; [assumption|].
  assert (Hpath' : logPath (lg w') = logPath (lg w)) by apply Hcfg.
  rewrite (log_content_open w sb c Hsb Hc).
  rewrite (log_content_open w' sb' c' Hsb') by (now rewrite Hpath').
  rewrite rotates_no_overflow in Hcase by assumption.
  destruct (decide (fileMaxSize (lg w) <= nbytes sb + Z.of_nat (length p)))
    as [Hfull|Hfree].
  - destruct (Z.leb_spec (fileMaxSize (lg w))
                (nbytes sb + Z.of_nat (length p))); [|lia].
    destruct Hcase as (_ & Hn & Hcont & c1 & _ & Hc1 & Hdisk).
    split; [|split; [assumption|rewrite Hn; apply u64_small; lia]].
    rewrite Hdisk, lookup_insert_ne by (symmetry; apply rotated_name_fresh).
    rewrite lookup_insert_eq. f_equal. apply Hc1; [assumption|lia].
  - destruct (Z.leb_spec (fileMaxSize (lg w))
                (nbytes sb + Z.of_nat (length p))); [lia|].
    destruct Hcase as (Ht & Hn & Hcont & Hdisk).
    split; [|split; [assumption|split]].
    + intros q Hq. rewrite Hdisk. now apply lookup_insert_ne.
    + now rewrite Hcont, app_assoc.
    + rewrite Hn. apply u64_small. lia.
Qed.

Lemma write_rotates_when_full_witness :
  exists w' sb',
    sb_Write (bytes_of "entry") (demo_open 100)
    = Ret (Z.of_nat (length (bytes_of "entry")), None) w' /\
    l_file (lg w') = Some sb' /\
    (forall q, q <> logPath (lg (demo_open 100)) ->
               disk w' !! q = disk (demo_open 100) !! q) /\
    ticks w' = ticks (demo_open 100) /\
    log_content w' = log_content (demo_open 100) ++ bytes_of "entry" /\
    nbytes sb' = nbytes demo_sink + Z.of_nat (length (bytes_of "entry")).
Proof.
  destruct (write_rotates_when_full (bytes_of "entry") (demo_open 100)
              demo_sink (bytes_of "old") (sink_open_demo 100) eq_refl eq_refl)
    as [(w' & sb' & Hrun & Hsb & Hcase) _].
  - vm_compute. discriminate.
  - cbn. apply not_elem_of_empty.
  - cbn. apply not_elem_of_empty.
  - vm_compute. discriminate.
  - vm_compute. reflexivity.
  - exists w', sb'. split; [exact Hrun|]. split; [exact Hsb|].
    destruct (decide (fileMaxSize (lg (demo_open 100))
                      <= nbytes demo_sink +
                         Z.of_nat (length (bytes_of "entry")))) as [H|H].
    + exfalso. vm_compute in H. now apply H.
    + exact Hcase.
Defined.

(** ** The byte counter *)

Lemma create_counts w w' :
  create w = Ret None w' ->
  exists sb', l_file (lg w') = Some sb' /\ nbytes sb' = 0 /\ counted w'.
Proof.
  rewrite create_run.
  destruct (decide (logPath (lg w) ∈ denied w)); [discriminate|].
  intros [= <-]. eexists. split; [reflexivity|]. split; [reflexivity|].
  intros sb' [= <-].
  assert (Hc : disk (set_disk (<[logPath (lg w) := []]> (disk w)) w)
               !! logPath (lg w) = Some []) by apply lookup_insert_eq.
  split.
  - split; [reflexivity|]. split; [reflexivity|].
    split; [cbn; rewrite lookup_insert_eq; eauto|]. vm_compute. discriminate.
  - unfold log_content. cbn. rewrite lookup_insert_eq. reflexivity.
Qed.

Lemma rotateFile_counts now w sb w' :
  sink_open w sb -> rotateFile now w = Ret None w' ->
  exists sb', l_file (lg w') = Some sb' /\ nbytes sb' = 0 /\ counted w'.
Proof.
  intros Hopen Hrun. pose proof Hopen as (_ & _ & [c Hc] & _).
  destruct (rotateFile_run now w sb c Hopen Hc)
    as (r & w1 & c1 & Hrun1 & Hcfg & _ & _ & _ & _ & Hr).
  rewrite Hrun in Hrun1. injection Hrun1 as <- <-.
  destruct Hr as (_ & _ & Hdisk & Hsink).
  assert (Hpath : logPath (lg w') = logPath (lg w)) by apply Hcfg.
  eexists. split; [exact Hsink|]. split; [reflexivity|].
  intros sb' Hsb'. rewrite Hsink in Hsb'. injection Hsb' as <-.
  assert (Hc' : disk w' !! logPath (lg w') = Some []).
  { rewrite Hpath, Hdisk. apply lookup_insert_eq. }
  split.
  - split; [assumption|]. split; [now rewrite Hpath|].
    split; [rewrite Hc'; eauto|]. vm_compute. discriminate.
  - rewrite (log_content_open w' _ [] Hsink Hc'). reflexivity.
Qed.

Lemma u64_length_app (a b : list ascii) :
  u64 (u64 (Z.of_nat (length a)) + Z.of_nat (length b))
  = u64 (Z.of_nat (length (a ++ b))).
Proof. rewrite u64_add_l, length_app. f_equal. lia. Qed.

Lemma sb_Write_counts p w sb n e w' :
  counted w -> l_file (lg w) = Some sb ->
  sb_Write p w = Ret (n, e) w' ->
  counted w' /\ n = Z.of_nat (length p) /\ e = None /\
  exists sb', l_file (lg w') = Some sb' /\
              nbytes sb' = u64 ((if rotates w sb p then 0 else nbytes sb) + n).
Proof.
  intros Hcnt Hsb Hrun. destruct (Hcnt sb Hsb) as [Hopen Hnb].
  pose proof Hopen as (_ & _ & [c Hc] & _).
  destruct (sb_Write_run p w sb c Hopen Hc) as [Hret _].
  destruct (Hret _ _ Hrun)
    as (sb' & c' & [= -> ->] & Hopen' & _ & Hc' & Hcfg & _ & _ & Hcase).
  assert (Hpath : logPath (lg w') = logPath (lg w)) by apply Hcfg.
  pose proof Hopen' as (Hsb' & _).
  rewrite <- Hpath in Hc'.
  rewrite (log_content_open w sb c Hsb Hc) in Hnb.
  assert (Hnb' : nbytes sb' = u64 (Z.of_nat (length (log_content w')))
                 /\ nbytes sb' = u64 ((if rotates w sb p then 0 else nbytes sb)
                                      + Z.of_nat (length p))).
  { rewrite (log_content_open w' sb' c' Hsb' Hc').
    destruct (rotates w sb p).
    - destruct Hcase as (_ & Hn & Hcont & _). rewrite Hcont. now split.
    - destruct Hcase as (_ & Hn & Hcont & _). split; [|assumption].
      rewrite Hcont, Hn, Hnb, app_assoc. apply u64_length_app. }
  split; [|split; [reflexivity|split; [reflexivity|]]].
  - intros sb'' Hsb''. rewrite Hsb' in Hsb''. injection Hsb'' as <-.
    split; [assumption|apply Hnb'].
  - exists sb'. split; [assumption|apply Hnb'].
Qed.

Lemma write_all_counts ps w w' :
  counted w -> is_Some (l_file (lg w)) ->
  write_all ps w = Ret tt w' ->
  counted w' /\ is_Some (l_file (lg w')).
Proof.
  revert w. induction ps as [|p ps IH]; intros w Hcnt [sb Hsb];
    cbn [write_all].
  - intros [= <-]. eauto.
  - unfold bind. destruct (sb_Write p w) as [[n e] w1| |] eqn:Hw; try discriminate.
    destruct (sb_Write_counts p w sb n e w1 Hcnt Hsb Hw)
      as (Hcnt1 & _ & _ & sb1 & Hsb1 & _).
    apply IH; eauto.
Qed.

(** A flush, of the daemon or of the caller, keeps the counter right. *)
Lemma Flush_counts w w' : counted w -> Flush w = Ret tt w' -> counted w'.
Proof.
  intros Hcnt. unfold Flush, flushAll. erewrite bind_Ret by reflexivity.
  destruct (l_file (lg w)) as [sb|] eqn:Hsb.
  2:{ intros [= <-]. exact Hcnt. }
  destruct (Hcnt sb Hsb) as [Hopen Hnb].
  pose proof Hopen as (_ & Hfile & [c Hc] & Hsize).
  destruct (Writer_Flush_open (logPath (lg w)) (sb_Writer sb) w c Hc)
    as (b1 & e1 & c1 & sp1 & Hflush & Hcont & _ & Hlen & _ & _ & _).
  erewrite bind_Ret.
  2:{ unfold sb_Flush. erewrite bind_Ret by (apply the_sink_run; exact Hsb).
      rewrite Hfile. erewrite bind_Ret by exact Hflush.
      cbv beta iota. erewrite bind_Ret by reflexivity. reflexivity. }
  erewrite bind_Ret.
  2:{ unfold sb_Sync. erewrite bind_Ret by (apply the_sink_run; reflexivity).
      cbn [sb_file set_Writer]. rewrite Hfile. reflexivity. }
  intros [= <-]. intros sb' [= <-].
  rewrite (log_content_open w sb c Hsb Hc) in Hnb. split.
  - split; [reflexivity|]. split; [exact Hfile|].
    split; [cbn; rewrite lookup_insert_eq; eauto|].
    unfold Buffered in *. cbn [sb_Writer set_Writer]. lia.
  - erewrite log_content_open;
      [|reflexivity|cbn; apply lookup_insert_eq].
    cbn [sb_Writer set_Writer nbytes]. rewrite Hcont. exact Hnb.
Qed.

(** [create] and [rotateFile] succeed unless a path they open is
    denied. *)
Lemma create_succeeds w :
  logPath (lg w) ∉ denied w -> exists w', create w = Ret None w'.
Proof.
  intros Hfree. rewrite create_run, decide_False by assumption. eauto.
Qed.

Lemma rotateFile_succeeds now w sb :
  sink_open w sb ->
  rotated_name (logPath (lg w)) now ∉ denied w ->
  logPath (lg w) ∉ denied w ->
  exists w', rotateFile now w = Ret None w'.
Proof.
  intros Hopen Hname Hpath. pose proof Hopen as (_ & _ & [c Hc] & _).
  destruct (rotateFile_run now w sb c Hopen Hc)
    as (r & w' & c1 & Hrun & _ & _ & _ & _ & _ & Hr).
  destruct r as [e|]; [|eauto].
  destruct Hr as [[Hden|Hden] _]; contradiction.
Qed.

(** C5: the byte counter of the sink is kept by every operation of the
    sink. Creating the file and rotating it succeed when no path they
    open is denied, and set the counter to 0; a write succeeds when no
    fault is ahead, and a write that returns adds the number of bytes the
    write buffer accepted, after the reset of the rotation when there is
    one; so after any sequence of writes the counter is the number of
    bytes accepted since the current file was created, the length of the
    log file as the sink sees it. *)
Theorem byte_counter_invariant (w : world) :
  ((logPath (lg w) ∉ denied w -> exists w', create w = Ret None w') /\
   forall w', create w = Ret None w' ->
     exists sb', l_file (lg w') = Some sb' /\ nbytes sb' = 0 /\ counted w') /\
  ((forall now sb, sink_open w sb ->
      rotated_name (logPath (lg w)) now ∉ denied w ->
      logPath (lg w) ∉ denied w ->
      exists w', rotateFile now w = Ret None w') /\
   forall now sb w', sink_open w sb -> rotateFile now w = Ret None w' ->
     exists sb', l_file (lg w') = Some sb' /\ nbytes sb' = 0 /\ counted w') /\
  ((forall p sb,
      counted w -> l_file (lg w) = Some sb ->
      wr_err (sb_Writer sb) = None ->
      Buffered (sb_Writer sb) + Z.of_nat (length p) <= space w ->
      (rotates w sb p = true ->
       (rotated_name (logPath (lg w)) (clock w (ticks w)) ∉ denied w) /\
       (logPath (lg w) ∉ denied w)) ->
      exists r w', sb_Write p w = Ret r w') /\
   forall p sb n e w',
     counted w -> l_file (lg w) = Some sb -> sb_Write p w = Ret (n, e) w' ->
     counted w' /\ n = Z.of_nat (length p) /\
     exists sb', l_file (lg w') = Some sb' /\
       nbytes sb' = u64 ((if rotates w sb p then 0 else nbytes sb) + n)) /\
  (forall ps w',
     counted w -> is_Some (l_file (lg w)) -> write_all ps w = Ret tt w' ->
     exists sb', l_file (lg w') = Some sb' /\
       nbytes sb' = u64 (Z.of_nat (length (log_content w'))) /\
       (Z.of_nat (length (log_content w')) < two64 ->
        nbytes sb' = Z.of_nat (length (log_content w')))).
Proof.
  split; [split; [apply create_succeeds|apply create_counts]|].
  split; [split|split; [split|]].
  - intros now sb. apply rotateFile_succeeds.
  - intros now sb w'. apply rotateFile_counts.
  - intros p sb Hcnt Hsb Herr Hroom Hfree.
    destruct (Hcnt sb Hsb) as [Hopen _].
    pose proof Hopen as (_ & _ & [c Hc] & _).
    destruct (sb_Write_run p w sb c Hopen Hc) as [_ Hok]. now apply Hok.
  - intros p sb n e w' Hcnt Hsb Hrun.
    destruct (sb_Write_counts p w sb n e w' Hcnt Hsb Hrun)
      as (H1 & H2 & _ & H3). auto.
  - intros ps w' Hcnt Hs Hrun.
    destruct (write_all_counts ps w w' Hcnt Hs Hrun) as [Hcnt' [sb' Hsb']].
    exists sb'. split; [assumption|].
    destruct (Hcnt' sb' Hsb') as [_ Hnb]. split; [assumption|].
    intros Hlt. rewrite Hnb. apply u64_small. lia.
Qed.

Lemma counted_demo n : counted (demo_open n).
Proof.
  intros sb [= <-]. split; [apply sink_open_demo|reflexivity].
Qed.

Lemma byte_counter_invariant_witness :
  (nbytes demo_sink = 6 /\
   exists w' sb',
     create (demo_open 100) = Ret None w' /\
     l_file (lg w') = Some sb' /\ nbytes sb' = 0) /\
  (exists w' sb',
     rotateFile demo_time (demo_open 100) = Ret None w' /\
     l_file (lg w') = Some sb' /\ nbytes sb' = 0) /\
  (exists sb',
     l_file (lg (world_of (write_all [bytes_of "one"; bytes_of "two"]
                             (demo_open 100)))) = Some sb' /\
     nbytes sb' = 12) /\
  (rotates (demo_open 10) demo_sink (bytes_of "12345") = true /\
   exists sb',
     l_file (lg (world_of (write_all [bytes_of "12345"; bytes_of "678"]
                             (demo_open 10)))) = Some sb' /\
     nbytes sb' = 8).
Proof.
  destruct (byte_counter_invariant (demo_open 100))
    as ([Hc1 Hc2] & [Hr1 Hr2] & _ & Hw).
  destruct (byte_counter_invariant (demo_open 10)) as (_ & _ & _ & Hw').
  split; [split; [reflexivity|]|split; [|split; [|split; [reflexivity|]]]].
  - destruct Hc1 as [w' Hrun]; [cbn; apply not_elem_of_empty|].
    destruct (Hc2 w' Hrun) as (sb' & Hsb' & Hn & _). eauto.
  - destruct (Hr1 demo_time demo_sink) as [w' Hrun];
      [apply sink_open_demo|cbn; apply not_elem_of_empty
      |cbn; apply not_elem_of_empty|].
    destruct (Hr2 demo_time demo_sink w' (sink_open_demo 100) Hrun)
      as (sb' & Hsb' & Hn & _). eauto.
  - destruct (Hw [bytes_of "one"; bytes_of "two"]
                (world_of (write_all [bytes_of "one"; bytes_of "two"]
                             (demo_open 100))))
      as (sb' & Hsb' & Hn & _).
    + apply counted_demo.
    + eexists. reflexivity.
    + vm_compute. reflexivity.
    + exists sb'. split; [exact Hsb'|]. rewrite Hn. vm_compute. reflexivity.
  - destruct (Hw' [bytes_of "12345"; bytes_of "678"]
                (world_of (write_all [bytes_of "12345"; bytes_of "678"]
                             (demo_open 10))))
      as (sb' & Hsb' & Hn & _).
    + apply counted_demo.
    + eexists. reflexivity.
    + vm_compute. reflexivity.
    + exists sb'. split; [exact Hsb'|]. rewrite Hn. vm_compute. reflexivity.
Defined.

(** ** The emit operations *)

Lemma LastIndex_from_bound s i last :
  last < i ->
  last <= LastIndex_from s i last < i + len s.
Proof.
  revert i last. induction s as [|c s IH]; intros i last Hlt;
    cbn [LastIndex_from].
  - unfold len. cbn [String.length]. lia.
  - rewrite len_String.
    destruct (bool_decide (c = "/"%char)).
    + specialize (IH (i + 1) i ltac:(lia)). lia.
    + specialize (IH (i + 1) last ltac:(lia)). lia.
Qed.

Lemma header_file_run (w : world) depth :
  (match callers w (i64 (3 + depth)) with
   | None => ret ("???", 1)
   | Some (file, line) =>
     let slash := LastIndex_slash file in
     if 0 <=? slash
     then let* file := checked (str_slice_from file (slash + 1)) in
          ret (file, line)
     else ret (file, line)
   end) w = Ret (caller_at w depth) w.
Proof.
  unfold caller_at, basename.
  destruct (callers w (i64 (3 + depth))) as [[file line]|]; [|reflexivity].
  cbv zeta. destruct (0 <=? LastIndex_slash file) eqn:Hs; [|reflexivity].
  pose proof (LastIndex_from_bound file 0 (-1) ltac:(lia)) as Hb.
  fold (LastIndex_slash file) in Hb. apply Z.leb_le in Hs.
  unfold str_slice_from.
  destruct (Z.leb_spec 0 (LastIndex_slash file + 1)); [|lia].
  destruct (Z.leb_spec (LastIndex_slash file + 1) (len file)); [|lia].
  reflexivity.
Qed.

Lemma header_run s depth w :
  0 <= s -> formats w depth ->
  exists t',
    length t' = 29%nat /\
    header s depth w
    = Ret ({| Buffer := header_bytes s (clock w (ticks w))
                          (fst (caller_at w depth)) (snd (caller_at w depth));
              tmp := t' |},
           fst (caller_at w depth), snd (caller_at w depth)) (taken w).
Proof.
  intros Hs (Hnow & [Hempty Hlen] & Hline).
  destruct (formatHeader_run s (fst (caller_at w depth))
              (snd (caller_at w depth)) w Hs Hnow Hline Hlen)
    as (t' & Hlen' & Hrun).
  exists t'. split; [assumption|]. unfold header.
  erewrite bind_Ret by reflexivity.
  erewrite bind_Ret by apply header_file_run.
  destruct (caller_at w depth) as [file line]. cbn [fst snd] in *.
  erewrite bind_Ret by exact Hrun. rewrite Hempty. reflexivity.
Qed.

Lemma header_bytes_space s now file line :
  exists pre, header_bytes s now file line = pre ++ [" "%char].
Proof.
  unfold header_bytes. eexists.
  repeat rewrite app_assoc.
  change ["]"%char; " "%char] with (["]"%char] ++ [" "%char]).
  rewrite app_assoc. reflexivity.
Qed.

(** A call at or above the level formats its record and hands it to
    [output]. *)
Lemma log_call_run st s text w :
  0 <= s -> formats w (depth_of st) ->
  exists t',
    log_call st s text w
    = output {| Buffer := record_at s w (depth_of st) text; tmp := t' |}
        (fst (caller_at w (depth_of st))) (snd (caller_at w (depth_of st)))
        (taken w).
Proof.
  intros Hs Hf. destruct (header_run s (depth_of st) w Hs Hf)
    as (t' & _ & Hrun).
  exists t'.
  destruct (header_bytes_space s (clock w (ticks w))
              (fst (caller_at w (depth_of st)))
              (snd (caller_at w (depth_of st)))) as [pre Hpre].
  assert (Hgo : (let* '(buf, file, line) := header s (depth_of st) in
                 let buf := Fprint text buf in
                 let* buf := end_line buf in
                 output buf file line) w
                = output {| Buffer := record_at s w (depth_of st) text;
                            tmp := t' |}
                    (fst (caller_at w (depth_of st)))
                    (snd (caller_at w (depth_of st))) (taken w)).
  { erewrite bind_Ret by exact Hrun. cbv beta iota zeta.
    erewrite bind_Ret by (eapply end_line_run; exact Hpre).
    reflexivity. }
  destruct st; exact Hgo.
Qed.

Lemma emit_unfold S st text w :
  emit S st text w =
  if logLevel (lg w) <=? level_of S
  then match S with
       | SFatal =>
         (let* _ := log_call st FatalLog text in exit (errors_New "")) w
       | _ => log_call st (level_of S) text w
       end
  else Ret tt w.
Proof.
  destruct S, st; cbn [emit level_of log_call];
    match goal with
    | |- ?op _ w = _ => unfold op
    | |- ?op _ _ w = _ => unfold op
    end;
    erewrite bind_Ret by reflexivity;
    match goal with
    | |- context [logLevel (lg w) <=? ?l] => destruct (logLevel (lg w) <=? l)
    end; reflexivity.
Qed.

Lemma not_denied w name : denied w = ∅ -> name ∉ denied w.
Proof. intros ->. apply not_elem_of_empty. Qed.

(** Without a fault ahead, [output] returns and the log file as the sink
    sees it ends with the data. *)
Lemma output_run buf file line w :
  ready w (Z.of_nat (length (Buffer buf))) ->
  exists w' sb' older,
    output buf file line w = Ret tt w' /\
    sink_open w' sb' /\
    log_content w' = older ++ Buffer buf.
Proof.
  intros [Hden Hready]. unfold output. cbv zeta.
  erewrite bind_Ret by reflexivity.
  assert (Hwrite : forall w1 sb1 c1,
    sink_open w1 sb1 -> disk w1 !! logPath (lg w1) = Some c1 ->
    wr_err (sb_Writer sb1) = None ->
    Buffered (sb_Writer sb1) + Z.of_nat (length (Buffer buf)) <= space w1 ->
    denied w1 = ∅ ->
    exists w' sb' older,
      (let* _ := sb_Write (Buffer buf) in putBuffer buf) w1 = Ret tt w' /\
      sink_open w' sb' /\ log_content w' = older ++ Buffer buf).
  { intros w1 sb1 c1 Hopen Hc Herr Hroom Hden1.
    destruct (sb_Write_run (Buffer buf) w1 sb1 c1 Hopen Hc) as [Hret Hok].
    destruct Hok as (r & w2 & Hrun); try assumption.
    { intros _. split; now apply not_denied. }
    destruct (Hret r w2 Hrun)
      as (sb' & c' & _ & Hopen' & _ & Hc' & Hcfg & _ & _ & Hcase).
    assert (Hpath : logPath (lg w2) = logPath (lg w1)) by apply Hcfg.
    pose proof Hopen' as (Hsb' & Hfile' & Hdisk' & Hsize').
    exists (set_pool ({| Buffer := []; tmp := tmp buf |} :: pool w2) w2), sb'.
    exists (if rotates w1 sb1 (Buffer buf) then []
            else c1 ++ wr_buf (sb_Writer sb1)).
    split; [erewrite bind_Ret by exact Hrun; reflexivity|].
    split; [exact Hopen'|].
    rewrite (log_content_open _ sb' c')
      by (try exact Hsb'; cbn [lg set_pool disk]; now rewrite Hpath).
    destruct (rotates w1 sb1 (Buffer buf)).
    - destruct Hcase as (_ & _ & Hcont & _). now rewrite Hcont.
    - destruct Hcase as (_ & _ & Hcont & _). now rewrite Hcont, app_assoc. }
  destruct (l_file (lg w)) as [sb|] eqn:Hsb.
  - destruct Hready as (Hopen & Herr & Hroom).
    pose proof Hopen as (_ & _ & [c Hc] & _).
    erewrite bind_Ret by reflexivity. eapply Hwrite; eassumption.
  - erewrite bind_Ret.
    2:{ erewrite bind_Ret.
        2:{ rewrite create_run.
            rewrite decide_False by now apply not_denied. reflexivity. }
        reflexivity. }
    rewrite Hsb.
    eapply (Hwrite _ (fresh_sink (logPath (lg w)) 0) []).
    + split; [reflexivity|]. split; [reflexivity|].
      split; [cbn; rewrite lookup_insert_eq; eauto|]. vm_compute. discriminate.
    + cbn. apply lookup_insert_eq.
    + reflexivity.
    + change (Buffered (sb_Writer (fresh_sink (logPath (lg w)) 0))) with 0.
      cbn [space set_lg set_disk]. lia.
    + exact Hden.
Qed.

(** [exit] flushes as far as the device allows: the log file as the sink
    sees it stays what it was. *)
Lemma exit_run {A} err w sb :
  sink_open w sb ->
  exists w', @exit A err w = Exit 2 w' /\ log_content w' = log_content w.
Proof.
  intros Hopen. pose proof Hopen as (Hsb & Hfile & [c Hc] & _).
  unfold exit. erewrite bind_Ret by reflexivity.
  set (w0 := set_stderr _ w).
  assert (Hsb0 : l_file (lg w0) = Some sb) by exact Hsb.
  assert (Hc0 : disk w0 !! logPath (lg w) = Some c) by exact Hc.
  destruct (Writer_Flush_open (logPath (lg w)) (sb_Writer sb) w0 c Hc0)
    as (b1 & e1 & c1 & sp1 & Hflush & Hcont & _).
  erewrite bind_Ret.
  2:{ unfold flushAll. erewrite bind_Ret by reflexivity. rewrite Hsb0.
      erewrite bind_Ret.
      2:{ unfold sb_Flush.
          erewrite bind_Ret by (apply the_sink_run; exact Hsb0).
          rewrite Hfile. erewrite bind_Ret by exact Hflush.
          cbv beta iota. erewrite bind_Ret by reflexivity. reflexivity. }
      erewrite bind_Ret.
      2:{ unfold sb_Sync.
          erewrite bind_Ret by (apply the_sink_run; reflexivity).
          cbn [sb_file set_Writer]. rewrite Hfile. reflexivity. }
      reflexivity. }
  eexists. split; [reflexivity|].
  rewrite (log_content_open w sb c Hsb Hc).
  erewrite log_content_open; [|reflexivity|cbn; apply lookup_insert_eq].
  exact Hcont.
Qed.

Lemma ready_taken w n : ready w n -> ready (taken w) n.
Proof.
  unfold taken. cbv zeta. cbn [pool set_ticks].
  destruct (pool w); intros H; exact H.
Qed.

(** What a call at or above the level does when no fault is ahead. *)
Lemma log_call_emits st s text w :
  0 <= s -> formats w (depth_of st) ->
  ready w (Z.of_nat (length (record_at s w (depth_of st) text))) ->
  exists w' sb' older,
    log_call st s text w = Ret tt w' /\
    sink_open w' sb' /\
    log_content w' = older ++ record_at s w (depth_of st) text.
Proof.
  intros Hs Hf Hr. destruct (log_call_run st s text w Hs Hf) as [t' ->].
  apply (output_run {| Buffer := record_at s w (depth_of st) text;
                       tmp := t' |}).
  now apply ready_taken.
Qed.

Lemma level_of_nonneg S : 0 <= level_of S <= FatalLog.
Proof. destruct S; vm_compute; split; congruence. Qed.

(** C1: an emit operation at severity [S], in any of its four styles,
    emits a record exactly when [S] is at or above the configured minimum
    level [M]. Below the level the call changes nothing, the sink included.
    At or above it, when no fault is ahead, the log file as the sink sees
    it ends with the record of the call: the call returns, or, at severity
    Fatal, ends the process with code 2. *)
Theorem level_gate (S : severity) (st : style) (text : list ascii)
    (w : world) :
  (level_of S < logLevel (lg w) -> emit S st text w = Ret tt w) /\
  (logLevel (lg w) <= level_of S ->
   formats w (depth_of st) ->
   ready w (Z.of_nat (length (record_at (level_of S) w (depth_of st) text))) ->
   exists w' older,
     emit S st text w
     = match S with SFatal => Exit 2 w' | _ => Ret tt w' end /\
     log_content w'
     = older ++ record_at (level_of S) w (depth_of st) text).
Proof.
  rewrite emit_unfold. split.
  - intros Hlt. destruct (Z.leb_spec (logLevel (lg w)) (level_of S)); [lia|].
    reflexivity.
  - intros Hle Hf Hr.
    destruct (Z.leb_spec (logLevel (lg w)) (level_of S)); [|lia].
    pose proof (level_of_nonneg S) as [Hs _].
    destruct (log_call_emits st (level_of S) text w Hs Hf Hr)
      as (w' & sb' & older & Hrun & Hopen & Hcont).
    destruct S; try (exists w', older; split; [exact Hrun|exact Hcont]).
    destruct (@exit_run unit (errors_New "") w' sb' Hopen) as (w'' & Hex & Hsame).
    exists w'', older. split.
    + erewrite bind_Ret by exact Hrun. exact Hex.
    + rewrite Hsame. exact Hcont.
Qed.

Lemma formats_demo level maxSize depth :
  formats (demo_world level maxSize) depth.
Proof.
  split; [unfold wf_time; cbn; lia|]. split; [split; reflexivity|].
  unfold caller_at. cbn [callers demo_world].
  destruct ((3 <=? i64 (3 + depth)) && (i64 (3 + depth) <=? 4));
    cbn [snd]; lia.
Qed.

Lemma level_gate_witness :
  exists w' older,
    emit SInfo Printf (bytes_of "hello") (demo_world 1 1000) = Ret tt w' /\
    log_content w'
    = older ++ record_at InfoLog (demo_world 1 1000) 0 (bytes_of "hello").
Proof.
  refine (proj2 (level_gate SInfo Printf (bytes_of "hello")
                   (demo_world 1 1000)) _ _ _).
  - vm_compute. discriminate.
  - apply formats_demo.
  - split; [reflexivity|]. vm_compute. discriminate.
Defined.

Lemma head_terminated c l : head (terminated (c :: l)) = Some c.
Proof. unfold terminated. now destruct (ends_with_newline (c :: l)). Qed.

(** ** The rounds of the buffered write *)

Lemma File_Write_all f p w n w' :
  File_Write f p w = Ret (n, None) w' -> n = Z.of_nat (length p).
Proof.
  destruct f as [|path|]; cbn; try discriminate.
  destruct (Z.ltb_spec (Z.max 0 (Z.min (Z.of_nat (length p)) (space w)))
              (Z.of_nat (length p))); [discriminate|].
  intros [= <- _]. lia.
Qed.

Lemma Writer_Flush_clears f b w b' e w' :
  Writer_Flush f b w = Ret (b', e) w' ->
  wr_err b' = e /\ (e = None -> wr_buf b' = []).
Proof.
  unfold Writer_Flush. destruct (wr_err b) as [e0|] eqn:Herr.
  { intros [= <- <- _]. split; [assumption|discriminate]. }
  destruct (Z.eqb_spec (Buffered b) 0) as [Hz|Hnz].
  { intros [= <- <- _]. split; [assumption|]. intros _.
    unfold Buffered in Hz. destruct (wr_buf b); [reflexivity|cbn in Hz; lia]. }
  destruct (File_Write_returns f (wr_buf b) w) as (n & e1 & w1 & Hw & _).
  erewrite bind_Ret by exact Hw. cbv beta iota.
  destruct e1 as [e1|].
  - intros [= <- <- _]. split; [reflexivity|discriminate].
  - destruct (n <? Buffered b); intros [= <- <- _]; split;
      (reflexivity || discriminate).
Qed.

Lemma Writer_Write_loop_empty k f p nn b w :
  wr_buf b = [] ->
  Writer_Write_loop (S k) f p nn b w = Writer_Write_loop 1 f p nn b w.
Proof.
  intros Hbuf. cbn [Writer_Write_loop].
  destruct ((Available b <? Z.of_nat (length p)) &&
            bool_decide (wr_err b = None)); [|reflexivity].
  assert (Hz : Buffered b = 0) by (unfold Buffered; now rewrite Hbuf).
  rewrite Hz. cbn [Z.eqb].
  destruct (File_Write_returns f p w) as (n & e & w1 & Hw & _).
  erewrite !bind_Ret by exact Hw. cbv beta iota.
  apply (f_equal (fun m => m w1)).
  rewrite (Writer_Write_loop_skip k); [reflexivity|].
  destruct e as [e|]; [right; discriminate|left].
  apply File_Write_all in Hw. subst n.
  rewrite drop_ge by lia. unfold Available, Buffered. cbn [wr_buf length].
  rewrite Hbuf. cbn [length]. pose proof bufferSize_pos. lia.
Qed.

(** Two rounds of the loop of the buffered write are enough: once the
    buffer was filled and flushed, the rest of [p] fits the buffer or goes
    to the file in one piece, and an error ends the loop. *)
Lemma Writer_Write_rounds k f p nn b w :
  Writer_Write_loop (S (S k)) f p nn b w = Writer_Write_loop 2 f p nn b w.
Proof.
  change (Writer_Write_loop (S (S k)) f p nn b w)
    with ((if (Available b <? Z.of_nat (length p)) &&
               bool_decide (wr_err b = None)
           then
             if Buffered b =? 0 then
               let* '(n, e) := File_Write f p in
               Writer_Write_loop (S k) f (drop (Z.to_nat n) p) (nn + n)
                 {| wr_buf := wr_buf b; wr_err := e |}
             else
               let n := Available b in
               let* '(b', _) := Writer_Flush f
                 {| wr_buf := wr_buf b ++ take (Z.to_nat n) p;
                    wr_err := wr_err b |} in
               Writer_Write_loop (S k) f (drop (Z.to_nat n) p) (nn + n) b'
           else Writer_Write_end p nn b) w).
  change (Writer_Write_loop 2 f p nn b w)
    with ((if (Available b <? Z.of_nat (length p)) &&
               bool_decide (wr_err b = None)
           then
             if Buffered b =? 0 then
               let* '(n, e) := File_Write f p in
               Writer_Write_loop 1 f (drop (Z.to_nat n) p) (nn + n)
                 {| wr_buf := wr_buf b; wr_err := e |}
             else
               let n := Available b in
               let* '(b', _) := Writer_Flush f
                 {| wr_buf := wr_buf b ++ take (Z.to_nat n) p;
                    wr_err := wr_err b |} in
               Writer_Write_loop 1 f (drop (Z.to_nat n) p) (nn + n) b'
           else Writer_Write_end p nn b) w).
  destruct ((Available b <? Z.of_nat (length p)) &&
            bool_decide (wr_err b = None)); [|reflexivity].
  destruct (Z.eqb_spec (Buffered b) 0) as [Hz|Hnz].
  - destruct (File_Write_returns f p w) as (n & e & w1 & Hw & _).
    erewrite !bind_Ret by exact Hw. cbv beta iota.
    apply Writer_Write_loop_empty. cbn [wr_buf].
    unfold Buffered in Hz. destruct (wr_buf b); [reflexivity|cbn in Hz; lia].
  - cbv zeta.
    match goal with
    | |- context [Writer_Flush f ?b0] =>
      destruct (Writer_Flush_returns f b0 w) as (b' & e & w1 & Hw & _)
    end.
    erewrite !bind_Ret by exact Hw. cbv beta iota.
    destruct (Writer_Flush_clears _ _ _ _ _ _ Hw) as [Herr Hemp].
    destruct e as [e|].
    + rewrite !Writer_Write_loop_skip by (right; congruence). reflexivity.
    + apply Writer_Write_loop_empty. now apply Hemp.
Qed.

(** * Further properties *)

(** ** The size parser, byte by byte *)

Lemma lor_below a b k :
  0 < k -> 0 <= a < 2 ^ k -> 0 <= b < 2 ^ k -> 0 <= Z.lor a b < 2 ^ k.
Proof.
  intros Hk Ha Hb.
  assert (H0 : 0 <= Z.lor a b) by (apply Z.lor_nonneg; lia).
  split; [assumption|].
  destruct (Z.eq_dec (Z.lor a b) 0) as [->|Hnz]; [apply Z.pow_pos_nonneg; lia|].
  apply Z.log2_lt_pow2; [lia|]. rewrite Z.log2_lor by lia.
  assert (Hl : forall x, 0 <= x < 2 ^ k -> Z.log2 x < k).
  { intros x Hx. destruct (Z.eq_dec x 0) as [->|]; [cbn; lia|].
    apply Z.log2_lt_pow2; lia. }
  pose proof (Hl a Ha). pose proof (Hl b Hb). lia.
Qed.

Lemma lor_above a b k :
  0 <= k -> 2 ^ k <= a -> 0 <= b -> 2 ^ k <= Z.lor a b.
Proof.
  intros Hk Ha Hb.
  assert (0 < 2 ^ k) by (apply Z.pow_pos_nonneg; lia).
  assert (H0 : 0 <= Z.lor a b) by (apply Z.lor_nonneg; lia).
  assert (Hl : k <= Z.log2 (Z.lor a b)).
  { rewrite Z.log2_lor by lia. apply Z.log2_le_pow2 in Ha; lia. }
  destruct (Z.eq_dec (Z.lor a b) 0) as [Hz|Hnz].
  - rewrite Hz in Hl. cbn in Hl. assert (k = 0) as -> by lia.
    apply Z.lor_eq_0_iff in Hz. lia.
  - apply Z.log2_le_pow2; lia.
Qed.

Lemma low6_range b : 0 <= Utf8.low6 b < 64.
Proof.
  unfold Utf8.low6. change 0x3F with (Z.ones 6).
  rewrite Z.land_ones by lia. apply Z.mod_pos_bound. lia.
Qed.

Lemma low6_high lo b : 0 <= lo < 64 -> 128 + lo <= b <= 0xBF -> lo <= Utf8.low6 b.
Proof.
  intros Hlo Hb. unfold Utf8.low6. change 0x3F with (Z.ones 6).
  rewrite Z.land_ones by lia. Z.to_euclidean_division_equations. lia.
Qed.

Lemma head_bits n k b lo :
  0 <= n -> 0 <= k -> 0 <= b -> 1 <= lo -> lo <= b mod 2 ^ n ->
  2 ^ k <= Z.shiftl (Z.land b (Z.ones n)) k < 2 ^ (n + k).
Proof.
  intros Hn Hk Hb Hlo Hmod. rewrite Z.land_ones, Z.shiftl_mul_pow2 by lia.
  pose proof (Z.mod_pos_bound b (2 ^ n) ltac:(apply Z.pow_pos_nonneg; lia)).
  assert (0 < 2 ^ k) by (apply Z.pow_pos_nonneg; lia).
  rewrite Z.pow_add_r by lia. nia.
Qed.

Lemma shiftl_low6 b k :
  0 <= k -> 0 <= Z.shiftl (Utf8.low6 b) k < 2 ^ (6 + k).
Proof.
  intros Hk. pose proof (low6_range b) as Hr.
  rewrite Z.shiftl_mul_pow2, Z.pow_add_r by lia.
  assert (0 < 2 ^ k) by (apply Z.pow_pos_nonneg; lia).
  change (2 ^ 6) with 64. nia.
Qed.

Lemma shiftl_low6_high b k lo :
  0 <= k -> 1 <= lo -> lo <= Utf8.low6 b -> 2 ^ 6 <= Z.shiftl (Utf8.low6 b) (6 + k).
Proof.
  intros Hk Hlo Hb. rewrite Z.shiftl_mul_pow2, Z.pow_add_r by lia.
  assert (0 < 2 ^ k) by (apply Z.pow_pos_nonneg; lia).
  change (2 ^ 6) with 64. nia.
Qed.

Lemma two_bytes b0 b1 :
  0xC2 <= b0 <= 0xDF ->
  57 < Z.lor (Z.shiftl (Z.land b0 0x1F) 6) (Utf8.low6 b1) < 2 ^ 31.
Proof.
  intros Hb0. pose proof (low6_range b1) as Hr1.
  assert (Hh : 2 ^ 6 <= Z.shiftl (Z.land b0 (Z.ones 5)) 6 < 2 ^ (5 + 6)).
  { apply (head_bits 5 6 b0 2); try lia.
    change (2 ^ 5) with 32. Z.to_euclidean_division_equations. lia. }
  change (Z.ones 5) with 0x1F in Hh.
  pose proof (lor_above _ (Utf8.low6 b1) 6 ltac:(lia) (proj1 Hh) ltac:(lia)) as Hlo.
  pose proof (lor_below (Z.shiftl (Z.land b0 0x1F) 6) (Utf8.low6 b1) 31
                ltac:(lia) ltac:(change (2 ^ (5 + 6)) with 2048 in Hh; lia)
                ltac:(lia)) as Hup.
  change (2 ^ 6) with 64 in Hlo. lia.
Qed.

Lemma three_bytes b0 b1 b2 :
  0xE0 <= b0 <= 0xEF -> (if b0 =? 0xE0 then 0xA0 else 0x80) <= b1 <= 0xBF ->
  57 < Z.lor (Z.shiftl (Z.land b0 0x0F) 12)
         (Z.lor (Z.shiftl (Utf8.low6 b1) 6) (Utf8.low6 b2)) < 2 ^ 31.
Proof.
  intros Hb0 Hb1. pose proof (low6_range b2) as Hr2.
  pose proof (shiftl_low6 b1 6 ltac:(lia)) as Hmid.
  change (2 ^ (6 + 6)) with 4096 in Hmid.
  assert (Hhead : 0 <= Z.shiftl (Z.land b0 0x0F) 12 < 2 ^ 16).
  { change 0x0F with (Z.ones 4). rewrite Z.land_ones, Z.shiftl_mul_pow2 by lia.
    change (2 ^ 4) with 16. change (2 ^ 12) with 4096. change (2 ^ 16) with 65536.
    Z.to_euclidean_division_equations. lia. }
  pose proof (lor_below _ (Utf8.low6 b2) 12 ltac:(lia) Hmid ltac:(lia)) as Hin.
  pose proof (lor_below (Z.shiftl (Z.land b0 0x0F) 12)
                (Z.lor (Z.shiftl (Utf8.low6 b1) 6) (Utf8.low6 b2)) 31
                ltac:(lia) ltac:(lia) ltac:(lia)) as Hup.
  split; [|lia].
  destruct (Z.eqb_spec b0 0xE0) as [->|Hne].
  - assert (Hl1 : 32 <= Utf8.low6 b1) by (apply low6_high; lia).
    pose proof (shiftl_low6_high b1 0 32 ltac:(lia) ltac:(lia) Hl1) as H6.
    change (6 + 0) with 6 in H6.
    pose proof (lor_above _ (Utf8.low6 b2) 6 ltac:(lia) H6 ltac:(lia)) as H7.
    rewrite Z.lor_comm.
    pose proof (lor_above _ (Z.shiftl (Z.land 0xE0 0x0F) 12) 6
                  ltac:(lia) H7 ltac:(lia)) as H8.
    change (2 ^ 6) with 64 in H8. lia.
  - assert (H6 : 2 ^ 6 <= Z.shiftl (Z.land b0 0x0F) 12).
    { change 0x0F with (Z.ones 4). rewrite Z.land_ones, Z.shiftl_mul_pow2 by lia.
      change (2 ^ 4) with 16. change (2 ^ 12) with 4096. change (2 ^ 6) with 64.
      Z.to_euclidean_division_equations. lia. }
    pose proof (lor_above _ (Z.lor (Z.shiftl (Utf8.low6 b1) 6) (Utf8.low6 b2)) 6
                  ltac:(lia) H6 ltac:(lia)) as H7.
    change (2 ^ 6) with 64 in H7. lia.
Qed.

Lemma four_bytes b0 b1 b2 b3 :
  0xF0 <= b0 <= 0xF4 -> (if b0 =? 0xF0 then 0x90 else 0x80) <= b1 <= 0xBF ->
  57 < Z.lor (Z.shiftl (Z.land b0 0x07) 18)
         (Z.lor (Z.shiftl (Utf8.low6 b1) 12)
            (Z.lor (Z.shiftl (Utf8.low6 b2) 6) (Utf8.low6 b3))) < 2 ^ 31.
Proof.
  intros Hb0 Hb1. pose proof (low6_range b3) as Hr3.
  pose proof (shiftl_low6 b1 12 ltac:(lia)) as Hs1.
  pose proof (shiftl_low6 b2 6 ltac:(lia)) as Hs2.
  change (2 ^ (6 + 12)) with (2 ^ 18) in Hs1.
  change (2 ^ (6 + 6)) with (2 ^ 12) in Hs2.
  assert (Hhead : 0 <= Z.shiftl (Z.land b0 0x07) 18 < 2 ^ 21).
  { change 0x07 with (Z.ones 3). rewrite Z.land_ones, Z.shiftl_mul_pow2 by lia.
    change (2 ^ 3) with 8. change (2 ^ 18) with 262144.
    change (2 ^ 21) with 2097152.
    Z.to_euclidean_division_equations. lia. }
  assert (Hp1 : 2 ^ 12 < 2 ^ 18) by reflexivity.
  assert (Hp2 : 2 ^ 18 < 2 ^ 21) by reflexivity.
  assert (Hp3 : 2 ^ 21 < 2 ^ 31) by reflexivity.
  assert (Hp4 : 64 < 2 ^ 12) by reflexivity.
  assert (Hin : 0 <= Z.lor (Z.shiftl (Utf8.low6 b2) 6) (Utf8.low6 b3) < 2 ^ 12)
    by (apply lor_below; lia).
  assert (Hmid : 0 <= Z.lor (Z.shiftl (Utf8.low6 b1) 12)
                        (Z.lor (Z.shiftl (Utf8.low6 b2) 6) (Utf8.low6 b3))
                 < 2 ^ 18) by (apply lor_below; lia).
  assert (Hup : 0 <= Z.lor (Z.shiftl (Z.land b0 0x07) 18)
                       (Z.lor (Z.shiftl (Utf8.low6 b1) 12)
                          (Z.lor (Z.shiftl (Utf8.low6 b2) 6) (Utf8.low6 b3)))
                < 2 ^ 31) by (apply lor_below; lia).
  split; [|lia].
  destruct (Z.eqb_spec b0 0xF0) as [->|Hne].
  - assert (Hl1 : 16 <= Utf8.low6 b1) by (apply low6_high; lia).
    pose proof (shiftl_low6_high b1 6 16 ltac:(lia) ltac:(lia) Hl1) as H6.
    change (6 + 6) with 12 in H6.
    pose proof (lor_above _ (Z.lor (Z.shiftl (Utf8.low6 b2) 6) (Utf8.low6 b3)) 6
                  ltac:(lia) H6 ltac:(lia)) as H7.
    rewrite Z.lor_comm.
    pose proof (lor_above _ (Z.shiftl (Z.land 0xF0 0x07) 18) 6
                  ltac:(lia) H7 ltac:(lia)) as H8.
    change (2 ^ 6) with 64 in H8. lia.
  - assert (H6 : 2 ^ 6 <= Z.shiftl (Z.land b0 0x07) 18).
    { change 0x07 with (Z.ones 3). rewrite Z.land_ones, Z.shiftl_mul_pow2 by lia.
      change (2 ^ 3) with 8. change (2 ^ 18) with 262144. change (2 ^ 6) with 64.
      Z.to_euclidean_division_equations. lia. }
    pose proof (lor_above _ (Z.lor (Z.shiftl (Utf8.low6 b1) 12)
                               (Z.lor (Z.shiftl (Utf8.low6 b2) 6) (Utf8.low6 b3))) 6
                  ltac:(lia) H6 ltac:(lia)) as H7.
    change (2 ^ 6) with 64 in H7. lia.
Qed.

Lemma decodeRune_high b0 t :
  0x80 <= b0 ->
  57 < fst (Utf8.decodeRune (b0 :: t)) < 2 ^ 31.
Proof.
  intros Hb0. unfold Utf8.decodeRune, Utf8.RuneError.
  destruct (Z.ltb_spec b0 0x80); [lia|].
  assert (Herr : 57 < fst (0xFFFD, 1%nat) < 2 ^ 31) by (cbn; lia).
  destruct (Utf8.between 0xC2 0xDF b0) eqn:H2.
  { apply andb_prop in H2 as [Ha Hb]. apply Z.leb_le in Ha, Hb.
    destruct t as [|b1 t]; [exact Herr|].
    destruct (Utf8.cont b1); [|exact Herr]. cbn [fst]. apply two_bytes. lia. }
  destruct (Utf8.between 0xE0 0xEF b0) eqn:H3.
  { apply andb_prop in H3 as [Ha Hb]. apply Z.leb_le in Ha, Hb.
    destruct t as [|b1 [|b2 t]]; try exact Herr.
    cbv zeta.
    destruct (Utf8.between _ _ b1 && Utf8.cont b2) eqn:Hc; [|exact Herr].
    apply andb_prop in Hc as [Hc _]. apply andb_prop in Hc as [Hc1 Hc2].
    apply Z.leb_le in Hc1, Hc2. cbn [fst]. apply three_bytes; [lia|].
    destruct (b0 =? 0xE0), (b0 =? 0xED); lia. }
  destruct (Utf8.between 0xF0 0xF4 b0) eqn:H4; [|exact Herr].
  apply andb_prop in H4 as [Ha Hb]. apply Z.leb_le in Ha, Hb.
  destruct t as [|b1 [|b2 [|b3 t]]]; try exact Herr.
  cbv zeta.
  destruct (Utf8.between _ _ b1 && Utf8.cont b2 && Utf8.cont b3) eqn:Hc;
    [|exact Herr].
  apply andb_prop in Hc as [Hc _]. apply andb_prop in Hc as [Hc _].
  apply andb_prop in Hc as [Hc1 Hc2].
  apply Z.leb_le in Hc1, Hc2. cbn [fst]. apply four_bytes; [lia|].
  destruct (b0 =? 0xF0), (b0 =? 0xF4); lia.
Qed.

Lemma byte_val_nonneg c : 0 <= byte_val c.
Proof. unfold byte_val. lia. Qed.

Lemma stringToInt_loop_low s n :
  at_most_nine s ->
  stringToInt_loop (map byte_val (bytes_of s)) (u64 n)
  = (u64 (numeral_value_from n s), None).
Proof.
  unfold at_most_nine. revert n.
  induction s as [|c s IH]; intros n Hs;
    cbn [bytes_of list_ascii_of_string map stringToInt_loop numeral_value_from].
  - reflexivity.
  - fold (bytes_of s) in *. apply Forall_cons in Hs as [Hc Hs].
    change (byte_val "0") with 48. change (byte_val "9") with 57 in Hc.
    fold (digit_value c). pose proof (byte_val_nonneg c).
    unfold digit_value in *. rewrite i32_small by lia.
    destruct (Z.ltb_spec 9 (byte_val c - 48)); [lia|].
    rewrite u64_step. now apply IH.
Qed.

Lemma runes_low s :
  at_most_nine s -> Utf8.runes s = map byte_val (bytes_of s).
Proof.
  intros Hs. unfold Utf8.runes. apply runes_go_ascii; [|lia].
  apply Forall_map. eapply Forall_impl; [exact Hs|].
  cbn. intros c Hc. change (byte_val "9") with 57 in Hc. lia.
Qed.

Lemma stringToInt_loop_rejects bs k n :
  Forall (fun b => 0 <= b) bs -> Exists (fun b => 57 < b) bs ->
  (length bs <= k)%nat ->
  exists n', stringToInt_loop (Utf8.runes_go k bs) n = (n', Some (errors_New "")).
Proof.
  revert k n. induction bs as [|b bs IH]; intros k n Hpos Hex Hk.
  { inversion Hex. }
  destruct k as [|k]; [cbn [length] in Hk; lia|].
  apply Forall_cons in Hpos as [Hb Hpos].
  cbn [Utf8.runes_go].
  destruct (Z_lt_ge_dec b 0x80) as [Hlow|Hhigh].
  - assert (Hd : Utf8.decodeRune (b :: bs) = (b, 1%nat)).
    { unfold Utf8.decodeRune. destruct (Z.ltb_spec b 0x80); [reflexivity|lia]. }
    rewrite Hd. cbn [drop stringToInt_loop]. change (byte_val "0") with 48.
    rewrite i32_small by lia.
    destruct (Z.ltb_spec 9 (b - 48)); [eauto|].
    apply IH; [assumption| |cbn [length] in Hk; lia].
    apply Exists_cons in Hex as [Hex|Hex]; [lia|assumption].
  - pose proof (decodeRune_high b bs ltac:(lia)) as Hr.
    destruct (Utf8.decodeRune (b :: bs)) as [r w]. cbn [fst] in Hr.
    cbn [stringToInt_loop]. change (byte_val "0") with 48.
    rewrite i32_small by lia.
    destruct (Z.ltb_spec 9 (r - 48)); [eauto|lia].
Qed.

Lemma stringToInt_low s :
  at_most_nine s -> stringToInt s = (u64 (numeral_value s), None).
Proof.
  intros Hs. unfold stringToInt, numeral_value. rewrite runes_low by assumption.
  change 0 with (u64 0) at 1. now apply stringToInt_loop_low.
Qed.

Lemma stringToInt_high s :
  ~ at_most_nine s -> exists n, stringToInt s = (n, Some (errors_New "")).
Proof.
  intros Hno. unfold stringToInt, Utf8.runes.
  apply stringToInt_loop_rejects; [| |lia].
  - apply Forall_map. apply Forall_forall. intros c _. apply byte_val_nonneg.
  - apply Exists_fmap. apply not_Forall_Exists in Hno; [|intros c; apply _].
    eapply Exists_impl; [exact Hno|]. cbn. intros c Hc.
    change (byte_val "9") with 57 in Hc. lia.
Qed.

(** X1: [stringToInt] reports an error exactly for the strings that hold a
    byte above ['9']; bytes below ['0'] and the empty string are accepted,
    and so is no byte of a character outside ASCII. *)
Theorem stringToInt_error_iff (s : string) :
  snd (stringToInt s) <> None <->
  Exists (fun c => byte_val "9" < byte_val c) (bytes_of s).
Proof.
  split.
  - intros Herr.
    destruct (decide (at_most_nine s)) as [Hs|Hno].
    + rewrite (stringToInt_low s Hs) in Herr. now contradiction Herr.
    + apply not_Forall_Exists in Hno; [|intros c; apply _].
      eapply Exists_impl; [exact Hno|]. cbn. intros c Hc. lia.
  - intros Hex. destruct (stringToInt_high s) as [n ->]; [|discriminate].
    intros Hs. apply Exists_exists in Hex as (c & Hin & Hc).
    unfold at_most_nine in Hs. rewrite Forall_forall in Hs.
    specialize (Hs c Hin). cbn in Hs. lia.
Qed.

(** X2: on a string with no byte above ['9'], [stringToInt] returns the
    number the characters spell when each counts as its code minus the
    code of ['0'], reduced modulo 2^64: a character below ['0'] counts as a
    negative digit, so that "-1" parses to 2^64 - 29. *)
Theorem stringToInt_value (s : string) :
  at_most_nine s -> stringToInt s = (u64 (numeral_value s), None).
Proof. apply stringToInt_low. Qed.

Lemma stringToInt_value_witness :
  stringToInt "-1" = (u64 (numeral_value "-1"), None) /\
  u64 (numeral_value "-1") = two64 - 29.
Proof.
  split; [|reflexivity]. apply (stringToInt_value "-1").
  repeat constructor; vm_compute; discriminate.
Defined.

Lemma numeral_value_from_app acc s t :
  numeral_value_from acc (s +:+ t)
  = numeral_value_from (numeral_value_from acc s) t.
Proof.
  revert acc. induction s as [|c s IH]; intros acc;
    rewrite ?append_nil_l, ?append_String; cbn [numeral_value_from];
    [reflexivity|apply IH].
Qed.

Lemma is_numeral_app s t : is_numeral s -> is_numeral t -> is_numeral (s +:+ t).
Proof.
  intros Hs Ht. induction s as [|c s IH];
    rewrite ?append_nil_l, ?append_String; [assumption|].
  cbn [is_numeral] in *. destruct Hs. split; auto.
Qed.

Lemma digit_char_value k :
  0 <= k <= 9 -> is_digit (digit_char k) /\ digit_value (digit_char k) = k.
Proof.
  intros Hk.
  assert (k = 0 \/ k = 1 \/ k = 2 \/ k = 3 \/ k = 4 \/
          k = 5 \/ k = 6 \/ k = 7 \/ k = 8 \/ k = 9) as Hc by lia.
  unfold is_digit.
  repeat (destruct Hc as [-> | Hc]; [vm_compute; intuition congruence|]).
  subst. vm_compute. intuition congruence.
Qed.

(** The numeral of a number is a decimal numeral of that value. *)
Lemma numeral_of_decimal n :
  0 <= n -> is_numeral (decimal n) /\ numeral_value (decimal n) = n.
Proof.
  intros Hn. generalize Hn. pattern n. apply Z_lt_induction; [|assumption].
  clear n Hn. intros n IH Hpos.
  destruct (Z_lt_ge_dec n 10) as [Hlt|Hge].
  - rewrite decimal_small by lia. cbn [is_numeral].
    destruct (digit_char_value n ltac:(lia)) as [Hd Hv].
    unfold numeral_value. cbn [numeral_value_from]. rewrite Hv. tauto.
  - rewrite decimal_step by lia.
    destruct (IH (n / 10)) as [Hnum Hval].
    { split; [apply Z.div_pos; lia|apply Z.div_lt; lia]. }
    { apply Z.div_pos; lia. }
    pose proof (Z.mod_pos_bound n 10 ltac:(lia)) as Hm.
    destruct (digit_char_value (n mod 10) ltac:(lia)) as [Hd Hv].
    split.
    + apply is_numeral_app; [assumption|]. cbn [is_numeral]. tauto.
    + unfold numeral_value in *. rewrite numeral_value_from_app, Hval.
      cbn [numeral_value_from]. rewrite Hv.
      Z.to_euclidean_division_equations. lia.
Qed.

(** X3: printing a size and parsing it gives the size back: the decimal
    numeral of [n] followed by a unit letter parses to [n] times the factor
    of the unit, when that product is below 2^64. *)
Theorem unitConv_decimal (n : Z) (c : ascii) (m : Z) (w : world) :
  0 <= n -> unit_factor c = Some m -> n * m < two64 ->
  unitConv (decimal n +:+ String c "") w = Ret (n * m) w.
Proof.
  intros Hn Hc Hlt. destruct (numeral_of_decimal n Hn) as [Hnum Hval].
  rewrite unitConv_split, stringToInt_numeral, Hc, Hval by assumption.
  rewrite u64_mul_l, u64_small; [reflexivity|].
  split; [|assumption]. apply Z.mul_nonneg_nonneg; [assumption|].
  unfold unit_factor in Hc. repeat case_match; simplify_eq; lia.
Qed.

Lemma unitConv_decimal_witness :
  unitConv (decimal 512 +:+ "k") (demo_world 0 0) = Ret (512 * 1024) (demo_world 0 0).
Proof.
  apply (unitConv_decimal 512 "k"%char 1024 (demo_world 0 0));
    [lia|reflexivity|reflexivity].
Defined.

(** X4: a size string that is not empty is accepted exactly when its last
    character is one of K k M m G g and no byte before it is above ['9'].
    Any other ends the process with code 1 after the line
    [The logfile size <s> is incorrect], without a newline, on the standard
    error stream; [NewLogger] ends the same way and builds no logger. *)
Theorem unitConv_outcomes (p : string) (c : ascii) (w : world) :
  (at_most_nine p /\ is_Some (unit_factor c) ->
   exists n, unitConv (p +:+ String c "") w = Ret n w) /\
  (~ (at_most_nine p /\ is_Some (unit_factor c)) ->
   let failed :=
     set_stderr (stderr w ++ bytes_of ("The logfile size " +:+
                   (p +:+ String c "") +:+ " is incorrect")) w in
   unitConv (p +:+ String c "") w = Exit 1 failed /\
   forall path level flushInterval,
     NewLogger path (p +:+ String c "") level flushInterval w = Exit 1 failed).
Proof.
  assert (Hrej : ~ (at_most_nine p /\ is_Some (unit_factor c)) ->
            unitConv (p +:+ String c "") w
            = Exit 1 (set_stderr (stderr w ++ incorrect_size (p +:+ String c ""))
                        w)).
  { intros Hno. rewrite unitConv_split.
    destruct (decide (at_most_nine p)) as [Hp|Hp].
    - rewrite (stringToInt_low p Hp).
      destruct (unit_factor c) as [m|] eqn:Hc; [|reflexivity].
      exfalso. apply Hno. eauto.
    - destruct (stringToInt_high p Hp) as [n ->]. reflexivity. }
  split.
  - intros [Hp [m Hc]]. rewrite unitConv_split, (stringToInt_low p Hp), Hc. eauto.
  - intros Hno failed. split; [now apply Hrej|].
    intros path level fi. unfold NewLogger.
    erewrite bind_Exit by (apply Hrej; exact Hno). reflexivity.
Qed.

(** ** Room on the device *)

Lemma File_Write_room f p w n e w' :
  File_Write f p w = Ret (n, e) w' ->
  space w' = space w - n /\ 0 <= n <= Z.of_nat (length p) /\
  (e = None -> n = Z.of_nat (length p)).
Proof.
  destruct f as [|path|]; cbn.
  - intros [= <- <- <-]. split; [lia|]. split; [lia|discriminate].
  - intros [= <- <- <-]. cbn. split; [reflexivity|]. split; [lia|].
    destruct (Z.ltb_spec (Z.max 0 (Z.min (Z.of_nat (length p)) (space w)))
                (Z.of_nat (length p))); [discriminate|lia].
  - intros [= <- <- <-]. split; [lia|]. split; [lia|discriminate].
Qed.

(** A flush moves bytes from the buffer to the device: the room that is
    left once the pending bytes are written stays the same. *)
Lemma Writer_Flush_room f b w b' e w' :
  Writer_Flush f b w = Ret (b', e) w' ->
  space w' - Buffered b' = space w - Buffered b.
Proof.
  unfold Writer_Flush. destruct (wr_err b) as [e0|] eqn:Herr.
  { now intros [= <- <- <-]. }
  destruct (Z.eqb_spec (Buffered b) 0) as [Hz|Hnz].
  { now intros [= <- <- <-]. }
  destruct (File_Write f (wr_buf b) w) as [[n e1] w1| |] eqn:Hw;
    [|destruct (File_Write_returns f (wr_buf b) w) as (? & ? & ? & H & _);
      congruence..].
  erewrite bind_Ret by exact Hw. cbv beta iota.
  destruct (File_Write_room _ _ _ _ _ _ Hw) as (Hsp & Hn & Hall).
  fold (Buffered b) in Hn, Hall.
  destruct e1 as [e1|].
  - intros [= <- <- <-]. unfold Buffered in *. cbn [wr_buf].
    rewrite length_drop. lia.
  - specialize (Hall eq_refl). destruct (Z.ltb_spec n (Buffered b)); [lia|].
    intros [= <- <- <-]. unfold Buffered in *. cbn [wr_buf length]. lia.
Qed.

Lemma Writer_Write_loop_error k f p nn b w n b' w' :
  Writer_Write_loop k f p nn b w = Ret (n, None, b') w' -> wr_err b = None.
Proof.
  destruct (wr_err b) as [e|] eqn:Herr; [|reflexivity].
  rewrite Writer_Write_loop_skip by (right; congruence).
  rewrite Writer_Write_end_run, Herr. discriminate.
Qed.

(** A buffered write that succeeds takes the room of [p]. *)
Lemma Writer_Write_loop_room k f p nn b w n b' w' :
  Writer_Write_loop k f p nn b w = Ret (n, None, b') w' ->
  space w' - Buffered b' = space w - Buffered b - Z.of_nat (length p).
Proof.
  revert p nn b w. induction k as [|k IH]; intros p nn b w Hrun.
  { cbn [Writer_Write_loop] in Hrun. rewrite Writer_Write_end_run in Hrun.
    destruct (wr_err b); [discriminate|]. injection Hrun as _ <- <-.
    unfold Buffered. cbn [wr_buf]. rewrite length_app. lia. }
  pose proof (Writer_Write_loop_error _ _ _ _ _ _ _ _ _ Hrun) as Herr.
  destruct (Z_le_gt_dec (Z.of_nat (length p)) (Available b)) as [Hfit|Hbig].
  { rewrite Writer_Write_loop_skip in Hrun by (left; assumption).
    rewrite Writer_Write_end_run, Herr in Hrun. injection Hrun as _ <- <-.
    unfold Buffered. cbn [wr_buf]. rewrite length_app. lia. }
  destruct (Z.eq_dec (Buffered b) 0) as [Hz|Hnz].
  - rewrite Writer_Write_loop_direct in Hrun by (assumption || lia).
    destruct (File_Write f p w) as [[n1 e1] w1| |] eqn:Hw;
      [|destruct (File_Write_returns f p w) as (? & ? & ? & H & _);
        congruence..].
    erewrite bind_Ret in Hrun by exact Hw. cbv beta iota in Hrun.
    pose proof (Writer_Write_loop_error _ _ _ _ _ _ _ _ _ Hrun) as He1.
    cbn [wr_err] in He1. subst e1.
    destruct (File_Write_room _ _ _ _ _ _ Hw) as (Hsp & Hn & Hall).
    specialize (Hall eq_refl). apply IH in Hrun.
    rewrite length_drop in Hrun. unfold Buffered in *. cbn [wr_buf] in Hrun. lia.
  - rewrite Writer_Write_loop_fill in Hrun by (assumption || lia).
    match type of Hrun with
    | context [Writer_Flush f ?b0] =>
      destruct (Writer_Flush f b0 w) as [[b1 e1] w1| |] eqn:Hf;
        [|destruct (Writer_Flush_returns f b0 w) as (? & ? & ? & H & _);
          congruence..]
    end.
    erewrite bind_Ret in Hrun by exact Hf. cbv beta iota in Hrun.
    apply Writer_Flush_room in Hf. apply IH in Hrun.
    rewrite length_drop in Hrun. unfold Available, Buffered in *.
    cbn [wr_buf] in Hf. rewrite length_app, length_take in Hf. lia.
Qed.

(** ** Properties every operation keeps *)

Lemma hoare_ret {A} (P : world -> Prop) (Q : A -> world -> Prop) E a :
  (forall w, P w -> Q a w) -> hoare P (ret a) Q E.
Proof. intros H w Hw. now apply H. Qed.

Lemma hoare_bind {A B} P (m : M A) Q (f : A -> M B) R E :
  hoare P m Q E -> (forall a, hoare (Q a) (f a) R E) ->
  hoare P (bind m f) R E.
Proof.
  intros Hm Hf w Hw. specialize (Hm w Hw). unfold bind.
  destruct (m w) as [a w1|c w1|w1]; [|assumption..].
  now apply Hf.
Qed.

Lemma hoare_weaken {A} (P P' : world -> Prop) (m : M A)
    (Q Q' : A -> world -> Prop) (E E' : world -> Prop) :
  hoare P m Q E -> (forall w, P' w -> P w) ->
  (forall a w, Q a w -> Q' a w) -> (forall w, E w -> E' w) ->
  hoare P' m Q' E'.
Proof.
  intros Hm HP HQ HE w Hw. specialize (Hm w (HP w Hw)).
  destruct (m w); auto.
Qed.

Lemma keeps_ret {A} I E (a : A) : keeps I E (ret a).
Proof. now apply hoare_ret. Qed.

Lemma keeps_bind {A B} I E (m : M A) (f : A -> M B) :
  keeps I E m -> (forall a, keeps I E (f a)) -> keeps I E (bind m f).
Proof. intros Hm Hf. eapply hoare_bind; [exact Hm|exact Hf]. Qed.

Lemma keeps_get I E : keeps I E get.
Proof. intros w Hw. exact Hw. Qed.

Lemma keeps_modify I E (f : world -> world) :
  (forall w, I w -> I (f w)) -> keeps I E (modify f).
Proof. intros H w Hw. now apply H. Qed.

Lemma keeps_checked {A} (I E : world -> Prop) (o : option A) :
  (forall w, I w -> E w) -> keeps I E (checked o).
Proof. intros H w Hw. destruct o; cbn; auto. Qed.

(** Properties of the world that the file system, the free space, the
    clock ticks and the sink of the logger do not bear on are kept by
    every operation of the sink. *)
Section Sink.

Variable J : world -> Prop.
Hypothesis J_disk : forall d w, J w -> J (set_disk d w).
Hypothesis J_space : forall n w, J w -> J (set_space n w).
Hypothesis J_ticks : forall n w, J w -> J (set_ticks n w).
Hypothesis J_sink : forall f w, J w -> J (set_lg (set_l_file f (lg w)) w).

Lemma keeps_File_Write f p : keeps J J (File_Write f p).
Proof.
  intros w Hw. destruct f; cbn; auto.
Qed.

Lemma keeps_Writer_Flush f b : keeps J J (Writer_Flush f b).
Proof.
  unfold Writer_Flush. destruct (wr_err b); [apply keeps_ret|].
  destruct (Buffered b =? 0); [apply keeps_ret|].
  apply keeps_bind; [apply keeps_File_Write|].
  intros [n e]. destruct e; [apply keeps_ret|].
  destruct (n <? Buffered b); apply keeps_ret.
Qed.

Lemma keeps_Writer_Write_end p nn b : keeps J J (Writer_Write_end p nn b).
Proof. unfold Writer_Write_end. destruct (wr_err b); apply keeps_ret. Qed.

Lemma keeps_Writer_Write_loop k f p nn b :
  keeps J J (Writer_Write_loop k f p nn b).
Proof.
  revert p nn b. induction k as [|k IH]; intros p nn b;
    cbn [Writer_Write_loop]; [apply keeps_Writer_Write_end|].
  destruct (_ && _); [|apply keeps_Writer_Write_end].
  destruct (Buffered b =? 0).
  - apply keeps_bind; [apply keeps_File_Write|]. intros [n e]. apply IH.
  - apply keeps_bind; [apply keeps_Writer_Flush|]. intros [b' e]. apply IH.
Qed.

Lemma keeps_the_sink : keeps J J the_sink.
Proof. intros w Hw. unfold the_sink. now destruct (l_file (lg w)). Qed.

Lemma keeps_put_sink sb : keeps J J (put_sink sb).
Proof. apply keeps_modify. intros w. apply J_sink. Qed.

Lemma keeps_sb_Flush : keeps J J sb_Flush.
Proof.
  unfold sb_Flush. apply keeps_bind; [apply keeps_the_sink|]. intros sb.
  apply keeps_bind; [apply keeps_Writer_Flush|]. intros [b e].
  apply keeps_bind; [apply keeps_put_sink|]. intros _. apply keeps_ret.
Qed.

Lemma keeps_sb_Sync : keeps J J sb_Sync.
Proof.
  unfold sb_Sync. apply keeps_bind; [apply keeps_the_sink|]. intros sb.
  destruct (sb_file sb); apply keeps_ret.
Qed.

Lemma keeps_flushAll : keeps J J flushAll.
Proof.
  unfold flushAll. apply keeps_bind; [apply keeps_get|]. intros w.
  destruct (l_file (lg w)); [|apply keeps_ret].
  apply keeps_bind; [apply keeps_sb_Flush|]. intros _.
  apply keeps_bind; [apply keeps_sb_Sync|]. intros _. apply keeps_ret.
Qed.

Lemma keeps_time_Now : keeps J J time_Now.
Proof. intros w Hw. cbn. now apply J_ticks. Qed.

Lemma keeps_os_Create name : keeps J J (os_Create name).
Proof.
  intros w Hw. unfold os_Create. destruct (decide _); [assumption|].
  now apply J_disk.
Qed.

Lemma keeps_os_Rename old new : keeps J J (os_Rename old new).
Proof.
  intros w Hw. unfold os_Rename. destruct (disk w !! old); [|assumption].
  destruct (decide _); [assumption|]. now apply J_disk.
Qed.

Lemma keeps_create : keeps J J create.
Proof.
  unfold create. apply keeps_bind; [apply keeps_get|]. intros w.
  apply keeps_bind; [apply keeps_os_Create|]. intros [f e].
  destruct e.
  - apply keeps_bind; [|intros _; apply keeps_ret].
    apply keeps_modify. intros w'. apply J_sink.
  - apply keeps_bind; [apply keeps_put_sink|]. intros _. apply keeps_ret.
Qed.

Lemma keeps_rotateFile now : keeps J J (rotateFile now).
Proof.
  unfold rotateFile. apply keeps_bind; [apply keeps_sb_Flush|]. intros _.
  apply keeps_bind; [apply keeps_the_sink|]. intros sb.
  apply keeps_bind; [apply keeps_put_sink|]. intros _.
  apply keeps_bind; [apply keeps_get|]. intros w. cbv zeta.
  apply keeps_bind; [apply keeps_os_Rename|]. intros [e|];
    [apply keeps_ret|apply keeps_create].
Qed.

End Sink.

(** With them, a property [I] that [exit] turns into [E]. *)
Section Write.

Variables I E : world -> Prop.
Hypothesis I_disk : forall d w, I w -> I (set_disk d w).
Hypothesis I_space : forall n w, I w -> I (set_space n w).
Hypothesis I_ticks : forall n w, I w -> I (set_ticks n w).
Hypothesis I_sink : forall f w, I w -> I (set_lg (set_l_file f (lg w)) w).
Hypothesis E_disk : forall d w, E w -> E (set_disk d w).
Hypothesis E_space : forall n w, E w -> E (set_space n w).
Hypothesis E_ticks : forall n w, E w -> E (set_ticks n w).
Hypothesis E_sink : forall f w, E w -> E (set_lg (set_l_file f (lg w)) w).
Hypothesis E_stderr : forall e w, E w -> E (set_stderr e w).
Hypothesis I_E : forall w, I w -> E w.

Lemma ends_exit {A} err : hoare E (@exit A err) (fun _ _ => False) E.
Proof.
  unfold exit.
  eapply hoare_bind with (Q := fun _ => E).
  { intros w Hw. cbn. now apply E_stderr. }
  intros _. eapply hoare_bind with (Q := fun _ => E).
  { apply (keeps_flushAll E); assumption. }
  intros _ w Hw. exact Hw.
Qed.

Lemma keeps_exit {A} err : keeps I E (@exit A err).
Proof.
  eapply hoare_weaken; [apply ends_exit|auto|contradiction|auto].
Qed.

Lemma sink_keeps {A} (m : M A) : keeps I I m -> keeps I E m.
Proof. intros H. eapply hoare_weaken; [exact H|auto..]. Qed.

Lemma keeps_sb_Write p : keeps I E (sb_Write p).
Proof.
  unfold sb_Write.
  apply keeps_bind; [apply sink_keeps, keeps_the_sink|]. intros sb.
  apply keeps_bind; [apply keeps_get|]. intros w0.
  apply keeps_bind.
  { destruct (_ <=? _); [|apply keeps_ret].
    apply keeps_bind; [apply sink_keeps, keeps_time_Now; assumption|].
    intros now.
    apply keeps_bind; [apply sink_keeps, keeps_rotateFile; assumption|].
    intros [e|]; [apply keeps_exit|apply keeps_ret]. }
  intros _. apply keeps_bind; [apply sink_keeps, keeps_the_sink|]. intros sb'.
  apply keeps_bind;
    [apply sink_keeps, keeps_Writer_Write_loop; assumption|].
  intros [[n e] b].
  apply keeps_bind; [apply sink_keeps, keeps_put_sink; assumption|].
  intros _. destruct e; [apply keeps_exit|apply keeps_ret].
Qed.

Lemma keeps_Flush : keeps I E Flush.
Proof. apply sink_keeps, keeps_flushAll; assumption. Qed.

(** and that the pool of buffers does not bear on either. *)
Hypothesis I_pool : forall p w, I w -> I (set_pool p w).

Lemma keeps_formatHeader s file line : keeps I E (formatHeader s file line).
Proof.
  unfold formatHeader.
  apply keeps_bind; [apply sink_keeps, keeps_time_Now; assumption|].
  intros now. cbv zeta.
  apply keeps_bind.
  { intros w Hw. unfold getBuffer. destruct (pool w); [assumption|].
    now apply I_pool. }
  intros buf. now apply keeps_checked.
Qed.

Lemma keeps_header s depth : keeps I E (header s depth).
Proof.
  unfold header. apply keeps_bind; [apply keeps_get|]. intros w.
  apply keeps_bind.
  { destruct (callers w _) as [[file line]|]; [|apply keeps_ret].
    cbv zeta. destruct (0 <=? _); [|apply keeps_ret].
    apply keeps_bind; [now apply keeps_checked|]. intros f. apply keeps_ret. }
  intros [file line].
  apply keeps_bind; [apply keeps_formatHeader|]. intros buf. apply keeps_ret.
Qed.

Lemma keeps_output buf file line : keeps I E (output buf file line).
Proof.
  unfold output. cbv zeta. apply keeps_bind; [apply keeps_get|]. intros w.
  apply keeps_bind.
  { destruct (l_file (lg w)); [apply keeps_ret|].
    apply keeps_bind; [apply sink_keeps, keeps_create; assumption|].
    intros [e|]; [|apply keeps_ret].
    eapply hoare_bind with (Q := fun _ => E).
    - intros w1 Hw1. cbn. now apply E_stderr, I_E.
    - intros _. eapply hoare_weaken; [apply ends_exit|auto|contradiction|auto]. }
  intros _. apply keeps_bind; [apply keeps_sb_Write|]. intros _.
  apply keeps_modify. intros w1. apply I_pool.
Qed.

Lemma keeps_log_call st s text : keeps I E (log_call st s text).
Proof.
  assert (Hgo : forall depth,
            keeps I E (let* '(buf, file, line) := header s depth in
                       let buf := Fprint text buf in
                       let* buf := end_line buf in
                       output buf file line)).
  { intros depth. apply keeps_bind; [apply keeps_header|].
    intros [[buf file] line]. cbv zeta.
    apply keeps_bind; [|intros b; apply keeps_output].
    unfold end_line. apply keeps_bind; [now apply keeps_checked|].
    intros c. destruct (bool_decide _); apply keeps_ret. }
  destruct st; apply Hgo.
Qed.

Lemma keeps_println s text : keeps I E (println s text).
Proof.
  unfold println. apply keeps_bind; [apply keeps_header|].
  intros [[buf file] line]. cbv zeta. apply keeps_output.
Qed.

Lemma keeps_emit S st text : keeps I E (emit S st text).
Proof.
  intros w Hw. rewrite emit_unfold.
  destruct (logLevel (lg w) <=? level_of S); [|exact Hw].
  destruct S; try (now apply keeps_log_call).
  revert w Hw. apply keeps_bind; [apply keeps_log_call|].
  intros _. apply keeps_exit.
Qed.

End Write.

(** X5: nothing is written to the standard error stream by a call that
    returns, whatever the device and the sink do: the emit operations,
    [Flush] and the write of the sink write there only on the way to
    [os.Exit]. *)
Theorem stderr_only_on_exit (w : world) :
  (forall S st text w', emit S st text w = Ret tt w' -> stderr w' = stderr w) /\
  (forall w', Flush w = Ret tt w' -> stderr w' = stderr w) /\
  (forall p r w', sb_Write p w = Ret r w' -> stderr w' = stderr w).
Proof.
  set (I := fun w' : world => stderr w' = stderr w).
  set (E := fun _ : world => True).
  split; [|split].
  - intros S st text w' Hrun.
    assert (Hk : keeps I E (emit S st text)) by (apply keeps_emit; unfold I, E; cbn; auto).
    specialize (Hk w eq_refl). now rewrite Hrun in Hk.
  - intros w' Hrun.
    assert (Hk : keeps I E Flush) by (apply keeps_Flush; unfold I, E; cbn; auto).
    specialize (Hk w eq_refl). now rewrite Hrun in Hk.
  - intros p r w' Hrun.
    assert (Hk : keeps I E (sb_Write p)) by (apply keeps_sb_Write; unfold I, E; cbn; auto).
    specialize (Hk w eq_refl). now rewrite Hrun in Hk.
Qed.

(** X6: neither an emit operation nor [Flush] nor a write of the sink
    changes the log path, the level or the maximal size of the logger,
    however the call ends. *)
Theorem logging_keeps_configuration (w : world) :
  let unchanged (w' : world) :=
    logPath (lg w') = logPath (lg w) /\ logLevel (lg w') = logLevel (lg w) /\
    fileMaxSize (lg w') = fileMaxSize (lg w) in
  (forall S st text, unchanged (world_of (emit S st text w))) /\
  unchanged (world_of (Flush w)) /\
  (forall p, unchanged (world_of (sb_Write p w))).
Proof.
  intros I.
  assert (Hw : forall {A} (m : M A), keeps I I m -> I (world_of (m w))).
  { intros A m Hk. specialize (Hk w). unfold I at 1 in Hk.
    specialize (Hk ltac:(auto)). now destruct (m w). }
  split; [|split].
  - intros S st text. apply Hw. apply keeps_emit; unfold I; cbn; auto.
  - apply Hw. apply keeps_Flush; unfold I; cbn; auto.
  - intros p. apply Hw. apply keeps_sb_Write; unfold I; cbn; auto.
Qed.

(** ** The scratch array keeps its length *)

Lemma tmp_set_length i c buf buf' :
  tmp_set i c buf = Some buf' -> length (tmp buf') = length (tmp buf).
Proof.
  unfold tmp_set. destruct (_ && _); [|discriminate].
  intros [= <-]. cbn [tmp]. apply length_insert.
Qed.

Lemma twoDigits_length i d buf buf' :
  twoDigits i d buf = Some buf' -> length (tmp buf') = length (tmp buf).
Proof.
  unfold twoDigits. intros H.
  destruct (digit d) as [c|]; cbn [mbind option_bind] in H; [|discriminate].
  destruct (tmp_set (i + 1) c buf) as [b1|] eqn:H1;
    cbn [mbind option_bind] in H; [|discriminate].
  cbv zeta in H.
  destruct (digit (Z.quot d 10)) as [c'|]; cbn [mbind option_bind] in H;
    [|discriminate].
  apply tmp_set_length in H, H1. congruence.
Qed.

Lemma nDigits_fill_length k i d buf k' buf' :
  nDigits_fill k i d buf = Some (k', buf') ->
  length (tmp buf') = length (tmp buf).
Proof.
  revert d buf. induction k as [|k IH]; intros d buf; cbn [nDigits_fill].
  - now intros [= _ <-].
  - destruct (0 <? d); [|now intros [= _ <-]].
    destruct (digit d) as [c|]; cbn [mbind option_bind]; [|discriminate].
    destruct (tmp_set (i + Z.of_nat k) c buf) as [b1|] eqn:H1;
      cbn [mbind option_bind]; [|discriminate].
    intros H. apply IH in H. apply tmp_set_length in H1. congruence.
Qed.

Lemma nDigits_pad_length k i pad buf buf' :
  nDigits_pad k i pad buf = Some buf' -> length (tmp buf') = length (tmp buf).
Proof.
  revert buf. induction k as [|k IH]; intros buf; cbn [nDigits_pad].
  - now intros [= <-].
  - destruct (tmp_set (i + Z.of_nat k) pad buf) as [b1|] eqn:H1;
      cbn [mbind option_bind]; [|discriminate].
    intros H. apply IH in H. apply tmp_set_length in H1. congruence.
Qed.

Lemma nDigits_length n i d pad buf buf' :
  nDigits n i d pad buf = Some buf' -> length (tmp buf') = length (tmp buf).
Proof.
  unfold nDigits.
  destruct (nDigits_fill (Z.to_nat n) i d buf) as [[k b1]|] eqn:H1;
    cbn [mbind option_bind]; [|discriminate].
  intros H. apply nDigits_pad_length in H. apply nDigits_fill_length in H1.
  congruence.
Qed.

Lemma someDigits_loop_length j d buf j' buf' :
  someDigits_loop j d buf = Some (j', buf') ->
  length (tmp buf') = length (tmp buf).
Proof.
  revert d buf. induction j as [|j IH]; intros d buf; cbn [someDigits_loop];
    [discriminate|].
  destruct (digit d) as [c|]; cbn [mbind option_bind]; [|discriminate].
  destruct (tmp_set (Z.of_nat j) c buf) as [b1|] eqn:H1;
    cbn [mbind option_bind]; [|discriminate].
  cbv zeta. apply tmp_set_length in H1.
  destruct (Z.quot d 10 =? 0).
  - intros [= _ <-]. exact H1.
  - intros H. apply IH in H. congruence.
Qed.

Lemma copy_tmp_length i j buf n buf' :
  copy_tmp i j buf = Some (n, buf') -> length (tmp buf') = length (tmp buf).
Proof.
  unfold copy_tmp. destruct (_ && _) eqn:Hi; [|discriminate].
  apply andb_prop in Hi as [H0 H1]. apply Z.leb_le in H0, H1.
  intros [= _ <-]. cbn [tmp].
  repeat rewrite ?length_app, ?length_take, ?length_drop. lia.
Qed.

Lemma someDigits_length i d buf n buf' :
  someDigits i d buf = Some (n, buf') -> length (tmp buf') = length (tmp buf).
Proof.
  unfold someDigits.
  destruct (someDigits_loop (length (tmp buf)) d buf) as [[j b1]|] eqn:H1;
    cbn [mbind option_bind]; [|discriminate].
  intros H. apply copy_tmp_length in H. apply someDigits_loop_length in H1.
  congruence.
Qed.

Lemma Write_tmp_length k buf buf' :
  Write_tmp k buf = Some buf' -> length (tmp buf') = length (tmp buf).
Proof.
  unfold Write_tmp. destruct (_ && _); [|discriminate]. now intros [= <-].
Qed.

Ltac length_step H :=
  match type of H with
  | (?o ≫= _) = Some _ =>
    let b := fresh "b" in
    let Hb := fresh "Hb" in
    destruct o as [b|] eqn:Hb; cbn [mbind option_bind] in H; [|discriminate];
    first [ apply tmp_set_length in Hb | apply twoDigits_length in Hb
          | apply nDigits_length in Hb | apply Write_tmp_length in Hb
          | idtac ]
  end.

Lemma header_tail_length line buf buf' :
  header_tail line buf = Some buf' -> length (tmp buf') = length (tmp buf).
Proof.
  unfold header_tail. intros H. length_step H.
  destruct (someDigits 1 line b) as [[n b1]|] eqn:H1;
    cbn [mbind option_bind] in H; [|discriminate].
  apply someDigits_length in H1.
  do 2 length_step H. apply Write_tmp_length in H. congruence.
Qed.

Lemma header_fill_length s now file line buf buf' :
  header_fill s now file line buf = Some buf' ->
  length (tmp buf') = length (tmp buf).
Proof.
  unfold header_fill. intros H.
  destruct (str_index severityChar s) as [c|]; cbn [mbind option_bind] in H;
    [|discriminate].
  do 16 length_step H.
  apply header_tail_length in H. cbn [WriteString tmp] in H. congruence.
Qed.

(** ** The pool holds reset buffers *)

Lemma wf_new_buffer : wf_buffer new_buffer.
Proof. split; reflexivity. Qed.

Lemma pool_reset_next w : pool_reset w -> wf_buffer (next_buffer w).
Proof.
  unfold pool_reset, next_buffer. destruct (pool w) as [|b rest].
  - intros _. apply wf_new_buffer.
  - intros H. now apply Forall_cons in H as [H _].
Qed.

Lemma pool_reset_taken w : pool_reset w -> pool_reset (taken w).
Proof.
  unfold pool_reset, taken. destruct w as [d dn sp se cl ti ca l p]. cbn.
  destruct p as [|b rest]; [auto|].
  intros H. now apply Forall_cons in H as [_ H].
Qed.

Lemma formatHeader_pool s file line :
  hoare pool_reset (formatHeader s file line)
    (fun buf w => pool_reset w /\ length (tmp buf) = 29%nat) pool_reset.
Proof.
  intros w Hw. rewrite formatHeader_unfold.
  pose proof (pool_reset_taken w Hw) as Ht.
  destruct (pool_reset_next w Hw) as [_ Hlen].
  destruct (header_fill _ _ _ _ _) as [buf|] eqn:Hfill; [|assumption].
  apply header_fill_length in Hfill. split; [assumption|congruence].
Qed.

Lemma header_pool s depth :
  hoare pool_reset (header s depth)
    (fun r w => pool_reset w /\ length (tmp (fst (fst r))) = 29%nat)
    pool_reset.
Proof.
  unfold header.
  eapply hoare_bind; [apply keeps_get|]. intros w0. cbv beta.
  eapply hoare_bind with (Q := fun _ => pool_reset).
  { destruct (callers w0 _) as [[file line]|]; [|apply keeps_ret].
    cbv zeta. destruct (0 <=? _); [|apply keeps_ret].
    apply keeps_bind; [now apply keeps_checked|]. intros f. apply keeps_ret. }
  intros [file line].
  eapply hoare_bind; [apply formatHeader_pool|]. intros buf.
  apply hoare_ret. auto.
Qed.

Lemma output_pool buf file line :
  length (tmp buf) = 29%nat ->
  keeps pool_reset pool_reset (output buf file line).
Proof.
  intros Hlen. unfold output. cbv zeta.
  assert (Hexit : forall A err, hoare pool_reset (@exit A err)
                                  (fun _ _ => False) pool_reset).
  { intros A err. apply ends_exit; unfold pool_reset; cbn; auto. }
  apply keeps_bind; [apply keeps_get|]. intros w.
  apply keeps_bind.
  { destruct (l_file (lg w)); [apply keeps_ret|].
    apply keeps_bind; [apply keeps_create; unfold pool_reset; cbn; auto|].
    intros [e|]; [|apply keeps_ret].
    apply keeps_bind.
    - intros w1 Hw1. exact Hw1.
    - intros _. eapply hoare_weaken; [apply Hexit|auto|contradiction|auto]. }
  intros _.
  apply keeps_bind; [apply keeps_sb_Write; unfold pool_reset; cbn; auto|].
  intros _ w1 Hw1. unfold putBuffer, modify, pool_reset. cbn [pool set_pool].
  apply Forall_cons. split; [|exact Hw1]. split; [reflexivity|exact Hlen].
Qed.

Lemma log_call_pool st s text :
  keeps pool_reset pool_reset (log_call st s text).
Proof.
  assert (Hgo : forall depth,
            keeps pool_reset pool_reset
              (let* '(buf, file, line) := header s depth in
               let buf := Fprint text buf in
               let* buf := end_line buf in
               output buf file line)).
  { intros depth. eapply hoare_bind; [apply header_pool|].
    intros [[buf file] line]. cbv zeta. cbn [fst].
    eapply hoare_bind
      with (Q := fun b w => pool_reset w /\ length (tmp b) = 29%nat).
    - unfold end_line. intros w [Hw Hlen]. unfold bind, checked.
      destruct (last_byte (Fprint text buf)) as [c|]; [|exact Hw].
      cbn. destruct (bool_decide (c = newline)); cbn; auto.
    - intros b w [Hw Hlen]. now apply output_pool. }
  destruct st; apply Hgo.
Qed.

(** X7: every buffer in the pool is reset, that is empty, with its array of
    29 bytes, and the emit operations keep it so however they end: the
    buffer a record is formatted in never holds bytes of an earlier
    record. *)
Theorem pool_holds_reset_buffers (S : severity) (st : style)
    (text : list ascii) (w : world) :
  Forall wf_buffer (pool w) ->
  Forall wf_buffer (pool (world_of (emit S st text w))) /\
  wf_buffer (next_buffer (world_of (emit S st text w))).
Proof.
  intros Hw.
  assert (Hk : keeps pool_reset pool_reset (emit S st text)).
  { intros w0 Hw0. rewrite emit_unfold.
    destruct (logLevel (lg w0) <=? level_of S); [|exact Hw0].
    destruct S; try (now apply log_call_pool).
    revert w0 Hw0. apply keeps_bind; [apply log_call_pool|].
    intros _. eapply hoare_weaken;
      [apply (ends_exit pool_reset); unfold pool_reset; cbn; auto
      |auto|contradiction|auto]. }
  specialize (Hk w Hw).
  assert (Hw' : pool_reset (world_of (emit S st text w)))
    by (now destruct (emit S st text w)).
  split; [exact Hw'|now apply pool_reset_next].
Qed.

Lemma pool_holds_reset_buffers_witness :
  Forall wf_buffer (pool (world_of (emit SInfo Print (bytes_of "x")
                                      (demo_world 0 1000)))) /\
  wf_buffer (next_buffer (world_of (emit SInfo Print (bytes_of "x")
                                      (demo_world 0 1000)))).
Proof.
  apply (pool_holds_reset_buffers SInfo Print (bytes_of "x") (demo_world 0 1000)).
  constructor.
Defined.

(** ** Flushing *)

Lemma File_Write_nonneg f p w r w' :
  File_Write f p w = Ret r w' -> 0 <= space w -> 0 <= space w'.
Proof.
  destruct f as [|path|]; cbn; intros [= _ <-]; cbn; lia.
Qed.

Lemma Writer_Flush_nonneg f b w r w' :
  Writer_Flush f b w = Ret r w' -> 0 <= space w -> 0 <= space w'.
Proof.
  unfold Writer_Flush. destruct (wr_err b); [now intros [= _ <-]|].
  destruct (Buffered b =? 0); [now intros [= _ <-]|].
  destruct (File_Write f (wr_buf b) w) as [[n e1] w1| |] eqn:Hw;
    [|destruct (File_Write_returns f (wr_buf b) w) as (? & ? & ? & H & _);
      congruence..].
  erewrite bind_Ret by exact Hw. cbv beta iota.
  pose proof (File_Write_nonneg _ _ _ _ _ Hw) as Hpos.
  destruct e1; [|destruct (n <? Buffered b)]; intros [= _ <-]; exact Hpos.
Qed.

(** What [flushAll] does to an open sink. *)
Lemma flushAll_open w sb c :
  sink_open w sb -> disk w !! logPath (lg w) = Some c ->
  exists b' c' sp',
    flushAll w
    = Ret tt (set_lg (set_l_file (Some (set_Writer b' sb)) (lg w))
                (with_file (<[logPath (lg w) := c']> (disk w)) sp' w)) /\
    c' ++ wr_buf b' = c ++ wr_buf (sb_Writer sb) /\
    (length (wr_buf b') <= length (wr_buf (sb_Writer sb)))%nat /\
    sp' - Buffered b' = space w - Buffered (sb_Writer sb) /\
    (wr_err b' = None -> wr_buf b' = []) /\
    (wr_err (sb_Writer sb) = None -> Buffered (sb_Writer sb) <= space w ->
     wr_err b' = None) /\
    (0 <= space w -> 0 <= sp').
Proof.
  intros (Hsb & Hfile & _ & _) Hc.
  destruct (Writer_Flush_open (logPath (lg w)) (sb_Writer sb) w c Hc)
    as (b1 & e1 & c1 & sp1 & Hflush & Hcont & Herr & Hlen & _ & Hemp & Hok).
  pose proof (Writer_Flush_room _ _ _ _ _ _ Hflush) as Hroom.
  pose proof (Writer_Flush_nonneg _ _ _ _ _ Hflush) as Hpos.
  exists b1, c1, sp1. split.
  - unfold flushAll. erewrite bind_Ret by reflexivity. rewrite Hsb.
    erewrite bind_Ret.
    2:{ unfold sb_Flush. erewrite bind_Ret by (apply the_sink_run; exact Hsb).
        rewrite Hfile. erewrite bind_Ret by exact Hflush.
        cbv beta iota. erewrite bind_Ret by reflexivity. reflexivity. }
    erewrite bind_Ret.
    2:{ unfold sb_Sync. erewrite bind_Ret by (apply the_sink_run; reflexivity).
        cbn [sb_file set_Writer]. rewrite Hfile. reflexivity. }
    reflexivity.
  - split; [assumption|]. split; [assumption|]. split; [exact Hroom|].
    subst e1. split; [assumption|]. split; [assumption|exact Hpos].
Qed.

(** [exit] ends the process with code 2 after its line on the standard
    error stream, whatever the sink and the device do. *)
Lemma exit_stderr {A} err w :
  exists w', @exit A err w = Exit 2 w' /\
             stderr w' = stderr w ++ exit_message err.
Proof.
  unfold exit. erewrite bind_Ret by reflexivity.
  set (w0 := set_stderr _ w).
  pose proof (keeps_flushAll (fun w' => stderr w' = stderr w0)) as Hk.
  specialize (Hk ltac:(auto) ltac:(auto) ltac:(auto) w0 eq_refl).
  destruct (flushAll_returns w0) as [w1 Hw1]. rewrite Hw1 in Hk.
  erewrite bind_Ret by exact Hw1. exists w1. split; [reflexivity|].
  rewrite Hk. reflexivity.
Qed.

(** [exit] on an open sink: the log file as the sink sees it stays what it
    was, and is on the disk when the device takes what is pending. *)
Lemma exit_open {A} err w sb :
  sink_open w sb ->
  exists w', @exit A err w = Exit 2 w' /\
    stderr w' = stderr w ++ exit_message err /\
    log_content w' = log_content w /\
    logPath (lg w') = logPath (lg w) /\
    (wr_err (sb_Writer sb) = None -> Buffered (sb_Writer sb) <= space w ->
     disk w' !! logPath (lg w) = Some (log_content w)).
Proof.
  intros Hopen. pose proof Hopen as (Hsb & Hfile & [c Hc] & Hsize).
  unfold exit. erewrite bind_Ret by reflexivity.
  set (w0 := set_stderr _ w).
  assert (Hopen0 : sink_open w0 sb) by exact Hopen.
  assert (Hc0 : disk w0 !! logPath (lg w0) = Some c) by exact Hc.
  destruct (flushAll_open w0 sb c Hopen0 Hc0)
    as (b1 & c1 & sp1 & Hrun & Hcont & _ & _ & Hemp & Hok & _).
  erewrite bind_Ret by exact Hrun. eexists. split; [reflexivity|].
  split; [reflexivity|].
  rewrite (log_content_open w sb c Hsb Hc).
  split; [|split; [reflexivity|]].
  - erewrite log_content_open; [|reflexivity|cbn; apply lookup_insert_eq].
    exact Hcont.
  - intros Herr Hroom. cbn. rewrite lookup_insert_eq. f_equal.
    rewrite (Hemp (Hok Herr Hroom)), app_nil_r in Hcont. exact Hcont.
Qed.

(** X8: when the device takes what is pending, [Flush] moves it to the log
    file: afterwards the file on the disk holds all the sink has accepted,
    the write buffer is empty, the byte counter is unchanged, and another
    [Flush] changes nothing. *)
Theorem Flush_writes_through (w : world) (sb : syncBuffer) :
  sink_open w sb -> wr_err (sb_Writer sb) = None ->
  Buffered (sb_Writer sb) <= space w ->
  exists w' sb',
    Flush w = Ret tt w' /\ l_file (lg w') = Some sb' /\
    disk w' !! logPath (lg w) = Some (log_content w) /\
    wr_buf (sb_Writer sb') = [] /\ nbytes sb' = nbytes sb /\
    log_content w' = log_content w /\
    Flush w' = Ret tt w'.
Proof.
  intros Hopen Herr Hroom. pose proof Hopen as (Hsb & Hfile & [c Hc] & Hsize).
  destruct (flushAll_open w sb c Hopen Hc)
    as (b1 & c1 & sp1 & Hrun & Hcont & _ & _ & Hemp & Hok & _).
  specialize (Hok Herr Hroom). specialize (Hemp Hok).
  rewrite Hemp, app_nil_r in Hcont. subst c1.
  eexists _, _. split; [exact Hrun|]. split; [reflexivity|].
  rewrite (log_content_open w sb c Hsb Hc).
  split; [cbn; apply lookup_insert_eq|]. split; [exact Hemp|].
  split; [reflexivity|]. split.
  - match goal with
    | |- log_content ?w' = _ =>
      rewrite (log_content_open w' (set_Writer b1 sb)
                 (c ++ wr_buf (sb_Writer sb)))
        by (reflexivity || (cbn; apply lookup_insert_eq))
    end.
    cbn [sb_Writer set_Writer]. now rewrite Hemp, app_nil_r.
  - unfold Flush, flushAll. erewrite bind_Ret by reflexivity.
    cbn [lg set_lg l_file set_l_file].
    erewrite bind_Ret.
    2:{ unfold sb_Flush. erewrite bind_Ret by (apply the_sink_run; reflexivity).
        cbn [sb_Writer set_Writer sb_file]. unfold Writer_Flush.
        rewrite Hok. unfold Buffered. rewrite Hemp. cbn [length Z.of_nat Z.eqb].
        erewrite bind_Ret by reflexivity. cbv beta iota.
        erewrite bind_Ret by reflexivity. reflexivity. }
    unfold sb_Sync, bind, the_sink.
    cbn [lg set_lg l_file set_l_file sb_file set_Writer]. rewrite Hfile.
    unfold ret. f_equal.
Qed.

Lemma Flush_writes_through_witness :
  exists w' sb',
    Flush (demo_open 100) = Ret tt w' /\ l_file (lg w') = Some sb' /\
    disk w' !! logPath (lg (demo_open 100)) = Some (log_content (demo_open 100)) /\
    wr_buf (sb_Writer sb') = [] /\ nbytes sb' = nbytes demo_sink /\
    log_content w' = log_content (demo_open 100) /\
    Flush w' = Ret tt w'.
Proof.
  apply (Flush_writes_through (demo_open 100) demo_sink (sink_open_demo 100)).
  - reflexivity.
  - vm_compute. discriminate.
Defined.

(** X9: [Flush] always returns: it does nothing before the first record,
    and on an open sink it keeps the content of the log file as the sink
    sees it, the byte counter and with them the next decision to rotate.
    When the device has no room for what is pending, the error is not
    reported but stays in the write buffer. *)
Theorem Flush_swallows_errors (w : world) :
  (exists w', Flush w = Ret tt w') /\
  (l_file (lg w) = None -> Flush w = Ret tt w) /\
  (forall sb,
     sink_open w sb ->
     exists w' sb',
       Flush w = Ret tt w' /\ l_file (lg w') = Some sb' /\
       log_content w' = log_content w /\ nbytes sb' = nbytes sb /\
       (forall p, rotates w' sb' p = rotates w sb p) /\
       (wr_err (sb_Writer sb) = None ->
        0 <= space w < Buffered (sb_Writer sb) ->
        wr_err (sb_Writer sb') <> None)).
Proof.
  split; [apply flushAll_returns|]. split.
  - intros Hnil. unfold Flush, flushAll. erewrite bind_Ret by reflexivity.
    now rewrite Hnil.
  - intros sb Hopen.
    pose proof Hopen as (Hsb & Hfile & [c Hc] & Hsize).
    destruct (flushAll_open w sb c Hopen Hc)
      as (b1 & c1 & sp1 & Hrun & Hcont & _ & Hroom & Hemp & _ & Hpos).
    eexists _, _. split; [exact Hrun|]. split; [reflexivity|].
    cbn [sb_Writer set_Writer nbytes].
    split; [|split; [reflexivity|split; [reflexivity|]]].
    + rewrite (log_content_open w sb c Hsb Hc).
      match goal with
      | |- log_content ?w' = _ =>
        rewrite (log_content_open w' (set_Writer b1 sb) c1)
          by (reflexivity || (cbn; apply lookup_insert_eq))
      end.
      exact Hcont.
    + intros Herr Hfull Hnone. specialize (Hemp Hnone).
      specialize (Hpos ltac:(lia)).
      unfold Buffered in Hroom at 1. rewrite Hemp in Hroom. cbn in Hroom. lia.
Qed.

(** X10: once a flush has failed, the next write that does not rotate ends
    the process with code 2 and the error of that flush on the standard
    error stream; its bytes are not accepted. *)
Theorem write_after_failed_flush_exits (p : list ascii) (w : world)
    (sb : syncBuffer) (e : error) :
  sink_open w sb -> wr_err (sb_Writer sb) = Some e -> rotates w sb p = false ->
  exists w',
    sb_Write p w = Exit 2 w' /\
    stderr w' = stderr w ++ exit_message e /\
    log_content w' = log_content w.
Proof.
  intros Hopen Herr Hrot. pose proof Hopen as (Hsb & Hfile & [c Hc] & Hsize).
  rewrite (sb_Write_unfold p w sb Hsb), Hrot. unfold sb_append.
  erewrite bind_Ret by (apply the_sink_run; exact Hsb).
  erewrite bind_Ret.
  2:{ unfold Writer_Write. rewrite Writer_Write_loop_skip by (right; congruence).
      rewrite Writer_Write_end_run, Herr. reflexivity. }
  cbv beta iota. erewrite bind_Ret by reflexivity.
  match goal with
  | |- context [exit e ?w1] =>
    destruct (@exit_open (Z * option error) e w1
                (set_nbytes (u64 (nbytes sb + u64 0))
                   (set_Writer (sb_Writer sb) sb)))
      as (w' & Hexit & Hstderr & Hcont & _)
  end.
  { split; [reflexivity|]. split; [exact Hfile|]. split; [cbn; eauto|].
    exact Hsize. }
  exists w'. split; [exact Hexit|]. split; [exact Hstderr|].
  rewrite Hcont. rewrite (log_content_open w sb c Hsb Hc).
  erewrite log_content_open; [|reflexivity|exact Hc]. reflexivity.
Qed.

(** ** Room after a write *)

Lemma sb_append_room p w sb r w' sb' :
  l_file (lg w) = Some sb -> sb_append p w = Ret r w' ->
  l_file (lg w') = Some sb' ->
  space w' - Buffered (sb_Writer sb')
  = space w - Buffered (sb_Writer sb) - Z.of_nat (length p).
Proof.
  intros Hsb Hrun Hsb'. unfold sb_append in Hrun.
  erewrite bind_Ret in Hrun by (apply the_sink_run; exact Hsb).
  destruct (Writer_Write_loop_returns 2 (sb_file sb) p 0 (sb_Writer sb) w)
    as ([[n e] b] & w1 & Hw & _).
  unfold Writer_Write in Hrun. erewrite bind_Ret in Hrun by exact Hw.
  cbv beta iota in Hrun. erewrite bind_Ret in Hrun by reflexivity.
  destruct e as [e|].
  { match type of Hrun with
    | exit e ?w2 = _ =>
      destruct (@exit_exits (Z * option error) e w2) as [w3 Hw3]
    end. congruence. }
  injection Hrun as _ <-. cbn in Hsb'. injection Hsb' as <-.
  cbn [sb_Writer set_nbytes set_Writer space set_lg].
  eapply Writer_Write_loop_room. exact Hw.
Qed.

Lemma sb_Write_room p w sb r w' sb' :
  sink_open w sb -> sb_Write p w = Ret r w' -> l_file (lg w') = Some sb' ->
  space w - Buffered (sb_Writer sb) - Z.of_nat (length p)
  <= space w' - Buffered (sb_Writer sb').
Proof.
  intros Hopen Hrun Hsb'. pose proof Hopen as (Hsb & Hfile & [c Hc] & Hsize).
  rewrite (sb_Write_unfold p w sb Hsb) in Hrun.
  destruct (rotates w sb p).
  2:{ rewrite (sb_append_room p w sb r w' sb' Hsb Hrun Hsb'). lia. }
  set (w0 := set_ticks (S (ticks w)) w) in *.
  assert (Hopen0 : sink_open w0 sb) by exact Hopen.
  destruct (rotateFile_run (clock w (ticks w)) w0 sb c Hopen0 Hc)
    as (r1 & w1 & c1 & Hrot & _ & _ & Hsp1 & _ & _ & Hr).
  change (space w0) with (space w) in Hsp1.
  match type of Hrun with
  | bind ?m _ w = _ =>
    assert (Hin : m w = match r1 with
                        | Some e => exit e w1
                        | None => Ret tt w1
                        end)
  end.
  { erewrite bind_Ret by reflexivity. fold w0.
    erewrite bind_Ret by exact Hrot. now destruct r1. }
  destruct r1 as [e|].
  { destruct (@exit_exits unit e w1) as [w2 Hw2]. rewrite Hw2 in Hin.
    erewrite bind_Exit in Hrun by exact Hin. discriminate. }
  erewrite bind_Ret in Hrun by exact Hin.
  destruct Hr as (_ & _ & _ & Hsink1).
  rewrite (sb_append_room p w1 _ r w' sb' Hsink1 Hrun Hsb').
  change (Buffered (sb_Writer (fresh_sink _ _))) with 0. lia.
Qed.

(** A write with room ahead: it returns and leaves room for what it was
    not given. *)
Lemma sb_Write_ready p w sb m :
  sink_open w sb -> wr_err (sb_Writer sb) = None -> denied w = ∅ ->
  Buffered (sb_Writer sb) + Z.of_nat (length p) + m <= space w -> 0 <= m ->
  exists w' sb',
    sb_Write p w = Ret (Z.of_nat (length p), None) w' /\
    sink_open w' sb' /\ wr_err (sb_Writer sb') = None /\
    Buffered (sb_Writer sb') + m <= space w' /\
    same_config w w' /\
    log_content w' = (if rotates w sb p then [] else log_content w) ++ p.
Proof.
  intros Hopen Herr Hden Hroom Hm.
  pose proof Hopen as (Hsb & Hfile & [c Hc] & Hsize).
  destruct (sb_Write_run p w sb c Hopen Hc) as [Hret Hok].
  destruct Hok as (r & w' & Hrun); [assumption|lia| |].
  { intros _. split; now apply not_denied. }
  destruct (Hret r w' Hrun)
    as (sb' & c' & -> & Hopen' & Herr' & Hc' & Hcfg & _ & _ & Hcase).
  pose proof Hopen' as (Hsb' & _).
  pose proof (sb_Write_room p w sb _ w' sb' Hopen Hrun Hsb') as Hr.
  exists w', sb'. split; [exact Hrun|]. split; [exact Hopen'|].
  split; [exact Herr'|]. split; [lia|]. split; [exact Hcfg|].
  assert (Hpath : logPath (lg w') = logPath (lg w)) by apply Hcfg.
  rewrite (log_content_open w' sb' c' Hsb') by (now rewrite Hpath).
  rewrite (log_content_open w sb c Hsb Hc).
  destruct (rotates w sb p).
  - destruct Hcase as (_ & _ & Hcont & _). now rewrite Hcont.
  - destruct Hcase as (_ & _ & Hcont & _). now rewrite Hcont, app_assoc.
Qed.

(** [output] with room ahead. *)
Lemma output_ready buf file line w m :
  ready w (Z.of_nat (length (Buffer buf)) + m) -> 0 <= m ->
  exists w' sb',
    output buf file line w = Ret tt w' /\
    sink_open w' sb' /\ wr_err (sb_Writer sb') = None /\
    Buffered (sb_Writer sb') + m <= space w' /\ denied w' = ∅ /\
    stderr w' = stderr w /\ logPath (lg w') = logPath (lg w) /\
    logLevel (lg w') = logLevel (lg w) /\
    fileMaxSize (lg w') = fileMaxSize (lg w) /\
    log_content w' = kept_content w (Buffer buf) ++ Buffer buf.
Proof.
  intros [Hden Hready] Hm. unfold output. cbv zeta.
  erewrite bind_Ret by reflexivity.
  assert (Hwrite : forall w1 sb1,
    sink_open w1 sb1 -> wr_err (sb_Writer sb1) = None -> denied w1 = ∅ ->
    Buffered (sb_Writer sb1) + Z.of_nat (length (Buffer buf)) + m <= space w1 ->
    exists w' sb',
      (let* _ := sb_Write (Buffer buf) in putBuffer buf) w1 = Ret tt w' /\
      sink_open w' sb' /\ wr_err (sb_Writer sb') = None /\
      Buffered (sb_Writer sb') + m <= space w' /\ denied w' = ∅ /\
      stderr w' = stderr w1 /\ logPath (lg w') = logPath (lg w1) /\
      logLevel (lg w') = logLevel (lg w1) /\
      fileMaxSize (lg w') = fileMaxSize (lg w1) /\
      log_content w' = (if rotates w1 sb1 (Buffer buf) then []
                        else log_content w1) ++ Buffer buf).
  { intros w1 sb1 Hopen Herr Hden1 Hroom.
    destruct (sb_Write_ready (Buffer buf) w1 sb1 m Hopen Herr Hden1 Hroom Hm)
      as (w2 & sb2 & Hrun & Hopen2 & Herr2 & Hroom2 & Hcfg & Hcont).
    destruct Hcfg as (Hd & Hs & _ & _ & _ & Hp & Hl & Hf).
    exists (set_pool ({| Buffer := []; tmp := tmp buf |} :: pool w2) w2), sb2.
    split; [erewrite bind_Ret by exact Hrun; reflexivity|].
    split; [exact Hopen2|]. split; [exact Herr2|]. split; [exact Hroom2|].
    split; [cbn; congruence|]. split; [exact Hs|]. split; [exact Hp|].
    split; [exact Hl|]. split; [exact Hf|]. exact Hcont. }
  unfold kept_content.
  destruct (l_file (lg w)) as [sb|] eqn:Hsb.
  - destruct Hready as (Hopen & Herr & Hroom).
    erewrite bind_Ret by reflexivity. apply Hwrite; try assumption. lia.
  - erewrite bind_Ret.
    2:{ erewrite bind_Ret.
        2:{ rewrite create_run.
            rewrite decide_False by now apply not_denied. reflexivity. }
        reflexivity. }
    rewrite Hsb.
    match goal with
    | |- context [bind _ _ ?w1] =>
      destruct (Hwrite w1 (fresh_sink (logPath (lg w)) 0))
        as (w' & sb' & Hrun & H1 & H2 & H3 & H4 & H5 & H6 & H7 & H8 & H9)
    end.
    + split; [reflexivity|]. split; [reflexivity|].
      split; [cbn; rewrite lookup_insert_eq; eauto|]. vm_compute. discriminate.
    + reflexivity.
    + exact Hden.
    + change (Buffered (sb_Writer (fresh_sink (logPath (lg w)) 0))) with 0.
      cbn [space set_lg set_disk]. lia.
    + exists w', sb'. split; [exact Hrun|]. repeat (split; [assumption|]).
      rewrite H9.
      match goal with
      | |- context [log_content ?w1] =>
        replace (log_content w1) with (@nil ascii)
      end.
      * now destruct (rotates _ _ _).
      * unfold log_content. cbn. now rewrite lookup_insert_eq.
Qed.

(** A call at or above the level, with room ahead. *)
Lemma log_call_ready st s text w m :
  0 <= s -> formats w (depth_of st) ->
  ready w (Z.of_nat (length (record_at s w (depth_of st) text)) + m) ->
  0 <= m ->
  exists w' sb',
    log_call st s text w = Ret tt w' /\
    sink_open w' sb' /\ wr_err (sb_Writer sb') = None /\
    Buffered (sb_Writer sb') + m <= space w' /\ denied w' = ∅ /\
    stderr w' = stderr w /\ logPath (lg w') = logPath (lg w) /\
    logLevel (lg w') = logLevel (lg w) /\
    fileMaxSize (lg w') = fileMaxSize (lg w) /\
    log_content w'
    = kept_content w (record_at s w (depth_of st) text) ++
      record_at s w (depth_of st) text.
Proof.
  intros Hs Hf Hr Hm. destruct (log_call_run st s text w Hs Hf) as [t' ->].
  destruct (output_ready {| Buffer := record_at s w (depth_of st) text;
                            tmp := t' |}
              (fst (caller_at w (depth_of st)))
              (snd (caller_at w (depth_of st))) (taken w) m)
    as (w' & sb' & Hrun & H); [now apply ready_taken|assumption|].
  exists w', sb'. split; [exact Hrun|].
  replace (kept_content w (record_at s w (depth_of st) text))
    with (kept_content (taken w) (record_at s w (depth_of st) text)).
  2:{ unfold kept_content, taken, log_content, rotates.
      destruct w as [d dn sp se cl ti ca l p]. cbn. now destruct p. }
  replace (stderr w) with (stderr (taken w)).
  2:{ unfold taken. destruct w as [d dn sp se cl ti ca l p]. cbn. now destruct p. }
  replace (lg w) with (lg (taken w)).
  2:{ unfold taken. destruct w as [d dn sp se cl ti ca l p]. cbn. now destruct p. }
  exact H.
Qed.

(** ** The Fatal operations *)

(** C7, amended: when the configured minimum severity is not above Fatal,
    each Fatal operation (Fatal, Fatalf, FatalDepth, FatalfDepth) ends the
    process with code 2, whatever the device does; when no fault is ahead
    its record, which starts with the severity character F, is at the end
    of the log file, on the disk after the flush of [exit], and the line
    of [exit] is on the standard error stream. With a minimum severity
    above Fatal the Fatal operations are gated off like any other: they
    return and change nothing. *)
Theorem fatal_exits (st : style) (text : list ascii) (w : world) :
  (logLevel (lg w) <= FatalLog -> formats w (depth_of st) ->
   (exists w', emit SFatal st text w = Exit 2 w') /\
   (ready w (Z.of_nat (length (record_at FatalLog w (depth_of st) text))) ->
    exists w' older,
      emit SFatal st text w = Exit 2 w' /\
      log_content w' = older ++ record_at FatalLog w (depth_of st) text /\
      disk w' !! logPath (lg w)
      = Some (older ++ record_at FatalLog w (depth_of st) text) /\
      stderr w' = stderr w ++ exit_message (errors_New "") /\
      head (record_at FatalLog w (depth_of st) text) = Some "F"%char)) /\
  (FatalLog < logLevel (lg w) -> emit SFatal st text w = Ret tt w).
Proof.
  rewrite emit_unfold. cbn [level_of]. split.
  2:{ intros Hlt.
      destruct (Z.leb_spec (logLevel (lg w)) FatalLog); [lia|reflexivity]. }
  intros Hle Hf.
  destruct (Z.leb_spec (logLevel (lg w)) FatalLog); [|lia]. split.
  - destruct (log_call_run st FatalLog text w ltac:(vm_compute; congruence) Hf)
      as [t' Hcall].
    pose proof (output_ends
                  {| Buffer := record_at FatalLog w (depth_of st) text;
                     tmp := t' |}
                  (fst (caller_at w (depth_of st)))
                  (snd (caller_at w (depth_of st))) (taken w)) as Hends.
    rewrite <- Hcall in Hends.
    destruct (log_call st FatalLog text w) as [[] w1|c w1|w1] eqn:Hrun.
    + destruct (@exit_exits unit (errors_New "") w1) as [w' Hw'].
      exists w'. erewrite bind_Ret by exact Hrun. exact Hw'.
    + cbn in Hends. subst c. exists w1. now erewrite bind_Exit by exact Hrun.
    + contradiction.
  - intros Hr.
    destruct (log_call_ready st FatalLog text w 0
                ltac:(vm_compute; congruence) Hf)
      as (w1 & sb1 & Hrun & Hopen & Herr & Hroom & _ & Hstderr & Hpath & _ & _
          & Hcont); [now rewrite Z.add_0_r|lia|].
    destruct (@exit_open unit (errors_New "") w1 sb1 Hopen)
      as (w2 & Hexit & Hstderr2 & Hsame & _ & Hdisk).
    exists w2, (kept_content w (record_at FatalLog w (depth_of st) text)).
    split; [erewrite bind_Ret by exact Hrun; exact Hexit|].
    split; [now rewrite Hsame|].
    split; [rewrite <- Hpath, <- Hcont; apply Hdisk; [assumption|lia]|].
    split; [now rewrite Hstderr2, Hstderr|].
    unfold record_at, header_bytes. cbn [app]. apply head_terminated.
Qed.

Lemma fatal_exits_witness :
  exists w' older,
    emit SFatal Print (bytes_of "bye") (demo_world 0 1000) = Exit 2 w' /\
    disk w' !! "/tmp/app.log"
    = Some (older ++
            bytes_of "F2024-03-07 08:09:05.000123 demo.go:42] bye" ++
            [newline]) /\
    stderr w' = bytes_of "log: exiting because of error: " ++ [newline].
Proof.
  destruct (fatal_exits Print (bytes_of "bye") (demo_world 0 1000))
    as [Hexits _].
  destruct Hexits as [_ Hready].
  - vm_compute. discriminate.
  - apply formats_demo.
  - destruct Hready as (w' & older & Hrun & _ & Hdisk & Hstderr & _).
    + split; [reflexivity|]. vm_compute. discriminate.
    + exists w', older. split; [exact Hrun|]. split.
      * replace (bytes_of "F2024-03-07 08:09:05.000123 demo.go:42] bye" ++
                 [newline])
          with (record_at FatalLog (demo_world 0 1000) (depth_of Print)
                  (bytes_of "bye")) by (vm_compute; reflexivity).
        exact Hdisk.
      * exact Hstderr.
Defined.

(** C7 as stated fails: with a minimum severity above Fatal the Fatal
    operations emit nothing and do not end the process. *)
Lemma fatal_above_level :
  Fatal (bytes_of "bye") (demo_world 5 1000) = Ret tt (demo_world 5 1000) /\
  Fatalf (bytes_of "bye") (demo_world 5 1000) = Ret tt (demo_world 5 1000) /\
  FatalDepth 0 (bytes_of "bye") (demo_world 5 1000)
  = Ret tt (demo_world 5 1000) /\
  FatalfDepth 0 (bytes_of "bye") (demo_world 5 1000)
  = Ret tt (demo_world 5 1000).
Proof. repeat split. Qed.

(** X11: when no fault is ahead, a Fatal operation leaves its record in the
    log file on the disk, not only in the write buffer, and the line
    [log: exiting because of error: ] on the standard error stream. *)
Theorem fatal_record_reaches_disk (st : style) (text : list ascii) (w : world) :
  logLevel (lg w) <= FatalLog -> formats w (depth_of st) ->
  ready w (Z.of_nat (length (record_at FatalLog w (depth_of st) text))) ->
  exists w' older,
    emit SFatal st text w = Exit 2 w' /\
    disk w' !! logPath (lg w)
    = Some (older ++ record_at FatalLog w (depth_of st) text) /\
    stderr w' = stderr w ++ exit_message (errors_New "").
Proof.
  intros Hle Hf Hr. rewrite emit_unfold. cbn [level_of].
  destruct (Z.leb_spec (logLevel (lg w)) FatalLog); [|lia].
  destruct (log_call_ready st FatalLog text w 0
              ltac:(vm_compute; congruence) Hf)
    as (w1 & sb1 & Hrun & Hopen & Herr & Hroom & _ & Hstderr & Hpath & _ & _
        & Hcont); [now rewrite Z.add_0_r|lia|].
  destruct (@exit_open unit (errors_New "") w1 sb1 Hopen)
    as (w2 & Hexit & Hstderr2 & _ & _ & Hdisk).
  exists w2, (kept_content w (record_at FatalLog w (depth_of st) text)).
  split; [erewrite bind_Ret by exact Hrun; exact Hexit|]. split.
  - rewrite <- Hpath, <- Hcont. apply Hdisk; [assumption|lia].
  - now rewrite Hstderr2, Hstderr.
Qed.

Lemma fatal_record_reaches_disk_witness :
  exists w' older,
    emit SFatal Print (bytes_of "bye") (demo_world 0 1000) = Exit 2 w' /\
    disk w' !! logPath (lg (demo_world 0 1000))
    = Some (older ++ record_at FatalLog (demo_world 0 1000) (depth_of Print)
                       (bytes_of "bye")) /\
    stderr w' = stderr (demo_world 0 1000) ++ exit_message (errors_New "").
Proof.
  apply (fatal_record_reaches_disk Print (bytes_of "bye") (demo_world 0 1000)).
  - vm_compute. discriminate.
  - apply formats_demo.
  - split; [reflexivity|]. vm_compute. discriminate.
Defined.

(** X12: [NewLogger] creates no file; the first record that is emitted
    creates the log file, or truncates the file that is at the log path:
    when no fault is ahead the log file then holds that record and nothing
    else, whatever the disk held before. [NewLogger] itself returns with
    the disk, the device and the standard error stream as they were and
    with no sink. The flush interval is one the ticker of the daemon
    accepts. *)
Theorem first_record_truncates (path ds : string) (c : ascii) (m level : Z)
    (flushInterval : Z) (S : severity) (st : style) (text : list ascii)
    (w : world) :
  is_numeral ds -> unit_factor c = Some m -> level <= level_of S ->
  0 < flushInterval <= 9223372036 ->
  formats w (depth_of st) -> denied w = ∅ ->
  Z.of_nat (length (record_at (level_of S) w (depth_of st) text)) <= space w ->
  exists w0 w',
    NewLogger path (ds +:+ String c "") level flushInterval w = Ret tt w0 /\
    disk w0 = disk w /\ space w0 = space w /\ stderr w0 = stderr w /\
    l_file (lg w0) = None /\
    (let* _ := NewLogger path (ds +:+ String c "") level flushInterval in
     emit S st text) w
    = match S with SFatal => Exit 2 w' | _ => Ret tt w' end /\
    logPath (lg w') = path /\
    log_content w' = record_at (level_of S) w (depth_of st) text.
Proof.
  intros Hds Hc Hle _ Hf Hden Hroom.
  set (w0 := set_lg {| logPath := path; logLevel := level;
                       fileMaxSize := u64 (numeral_value ds * m);
                       l_file := None |} w).
  assert (Hnew : NewLogger path (ds +:+ String c "") level flushInterval w
                 = Ret tt w0).
  { unfold NewLogger. erewrite bind_Ret; [reflexivity|].
    rewrite unitConv_split, stringToInt_numeral, Hc by assumption.
    now rewrite u64_mul_l. }
  assert (Hgoal : exists w',
    (let* _ := NewLogger path (ds +:+ String c "") level flushInterval in
     emit S st text) w
    = match S with SFatal => Exit 2 w' | _ => Ret tt w' end /\
    logPath (lg w') = path /\
    log_content w' = record_at (level_of S) w (depth_of st) text).
  2:{ destruct Hgoal as (w' & Hrun & Hpath & Hcont).
      exists w0, w'. split; [exact Hnew|]. do 4 (split; [reflexivity|]).
      auto. }
  erewrite bind_Ret by exact Hnew. rewrite emit_unfold.
  change (logLevel (lg w0)) with level.
  destruct (Z.leb_spec level (level_of S)); [|lia].
  pose proof (level_of_nonneg S) as [Hs _].
  destruct (log_call_ready st (level_of S) text w0 0 Hs Hf)
    as (w1 & sb1 & Hrun & Hopen & Herr & Hroom1 & _ & _ & Hpath & _ & _ & Hcont).
  { split; [exact Hden|]. change (l_file (lg w0)) with (@None syncBuffer).
    change (space w0) with (space w).
    change (record_at (level_of S) w0 (depth_of st) text)
      with (record_at (level_of S) w (depth_of st) text). cbv iota. lia. }
  { lia. }
  change (kept_content w0 _) with (@nil ascii) in Hcont.
  change (record_at (level_of S) w0 (depth_of st) text)
    with (record_at (level_of S) w (depth_of st) text) in Hcont.
  destruct S; try (exists w1; split; [exact Hrun|split; assumption]).
  destruct (@exit_open unit (errors_New "") w1 sb1 Hopen)
    as (w2 & Hexit & _ & Hsame & Hpath2 & _).
  exists w2. split; [erewrite bind_Ret by exact Hrun; exact Hexit|].
  split; [now rewrite Hpath2|now rewrite Hsame].
Qed.

Lemma first_record_truncates_witness :
  exists w0 w',
    NewLogger "/tmp/app.log" ("10" +:+ "M") 0 30
      (set_disk {[ "/tmp/app.log" := bytes_of "old" ]} (demo_world 3 0))
    = Ret tt w0 /\
    disk w0 = disk (set_disk {[ "/tmp/app.log" := bytes_of "old" ]}
                      (demo_world 3 0)) /\
    space w0 = space (set_disk {[ "/tmp/app.log" := bytes_of "old" ]}
                        (demo_world 3 0)) /\
    stderr w0 = stderr (set_disk {[ "/tmp/app.log" := bytes_of "old" ]}
                          (demo_world 3 0)) /\
    l_file (lg w0) = None /\
    (let* _ := NewLogger "/tmp/app.log" ("10" +:+ "M") 0 30 in
     emit SInfo Print (bytes_of "x"))
      (set_disk {[ "/tmp/app.log" := bytes_of "old" ]} (demo_world 3 0))
    = Ret tt w' /\
    logPath (lg w') = "/tmp/app.log" /\
    log_content w'
    = record_at InfoLog
        (set_disk {[ "/tmp/app.log" := bytes_of "old" ]} (demo_world 3 0))
        (depth_of Print) (bytes_of "x").
Proof.
  apply (first_record_truncates "/tmp/app.log" "10" "M"%char (1024 * 1024) 0 30
           SInfo Print (bytes_of "x")
           (set_disk {[ "/tmp/app.log" := bytes_of "old" ]} (demo_world 3 0))).
  - vm_compute. intuition congruence.
  - reflexivity.
  - vm_compute. discriminate.
  - lia.
  - apply (formats_demo 3 0).
  - reflexivity.
  - vm_compute. discriminate.
Defined.


(** [output] when the log file cannot be created. *)
Lemma output_denied buf file line w :
  l_file (lg w) = None -> logPath (lg w) ∈ denied w ->
  exists w' err,
    output buf file line w = Exit 2 w' /\
    stderr w' = stderr w ++ Buffer buf ++ exit_message err /\
    disk w' = disk w /\ l_file (lg w') = None.
Proof.
  intros Hnil Hden.
  destruct w as [d dn sp se cl ti ca [lp ll lf lfile] p].
  cbn in Hnil, Hden. subst lfile.
  unfold output. cbv zeta. erewrite bind_Ret by reflexivity.
  cbn [lg l_file].
  eexists _, _. split.
  - erewrite bind_Exit; [reflexivity|].
    erewrite bind_Ret.
    2:{ rewrite create_run. cbn [lg logPath denied].
        rewrite decide_True by assumption. reflexivity. }
    cbv beta iota. erewrite bind_Ret by reflexivity.
    unfold exit. erewrite bind_Ret by reflexivity.
    erewrite bind_Ret by reflexivity.
    reflexivity.
  - cbn. rewrite <- app_assoc. auto.
Qed.

(** X13: when the log file cannot be created for the first record, the
    record is written to the standard error stream, followed by the line
    of [exit], the process ends with code 2 and the disk is unchanged. *)
Theorem record_goes_to_stderr (S : severity) (st : style) (text : list ascii)
    (w : world) :
  l_file (lg w) = None -> logPath (lg w) ∈ denied w ->
  logLevel (lg w) <= level_of S -> formats w (depth_of st) ->
  exists w' err,
    emit S st text w = Exit 2 w' /\
    stderr w'
    = stderr w ++ record_at (level_of S) w (depth_of st) text ++
      exit_message err /\
    disk w' = disk w.
Proof.
  intros Hnil Hden Hle Hf. rewrite emit_unfold.
  destruct (Z.leb_spec (logLevel (lg w)) (level_of S)); [|lia].
  pose proof (level_of_nonneg S) as [Hs _].
  destruct (log_call_run st (level_of S) text w Hs Hf) as [t' Hcall].
  destruct (output_denied
              {| Buffer := record_at (level_of S) w (depth_of st) text;
                 tmp := t' |}
              (fst (caller_at w (depth_of st)))
              (snd (caller_at w (depth_of st))) (taken w))
    as (w' & err & Hrun & Hstderr & Hdisk & _).
  { unfold taken. destruct w as [d dn sp se cl ti ca l p]. cbn in *.
    now destruct p. }
  { unfold taken. destruct w as [d dn sp se cl ti ca l p]. cbn in *.
    now destruct p. }
  rewrite <- Hcall in Hrun. exists w', err.
  assert (Hs' : stderr (taken w) = stderr w /\ disk (taken w) = disk w).
  { unfold taken. destruct w as [d dn sp se cl ti ca l p]. cbn.
    now destruct p. }
  destruct Hs' as [Hs1 Hs2]. rewrite Hs1 in Hstderr. rewrite Hs2 in Hdisk.
  split; [|split; assumption].
  destruct S; cbn [level_of] in *; try exact Hrun.
  now erewrite bind_Exit by exact Hrun.
Qed.

Lemma record_goes_to_stderr_witness :
  exists w' err,
    emit SError Printf (bytes_of "x") demo_denied = Exit 2 w' /\
    stderr w'
    = stderr demo_denied ++ record_at (level_of SError) demo_denied
                              (depth_of Printf) (bytes_of "x") ++
      exit_message err /\
    disk w' = disk demo_denied.
Proof.
  apply (record_goes_to_stderr SError Printf (bytes_of "x") demo_denied).
  - reflexivity.
  - vm_compute. reflexivity.
  - vm_compute. discriminate.
  - split; [unfold wf_time; cbn; lia|]. split; [split; reflexivity|].
    cbn. lia.
Defined.

(** [println] hands the header, the text and a newline to [output]. *)
Lemma println_run s text w :
  0 <= s -> formats w 0 ->
  exists t',
    println s text w
    = output {| Buffer := header_bytes s (clock w (ticks w))
                            (fst (caller_at w 0)) (snd (caller_at w 0)) ++
                          text ++ [newline];
                tmp := t' |}
        (fst (caller_at w 0)) (snd (caller_at w 0)) (taken w).
Proof.
  intros Hs Hf. destruct (header_run s 0 w Hs Hf) as (t' & _ & Hrun).
  exists t'. unfold println. erewrite bind_Ret by exact Hrun. reflexivity.
Qed.

(** X14: [println] appends the text and a newline to the header without
    looking at the text: a text that ends in a newline gives a record that
    ends in two. *)
Theorem println_always_appends (s : Z) (text : list ascii) (w : world) :
  0 <= s -> formats w 0 ->
  ready w (Z.of_nat (length (header_bytes s (clock w (ticks w))
                               (fst (caller_at w 0)) (snd (caller_at w 0)) ++
                             text ++ [newline]))) ->
  exists w' older,
    println s text w = Ret tt w' /\
    log_content w'
    = older ++ header_bytes s (clock w (ticks w)) (fst (caller_at w 0))
                 (snd (caller_at w 0)) ++ text ++ [newline].
Proof.
  intros Hs Hf Hr. destruct (println_run s text w Hs Hf) as [t' ->].
  match goal with
  | |- context [output ?b ?f ?l (taken w)] =>
    destruct (output_run b f l (taken w)) as (w' & sb' & older & Hrun & _ & Hc)
  end.
  { now apply ready_taken. }
  exists w', older. split; [exact Hrun|exact Hc].
Qed.

Lemma println_always_appends_witness :
  exists w' older,
    println InfoLog (bytes_of "x" ++ [newline]) (demo_world 0 1000) = Ret tt w' /\
    log_content w'
    = older ++ header_bytes InfoLog (clock (demo_world 0 1000)
                                       (ticks (demo_world 0 1000)))
                 (fst (caller_at (demo_world 0 1000) 0))
                 (snd (caller_at (demo_world 0 1000) 0)) ++
      (bytes_of "x" ++ [newline]) ++ [newline].
Proof.
  apply (println_always_appends InfoLog (bytes_of "x" ++ [newline])
           (demo_world 0 1000)).
  - vm_compute. discriminate.
  - apply formats_demo.
  - split; [reflexivity|]. vm_compute. discriminate.
Defined.

Lemma write_after_failed_flush_exits_witness :
  exists w',
    sb_Write (bytes_of "entry") demo_stuck = Exit 2 w' /\
    stderr w' = stderr demo_stuck ++ exit_message "short write" /\
    log_content w' = log_content demo_stuck.
Proof.
  eapply (write_after_failed_flush_exits (bytes_of "entry") demo_stuck).
  - split; [reflexivity|]. split; [reflexivity|].
    split; [eexists; reflexivity|]. vm_compute. discriminate.
  - reflexivity.
  - reflexivity.
Defined.

(** ** The content of the log file after a write *)

Lemma sb_Write_content p w sb r w' :
  counted w -> l_file (lg w) = Some sb -> sb_Write p w = Ret r w' ->
  counted w' /\ is_Some (l_file (lg w')) /\
  fileMaxSize (lg w') = fileMaxSize (lg w) /\
  log_content w' = (if rotates w sb p then [] else log_content w) ++ p.
Proof.
  intros Hcnt Hsb Hrun. destruct (Hcnt sb Hsb) as [Hopen Hnb].
  pose proof Hopen as (_ & _ & [c Hc] & _).
  destruct r as [n e].
  destruct (sb_Write_counts p w sb n e w' Hcnt Hsb Hrun)
    as (Hcnt' & _ & _ & sb' & Hsb' & _).
  destruct (sb_Write_run p w sb c Hopen Hc) as [Hret _].
  destruct (Hret _ _ Hrun)
    as (sb'' & c' & _ & Hopen' & _ & Hc' & Hcfg & _ & _ & Hcase).
  pose proof Hopen' as (Hsb'' & _).
  assert (Hpath : logPath (lg w') = logPath (lg w)) by apply Hcfg.
  split; [exact Hcnt'|]. split; [eauto|]. split; [apply Hcfg|].
  rewrite (log_content_open w' sb'' c' Hsb'') by (now rewrite Hpath).
  rewrite (log_content_open w sb c Hsb Hc).
  destruct (rotates w sb p).
  - destruct Hcase as (_ & _ & Hcont & _). now rewrite Hcont.
  - destruct Hcase as (_ & _ & Hcont & _). now rewrite Hcont, app_assoc.
Qed.



(** X16: when every record is shorter than the maximal size, which is at
    most 2^63, the log file stays shorter than the maximal size through
    any sequence of writes that return. *)
Theorem log_file_stays_below_max (ps : list (list ascii)) (w w' : world) :
  counted w -> is_Some (l_file (lg w)) -> fileMaxSize (lg w) <= 2 ^ 63 ->
  Forall (fun p => Z.of_nat (length p) < fileMaxSize (lg w)) ps ->
  Z.of_nat (length (log_content w)) < fileMaxSize (lg w) ->
  write_all ps w = Ret tt w' ->
  Z.of_nat (length (log_content w')) < fileMaxSize (lg w).
Proof.
  revert w. induction ps as [|p ps IH]; intros w Hcnt [sb Hsb] Hmax Hps Hlen;
    cbn [write_all].
  - now intros [= <-].
  - apply Forall_cons in Hps as [Hp Hps].
    unfold bind. destruct (sb_Write p w) as [r w1| |] eqn:Hw; try discriminate.
    intros Hrest.
    destruct (sb_Write_content p w sb r w1 Hcnt Hsb Hw)
      as (Hcnt1 & Hs1 & Hmax1 & Hcont1).
    rewrite <- Hmax1. apply (IH w1); try assumption; rewrite ?Hmax1; try assumption.
    rewrite Hcont1. destruct (Hcnt sb Hsb) as [_ Hnb].
    destruct (rotates w sb p) eqn:Hrot; [cbn [app]; assumption|].
    rewrite length_app. unfold rotates in Hrot.
    apply Z.leb_gt in Hrot. rewrite Hnb in Hrot.
    assert (H64 : 2 ^ 63 + 2 ^ 63 = two64) by reflexivity.
    rewrite !u64_small in Hrot by (try rewrite !u64_small; lia). lia.
Qed.

Lemma log_file_stays_below_max_witness :
  Z.of_nat (length (log_content
                      (world_of (write_all [bytes_of "one"; bytes_of "two"]
                                   (demo_open 100)))))
  < fileMaxSize (lg (demo_open 100)).
Proof.
  apply (log_file_stays_below_max [bytes_of "one"; bytes_of "two"]
           (demo_open 100)).
  - apply counted_demo.
  - eexists. reflexivity.
  - vm_compute. discriminate.
  - repeat constructor.
  - reflexivity.
  - vm_compute. reflexivity.
Defined.

(** ** Rotated names *)

(** X17: the name of a rotated file does not tell rotations apart: two
    rotations in the same minute move the file to the same name, and so do
    rotations on January 11 at 01:02 and on November 1 at 01:21 of the same
    year, since the fields are printed without padding. *)
Theorem rotation_names_collide (w : world) :
  (forall t1 t2,
      Year t1 = Year t2 -> Month t1 = Month t2 -> Day t1 = Day t2 ->
      Hour t1 = Hour t2 -> Minute t1 = Minute t2 ->
      rotateFile t1 w = rotateFile t2 w) /\
  (forall year second second',
      let january11 := {| Year := year; Month := 1; Day := 11; Hour := 1;
                          Minute := 2; Second := second; Nanosecond := 0 |} in
      let november1 := {| Year := year; Month := 11; Day := 1; Hour := 1;
                          Minute := 21; Second := second'; Nanosecond := 0 |} in
      rotated_name (logPath (lg w)) january11
      = rotated_name (logPath (lg w)) november1 /\
      rotateFile january11 w = rotateFile november1 w).
Proof.
  split.
  - intros [y1 m1 d1 h1 n1 s1 ns1] [y2 m2 d2 h2 n2 s2 ns2].
    cbn [Year Month Day Hour Minute]. intros -> -> -> -> ->.
    reflexivity.
  - intros year second second' t1 t2.
    split; [unfold rotated_name; now do 2 f_equal|].
    unfold rotateFile, t1, t2. cbn [Year Month Day Hour Minute].
    reflexivity.
Qed.

(** X18: when two consecutive writes both rotate and the rotated names
    coincide, the second rotation replaces the file of the first: the
    rotated file holds the first record only, the log file the second, and
    what the log file held before the first write is lost. *)
Theorem second_rotation_overwrites (p1 p2 : list ascii) (w : world)
    (sb : syncBuffer) :
  sink_open w sb -> wr_err (sb_Writer sb) = None -> denied w = ∅ ->
  Buffered (sb_Writer sb) + Z.of_nat (length p1) + Z.of_nat (length p2)
  <= space w ->
  0 <= nbytes sb -> nbytes sb + Z.of_nat (length p1) < two64 ->
  Z.of_nat (length p1) + Z.of_nat (length p2) < two64 ->
  fileMaxSize (lg w) <= nbytes sb + Z.of_nat (length p1) ->
  fileMaxSize (lg w) <= Z.of_nat (length p1) + Z.of_nat (length p2) ->
  rotated_name (logPath (lg w)) (clock w (S (ticks w)))
  = rotated_name (logPath (lg w)) (clock w (ticks w)) ->
  exists w',
    write_all [p1; p2] w = Ret tt w' /\
    disk w' !! rotated_name (logPath (lg w)) (clock w (ticks w)) = Some p1 /\
    log_content w' = p2 /\
    forall q, q <> logPath (lg w) ->
              q <> rotated_name (logPath (lg w)) (clock w (ticks w)) ->
              disk w' !! q = disk w !! q.
Proof.
  intros Hopen Herr Hden Hroom Hnb Hno1 Hno2 Hfull1 Hfull2 Hsame.
  pose proof Hopen as (Hsb & Hfile & [c Hc] & Hsize).
  set (path := logPath (lg w)) in *.
  set (name := rotated_name path (clock w (ticks w))) in *.
  (* the first write *)
  destruct (sb_Write_ready p1 w sb (Z.of_nat (length p2)) Hopen Herr Hden)
    as (w1 & sb1 & Hrun1 & Hopen1 & Herr1 & Hroom1 & Hcfg1 & _); [lia|lia|].
  destruct (sb_Write_run p1 w sb c Hopen Hc) as [Hret1 _].
  destruct (Hret1 _ _ Hrun1)
    as (sb1' & c1 & _ & Hopen1' & _ & Hc1 & _ & _ & _ & Hcase1).
  assert (sb1' = sb1) as ->.
  { destruct Hopen1 as [H1 _], Hopen1' as [H2 _]. congruence. }
  rewrite rotates_no_overflow in Hcase1 by assumption.
  destruct (Z.leb_spec (fileMaxSize (lg w)) (nbytes sb + Z.of_nat (length p1)));
    [|lia].
  destruct Hcase1 as (Ht1 & Hn1 & Hcont1 & old & _ & _ & Hdisk1).
  fold path name in Hdisk1, Hc1.
  destruct Hcfg1 as (Hden1 & _ & Hclock1 & _ & _ & Hpath1 & _ & Hmax1).
  fold path in Hpath1.
  rewrite <- Hpath1 in Hc1.
  (* the second write *)
  destruct (sb_Write_ready p2 w1 sb1 0 Hopen1 Herr1)
    as (w2 & sb2 & Hrun2 & Hopen2 & _ & _ & Hcfg2 & _);
    [congruence|lia|lia|].
  destruct (sb_Write_run p2 w1 sb1 c1 Hopen1 Hc1) as [Hret2 _].
  destruct (Hret2 _ _ Hrun2)
    as (sb2' & c2 & _ & Hopen2' & _ & Hc2 & _ & _ & _ & Hcase2).
  assert (sb2' = sb2) as ->.
  { destruct Hopen2 as [H1 _], Hopen2' as [H2 _]. congruence. }
  assert (Hn1' : nbytes sb1 = Z.of_nat (length p1)).
  { rewrite Hn1. apply u64_small. lia. }
  rewrite rotates_no_overflow in Hcase2 by lia.
  rewrite Hmax1, Hn1' in Hcase2.
  destruct (Z.leb_spec (fileMaxSize (lg w))
              (Z.of_nat (length p1) + Z.of_nat (length p2))); [|lia].
  destruct Hcase2 as (_ & _ & Hcont2 & archived & _ & Hall & Hdisk2).
  rewrite Hpath1, Hclock1, Ht1, Hsame in Hdisk2. fold name in Hdisk2.
  rewrite Hall in Hdisk2 by (assumption || lia). rewrite Hcont1 in Hdisk2.
  exists w2. split.
  { cbn [write_all]. erewrite bind_Ret by exact Hrun1.
    erewrite bind_Ret by exact Hrun2. reflexivity. }
  assert (Hne : name <> path) by apply rotated_name_fresh.
  split; [|split].
  - rewrite Hdisk2, lookup_insert_ne by congruence. apply lookup_insert_eq.
  - destruct Hopen2 as (Hsb2 & _). destruct Hcfg2 as (_ & _ & _ & _ & _ & Hpath2 & _).
    rewrite (log_content_open w2 sb2 c2 Hsb2) by (now rewrite Hpath2).
    exact Hcont2.
  - intros q Hq1 Hq2. rewrite Hdisk2, Hdisk1.
    rewrite !lookup_insert_ne, !lookup_delete_ne, !lookup_insert_ne,
      lookup_delete_ne by congruence.
    reflexivity.
Qed.

Lemma second_rotation_overwrites_witness :
  exists w',
    write_all [bytes_of "one"; bytes_of "two"] (demo_open 3) = Ret tt w' /\
    disk w' !! rotated_name (logPath (lg (demo_open 3)))
                 (clock (demo_open 3) (ticks (demo_open 3)))
    = Some (bytes_of "one") /\
    log_content w' = bytes_of "two" /\
    forall q, q <> logPath (lg (demo_open 3)) ->
              q <> rotated_name (logPath (lg (demo_open 3)))
                     (clock (demo_open 3) (ticks (demo_open 3))) ->
              disk w' !! q = disk (demo_open 3) !! q.
Proof.
  apply (second_rotation_overwrites (bytes_of "one") (bytes_of "two")
           (demo_open 3) demo_sink (sink_open_demo 3)).
  - reflexivity.
  - reflexivity.
  - vm_compute. discriminate.
  - vm_compute. discriminate.
  - vm_compute. reflexivity.
  - vm_compute. reflexivity.
  - vm_compute. discriminate.
  - vm_compute. discriminate.
  - reflexivity.
Defined.

(** ** A log file that is gone *)

Lemma File_Write_missing f p w r w' path :
  File_Write f p w = Ret r w' -> disk w !! path = None ->
  disk w' !! path = None /\ lg w' = lg w /\ stderr w' = stderr w.
Proof.
  destruct f as [|q|]; cbn; intros [= _ <-] Hnone; cbn; auto.
  split; [|auto]. destruct (decide (q = path)) as [->|Hne].
  - now rewrite lookup_alter_eq, Hnone.
  - now rewrite lookup_alter_ne.
Qed.

Lemma Writer_Flush_missing f b w r w' path :
  Writer_Flush f b w = Ret r w' -> disk w !! path = None ->
  disk w' !! path = None /\ lg w' = lg w /\ stderr w' = stderr w.
Proof.
  unfold Writer_Flush. destruct (wr_err b); [intros [= _ <-]; auto|].
  destruct (Buffered b =? 0); [intros [= _ <-]; auto|].
  destruct (File_Write f (wr_buf b) w) as [[n e1] w1| |] eqn:Hw;
    [|destruct (File_Write_returns f (wr_buf b) w) as (? & ? & ? & H & _);
      congruence..].
  erewrite bind_Ret by exact Hw. cbv beta iota. intros Hrun Hnone.
  pose proof (File_Write_missing _ _ _ _ _ path Hw Hnone) as Hm.
  destruct e1; [|destruct (n <? Buffered b)]; injection Hrun as _ <-; exact Hm.
Qed.

(** X19: when the log file is gone from the disk, a write that has to
    rotate ends the process with code 2: the rename fails and its error
    goes to the standard error stream. *)
Theorem rotation_without_file_exits (p : list ascii) (w : world)
    (sb : syncBuffer) :
  l_file (lg w) = Some sb -> disk w !! logPath (lg w) = None ->
  rotates w sb p = true ->
  exists w' err,
    sb_Write p w = Exit 2 w' /\ stderr w' = stderr w ++ exit_message err.
Proof.
  intros Hsb Hnone Hrot.
  rewrite (sb_Write_unfold p w sb Hsb), Hrot.
  set (w0 := set_ticks (S (ticks w)) w).
  destruct (Writer_Flush (sb_file sb) (sb_Writer sb) w0) as [[b1 e1] w1| |]
    eqn:Hf;
    [|destruct (Writer_Flush_returns (sb_file sb) (sb_Writer sb) w0)
        as (? & ? & ? & H & _); congruence..].
  destruct (Writer_Flush_missing _ _ _ _ _ (logPath (lg w)) Hf Hnone)
    as (Hnone1 & Hlg1 & Hstderr1).
  change (lg w0) with (lg w) in Hlg1. change (stderr w0) with (stderr w) in Hstderr1.
  set (err := "rename " +:+ logPath (lg w) +:+ " " +:+
              rotated_name (logPath (lg w)) (clock w (ticks w)) +:+
              ": no such file or directory").
  assert (Hrotate : exists w2, rotateFile (clock w (ticks w)) w0
                               = Ret (Some err) w2 /\ stderr w2 = stderr w).
  { unfold rotateFile. eexists. split.
    - erewrite bind_Ret.
      2:{ unfold sb_Flush. erewrite bind_Ret by (apply the_sink_run; exact Hsb).
          erewrite bind_Ret by exact Hf. cbv beta iota.
          erewrite bind_Ret by reflexivity. reflexivity. }
      erewrite bind_Ret by (apply the_sink_run; reflexivity).
      erewrite bind_Ret by reflexivity. erewrite bind_Ret by reflexivity.
      cbn [lg set_lg logPath set_l_file]. rewrite Hlg1.
      rewrite rotated_name_Sprintf.
      erewrite bind_Ret.
      2:{ unfold os_Rename. cbn [disk set_lg]. rewrite Hnone1. reflexivity. }
      reflexivity.
    - cbn [stderr set_lg]. exact Hstderr1. }
  destruct Hrotate as (w2 & Hrotate & Hstderr2).
  destruct (@exit_stderr unit err w2) as (w3 & Hexit & Hstderr3).
  exists w3, err. split.
  - erewrite bind_Exit; [reflexivity|].
    erewrite bind_Ret by reflexivity. fold w0.
    erewrite bind_Ret by exact Hrotate. exact Hexit.
  - now rewrite Hstderr3, Hstderr2.
Qed.

Lemma rotation_without_file_exits_witness :
  exists w' err,
    sb_Write (bytes_of "entry") demo_gone = Exit 2 w' /\
    stderr w' = stderr demo_gone ++ exit_message err.
Proof.
  apply (rotation_without_file_exits (bytes_of "entry") demo_gone demo_sink);
    reflexivity.
Defined.

(** ** The emit operations and the disk *)

(** X20: an emit operation never panics and never ends the process with a
    code other than 2, whatever the device, the disk and the sink do, once
    the clock and the pool are well formed. *)
Theorem emit_never_panics (S : severity) (st : style) (text : list ascii)
    (w : world) :
  formats w (depth_of st) -> ends (emit S st text w).
Proof.
  intros Hf. rewrite emit_unfold.
  destruct (logLevel (lg w) <=? level_of S); [|exact I].
  pose proof (level_of_nonneg S) as [Hs _].
  destruct (log_call_run st (level_of S) text w Hs Hf) as [t' Hcall].
  pose proof (output_ends
                {| Buffer := record_at (level_of S) w (depth_of st) text;
                   tmp := t' |}
                (fst (caller_at w (depth_of st)))
                (snd (caller_at w (depth_of st))) (taken w)) as Hends.
  rewrite <- Hcall in Hends.
  destruct S; cbn [level_of] in *; try exact Hends.
  destruct (log_call st FatalLog text w) as [[] w1|c w1|w1] eqn:Hrun.
  - erewrite bind_Ret by exact Hrun. apply exit_ends.
  - erewrite bind_Exit by exact Hrun. exact Hends.
  - contradiction.
Qed.

Lemma emit_never_panics_witness :
  ends (emit SWarning (PrintDepth 1) (bytes_of "x") demo_denied).
Proof.
  apply (emit_never_panics SWarning (PrintDepth 1) (bytes_of "x") demo_denied).
  split; [unfold wf_time; cbn; lia|]. split; [split; reflexivity|]. cbn. lia.
Defined.

(** X21: a write that does not rotate and fits the room left in the write
    buffer touches neither the disk nor the device: its bytes are pending
    in the buffer until a flush, a rotation or a later write moves
    them. *)
Theorem small_record_stays_buffered (p : list ascii) (w : world)
    (sb : syncBuffer) :
  l_file (lg w) = Some sb -> wr_err (sb_Writer sb) = None ->
  rotates w sb p = false ->
  Buffered (sb_Writer sb) + Z.of_nat (length p) <= bufferSize ->
  exists w' sb',
    sb_Write p w = Ret (Z.of_nat (length p), None) w' /\
    l_file (lg w') = Some sb' /\
    wr_buf (sb_Writer sb') = wr_buf (sb_Writer sb) ++ p /\
    disk w' = disk w /\ space w' = space w.
Proof.
  intros Hsb Herr Hrot Hfit.
  rewrite (sb_Write_unfold p w sb Hsb), Hrot. unfold sb_append.
  erewrite bind_Ret by (apply the_sink_run; exact Hsb).
  erewrite bind_Ret.
  2:{ unfold Writer_Write.
      rewrite Writer_Write_loop_skip by (left; unfold Available; lia).
      rewrite Writer_Write_end_run, Herr. reflexivity. }
  cbv beta iota. erewrite bind_Ret by reflexivity.
  eexists _, _. split; [reflexivity|]. cbn. auto.
Qed.

Lemma small_record_stays_buffered_witness :
  exists w' sb',
    sb_Write (bytes_of "entry") (demo_open 100)
    = Ret (Z.of_nat (length (bytes_of "entry")), None) w' /\
    l_file (lg w') = Some sb' /\
    wr_buf (sb_Writer sb') = wr_buf (sb_Writer demo_sink) ++ bytes_of "entry" /\
    disk w' = disk (demo_open 100) /\ space w' = space (demo_open 100).
Proof.
  apply (small_record_stays_buffered (bytes_of "entry") (demo_open 100)
           demo_sink); try reflexivity.
  vm_compute. discriminate.
Defined.

(** X22: when no fault is ahead, an emitted record is in the log file on
    the disk once [Flush] has returned. *)
Theorem record_on_disk_after_Flush (S : severity) (st : style)
    (text : list ascii) (w : world) :
  S <> SFatal -> logLevel (lg w) <= level_of S -> formats w (depth_of st) ->
  ready w (Z.of_nat (length (record_at (level_of S) w (depth_of st) text))) ->
  exists w' older,
    (let* _ := emit S st text in Flush) w = Ret tt w' /\
    disk w' !! logPath (lg w)
    = Some (older ++ record_at (level_of S) w (depth_of st) text).
Proof.
  intros Hnf Hle Hf Hr.
  assert (Hemit : emit S st text w = log_call st (level_of S) text w).
  { rewrite emit_unfold.
    destruct (Z.leb_spec (logLevel (lg w)) (level_of S)); [|lia].
    now destruct S. }
  pose proof (level_of_nonneg S) as [Hs _].
  destruct (log_call_ready st (level_of S) text w 0 Hs Hf)
    as (w1 & sb1 & Hrun & Hopen & Herr & Hroom & _ & _ & Hpath & _ & _ & Hcont);
    [now rewrite Z.add_0_r|lia|].
  pose proof Hopen as (Hsb1 & Hfile1 & [c1 Hc1] & _).
  destruct (flushAll_open w1 sb1 c1 Hopen Hc1)
    as (b2 & c2 & sp2 & Hflush & Hcont2 & _ & _ & Hemp & Hok & _).
  specialize (Hok Herr ltac:(lia)). specialize (Hemp Hok).
  rewrite Hemp, app_nil_r in Hcont2.
  eexists _, _. split.
  - erewrite bind_Ret by (rewrite Hemit; exact Hrun). exact Hflush.
  - cbn [disk set_lg with_file set_space set_disk]. rewrite <- Hpath.
    rewrite lookup_insert_eq. f_equal.
    rewrite Hcont2, <- (log_content_open w1 sb1 c1 Hsb1 Hc1). exact Hcont.
Qed.

Lemma record_on_disk_after_Flush_witness :
  exists w' older,
    (let* _ := emit SInfo Printf (bytes_of "x") in Flush) (demo_world 0 1000)
    = Ret tt w' /\
    disk w' !! logPath (lg (demo_world 0 1000))
    = Some (older ++ record_at (level_of SInfo) (demo_world 0 1000)
                       (depth_of Printf) (bytes_of "x")).
Proof.
  apply (record_on_disk_after_Flush SInfo Printf (bytes_of "x")
           (demo_world 0 1000)).
  - discriminate.
  - vm_compute. discriminate.
  - apply formats_demo.
  - split; [reflexivity|]. vm_compute. discriminate.
Defined.

(** ** The file name of the caller *)

Lemma LastIndex_from_app s t i last :
  LastIndex_from (s +:+ t) i last
  = LastIndex_from t (i + len s) (LastIndex_from s i last).
Proof.
  revert i last. induction s as [|c s IH]; intros i last;
    rewrite ?append_nil_l, ?append_String.
  - cbn [LastIndex_from]. f_equal. unfold len. cbn. lia.
  - cbn [LastIndex_from]. rewrite IH, len_String. f_equal. lia.
Qed.

Lemma LastIndex_from_none s i last :
  "/"%char ∉ bytes_of s -> LastIndex_from s i last = last.
Proof.
  revert i. induction s as [|c s IH]; intros i Hs; cbn [LastIndex_from];
    [reflexivity|].
  rewrite bytes_of_String in Hs. apply not_elem_of_cons in Hs as [Hc Hs].
  rewrite bool_decide_eq_false_2 by congruence. now apply IH.
Qed.

Lemma substring_all t : String.substring 0 (String.length t) t = t.
Proof. induction t as [|c t IH]; cbn; [reflexivity|now rewrite IH]. Qed.

Lemma substring_length_app s t :
  String.substring (String.length s) (String.length t) (s +:+ t) = t.
Proof.
  induction s as [|c s IH]; rewrite ?append_nil_l, ?append_String.
  - apply substring_all.
  - cbn [String.length String.substring]. exact IH.
Qed.

Lemma String_length_app s t :
  String.length (s +:+ t) = (String.length s + String.length t)%nat.
Proof.
  induction s as [|c s IH]; rewrite ?append_nil_l, ?append_String;
    cbn [String.length]; [reflexivity|now rewrite IH].
Qed.

(** The base name of a path: what follows its last slash. *)
Lemma basename_path dir base :
  "/"%char ∉ bytes_of base -> basename (dir +:+ "/" +:+ base) = base.
Proof.
  intros Hbase. unfold basename, LastIndex_slash.
  rewrite LastIndex_from_app, append_String, append_nil_l.
  cbn [LastIndex_from]. rewrite bool_decide_eq_true_2 by reflexivity.
  rewrite LastIndex_from_none by assumption.
  pose proof (len_nonneg dir) as Hd.
  destruct (Z.leb_spec 0 (0 + len dir)); [|lia].
  unfold str_slice_from. rewrite len_app, len_String.
  pose proof (len_nonneg base) as Hb.
  destruct (Z.leb_spec 0 (0 + len dir + 1)); [|lia].
  destruct (Z.leb_spec (0 + len dir + 1) (len dir + (len base + 1))); [|lia].
  cbn [andb default].
  replace (dir +:+ String "/" base) with ((dir +:+ "/") +:+ base)
    by (now rewrite append_assoc).
  replace (Z.to_nat (0 + len dir + 1)) with (String.length (dir +:+ "/")).
  2:{ rewrite String_length_app. unfold len. cbn [String.length]. lia. }
  rewrite (String_length_app (dir +:+ "/") base).
  replace (String.length (dir +:+ "/") + String.length base -
           String.length (dir +:+ "/"))%nat with (String.length base) by lia.
  apply substring_length_app.
Qed.

Lemma basename_plain file : "/"%char ∉ bytes_of file -> basename file = file.
Proof.
  intros Hfile. unfold basename, LastIndex_slash.
  now rewrite LastIndex_from_none by assumption.
Qed.

(** X23: [header] reports the file of the caller without its directories:
    what follows the last slash, the whole name when it has no slash, and
    ["???"] with line 1 when the caller is unknown. *)
Theorem header_reports_base_name (s depth : Z) (w : world) :
  0 <= s -> formats w depth ->
  (callers w (i64 (3 + depth)) = None ->
   exists buf, header s depth w = Ret (buf, "???", 1) (taken w)) /\
  (forall dir base line,
      callers w (i64 (3 + depth)) = Some (dir +:+ "/" +:+ base, line) ->
      "/"%char ∉ bytes_of base ->
      exists buf, header s depth w = Ret (buf, base, line) (taken w)) /\
  (forall file line,
      callers w (i64 (3 + depth)) = Some (file, line) ->
      "/"%char ∉ bytes_of file ->
      exists buf, header s depth w = Ret (buf, file, line) (taken w)).
Proof.
  intros Hs Hf. destruct (header_run s depth w Hs Hf) as (t' & _ & Hrun).
  rewrite Hrun. unfold caller_at. split; [|split].
  - intros ->. cbn [fst snd]. eauto.
  - intros dir base line -> Hbase. cbn [fst snd].
    rewrite basename_path by assumption. eauto.
  - intros file line -> Hfile. cbn [fst snd].
    rewrite basename_plain by assumption. eauto.
Qed.

Lemma header_reports_base_name_witness :
  exists buf,
    header InfoLog 0 (demo_world 0 0)
    = Ret (buf, "demo.go", 42) (taken (demo_world 0 0)).
Proof.
  refine (proj1 (proj2 (header_reports_base_name InfoLog 0 (demo_world 0 0)
                          _ _)) "/src" "demo.go" 42 _ _).
  - vm_compute. discriminate.
  - apply formats_demo.
  - reflexivity.
  - vm_compute. intros H. repeat (apply elem_of_cons in H as [H|H];
      [discriminate|]). inversion H.
Defined.

(** ** The columns of the header *)

(** X24: the header starts with the severity letter and its time stamp
    has a fixed width, for every year and every line: the file name starts
    at byte 28 and is followed by a colon, the line number and ["] "]; a
    negative line is printed as 0 and a severity above Fatal as F. *)
Theorem header_columns (s : Z) (file : string) (line : Z) (w : world) :
  0 <= s -> wf_time (clock w (ticks w)) -> line < 2 ^ 63 ->
  wf_buffer (next_buffer w) ->
  exists buf,
    formatHeader s file line w = Ret buf (taken w) /\
    take 1 (Buffer buf) = [severity_letter s] /\
    length (take 28 (Buffer buf)) = 28%nat /\
    drop 28 (Buffer buf)
    = bytes_of (file +:+ ":" +:+ decimal (Z.max 0 line) +:+ "] ").
Proof.
  intros Hs Hnow Hline [Hempty Hlen].
  destruct (formatHeader_run s file line w Hs Hnow Hline Hlen)
    as (t' & _ & Hrun).
  eexists. split; [exact Hrun|]. cbn [Buffer]. rewrite Hempty, app_nil_l.
  unfold header_bytes. split; [reflexivity|].
  rewrite !bytes_of_app.
  set (rest := bytes_of file ++ _).
  cbn [fixed_digits app]. split; reflexivity.
Qed.

Lemma header_columns_witness :
  exists buf,
    formatHeader 7 "demo.go" (-5) (demo_world 0 0)
    = Ret buf (taken (demo_world 0 0)) /\
    take 1 (Buffer buf) = [severity_letter 7] /\
    length (take 28 (Buffer buf)) = 28%nat /\
    drop 28 (Buffer buf)
    = bytes_of ("demo.go" +:+ ":" +:+ decimal (Z.max 0 (-5)) +:+ "] ").
Proof.
  apply (header_columns 7 "demo.go" (-5) (demo_world 0 0)).
  - lia.
  - unfold wf_time. cbn. lia.
  - lia.
  - split; reflexivity.
Defined.

(** X25: [formatHeader] only bounds the severity from above: for a negative
    severity the index into [severityChar] is out of range and the call
    panics, after the clock was read and a buffer taken from the pool. *)
Theorem formatHeader_negative_severity (s : Z) (file : string) (line : Z)
    (w : world) :
  s < 0 -> formatHeader s file line w = Panic (taken w).
Proof.
  intros Hs. rewrite formatHeader_unfold. unfold header_fill.
  destruct (Z.ltb_spec FatalLog s); [unfold FatalLog in *; lia|].
  unfold str_index. destruct (Z.leb_spec 0 s); [lia|]. reflexivity.
Qed.

Lemma formatHeader_negative_severity_witness :
  formatHeader (-1) "demo.go" 42 (demo_world 0 0)
  = Panic (taken (demo_world 0 0)).
Proof.
  apply (formatHeader_negative_severity (-1) "demo.go" 42 (demo_world 0 0)).
  lia.
Defined.

(** ** Digits in the scratch array *)

Lemma replicate_snoc {A} n (x : A) : replicate n x ++ [x] = replicate (S n) x.
Proof. induction n as [|n IH]; cbn; [reflexivity|now rewrite IH]. Qed.

Lemma nDigits_pad_any k i pad buf :
  0 <= i -> (Z.to_nat i + k <= length (tmp buf))%nat ->
  nDigits_pad k i pad buf
  = Some {| Buffer := Buffer buf;
            tmp := splice (Z.to_nat i) (replicate k pad) (tmp buf) |}.
Proof.
  revert buf. induction k as [|k IH]; intros buf Hi Hlen.
  - cbn [nDigits_pad replicate]. rewrite splice_nil. now destruct buf.
  - cbn [nDigits_pad]. rewrite tmp_set_ok by lia. cbn [mbind option_bind].
    rewrite IH by (cbn [tmp]; rewrite ?length_insert; lia).
    cbn [Buffer tmp]. do 2 f_equal.
    replace (Z.to_nat (i + Z.of_nat k))
      with (Z.to_nat i + length (replicate k pad))%nat
      by (rewrite length_replicate; lia).
    rewrite splice_snoc by (rewrite length_replicate; lia).
    now rewrite replicate_snoc.
Qed.

Lemma padded_step k d pad :
  0 < d -> padded (S k) d pad = padded k (d / 10) pad ++ [digit_char (d mod 10)].
Proof.
  intros Hd. unfold padded. destruct (Z.ltb_spec 0 d); [|lia].
  destruct (Z_lt_ge_dec d 10) as [Hlt|Hge].
  - rewrite decimal_small, Z.div_small, Z.mod_small by lia.
    cbn [Z.ltb Z.compare bytes_of list_ascii_of_string length drop].
    rewrite Nat.sub_0_r, app_nil_r. cbn [Nat.sub].
    replace (k - 0)%nat with k by lia. reflexivity.
  - assert (0 < d / 10) by (apply Z.div_str_pos; lia).
    destruct (Z.ltb_spec 0 (d / 10)); [|lia].
    rewrite (decimal_step d), bytes_of_app, length_app by lia.
    cbn [bytes_of list_ascii_of_string length].
    fold (bytes_of (decimal (d / 10))).
    set (ds := bytes_of (decimal (d / 10))).
    replace (S k - (length ds + 1))%nat with (k - length ds)%nat by lia.
    replace (length ds + 1 - S k)%nat with (length ds - k)%nat by lia.
    rewrite drop_app_le by lia. now rewrite app_assoc.
Qed.

Lemma padded_nonpositive k d pad : d <= 0 -> padded k d pad = replicate k pad.
Proof.
  intros Hd. unfold padded. destruct (Z.ltb_spec 0 d); [lia|].
  cbn [length drop]. now rewrite Nat.sub_0_r, app_nil_r.
Qed.

Lemma length_padded k d pad : length (padded k d pad) = k.
Proof.
  unfold padded. cbv zeta.
  rewrite length_app, length_replicate, length_drop. lia.
Qed.

Lemma nDigits_loops_any k i d pad buf :
  0 <= i -> (Z.to_nat i + k <= length (tmp buf))%nat ->
  (nDigits_fill k i d buf ≫= λ '(k', b), nDigits_pad k' i pad b)
  = Some {| Buffer := Buffer buf;
            tmp := splice (Z.to_nat i) (padded k d pad) (tmp buf) |}.
Proof.
  revert d buf. induction k as [|k IH]; intros d buf Hi Hlen.
  - cbn [nDigits_fill mbind option_bind nDigits_pad].
    replace (padded 0 d pad) with (@nil ascii).
    2:{ symmetry. apply nil_length_inv, length_padded. }
    rewrite splice_nil. now destruct buf.
  - cbn [nDigits_fill]. destruct (Z.ltb_spec 0 d) as [Hpos|Hzero].
    + rewrite digit_ok by lia. cbn [mbind option_bind].
      rewrite tmp_set_ok by lia. cbn [mbind option_bind].
      rewrite Z.quot_div_nonneg by lia.
      rewrite IH by (cbn [tmp]; rewrite ?length_insert; lia).
      cbn [Buffer tmp]. do 2 f_equal.
      replace (Z.to_nat (i + Z.of_nat k))
        with (Z.to_nat i + length (padded k (d / 10) pad))%nat
        by (rewrite length_padded; lia).
      rewrite splice_snoc by (rewrite length_padded; lia).
      now rewrite padded_step.
    + cbn [mbind option_bind]. rewrite nDigits_pad_any by assumption.
      now rewrite padded_nonpositive by lia.
Qed.

(** X26: [nDigits] fills the [n] cells from [buf.tmp[i]] on and no other:
    with the numeral of [d] right-aligned after copies of [pad] when [d] is
    positive and has at most [n] digits, with the low [n] digits when it
    has more, and with [pad] alone when [d] is zero or negative. *)
Theorem nDigits_pads_left (n i d : Z) (pad : ascii) (buf : buffer) :
  0 <= n -> 0 <= i -> i + n <= Z.of_nat (length (tmp buf)) ->
  nDigits n i d pad buf
  = Some {| Buffer := Buffer buf;
            tmp := splice (Z.to_nat i) (padded (Z.to_nat n) d pad)
                     (tmp buf) |} /\
  (d <= 0 -> padded (Z.to_nat n) d pad = replicate (Z.to_nat n) pad) /\
  (0 < d < 10 ^ n ->
   padded (Z.to_nat n) d pad
   = replicate (Z.to_nat n - length (bytes_of (decimal d))) pad ++
     bytes_of (decimal d)).
Proof.
  intros Hn Hi Hlen. split; [|split].
  - unfold nDigits. apply nDigits_loops_any; lia.
  - apply padded_nonpositive.
  - intros Hd. unfold padded. destruct (Z.ltb_spec 0 d); [|lia].
    assert (Hw : (length (bytes_of (decimal d)) <= Z.to_nat n)%nat).
    { destruct (Z.to_nat n) as [|k] eqn:Hk.
      - assert (n = 0) by lia. subst n. change (10 ^ 0) with 1 in Hd. lia.
      - rewrite <- Hk. apply decimal_width; [|lia].
        rewrite Z2Nat.id by lia. lia. }
    replace (length (bytes_of (decimal d)) - Z.to_nat n)%nat with 0%nat by lia.
    reflexivity.
Qed.

Lemma nDigits_pads_left_witness :
  nDigits 4 1 7 " " new_buffer
  = Some {| Buffer := Buffer new_buffer;
            tmp := splice (Z.to_nat 1) (padded (Z.to_nat 4) 7 " ")
                     (tmp new_buffer) |} /\
  padded (Z.to_nat 4) 7 " " = bytes_of "   7" /\
  padded (Z.to_nat 4) 0 " " = bytes_of "    " /\
  padded (Z.to_nat 4) 12345 "0" = bytes_of "2345".
Proof.
  split; [|repeat split; vm_compute; reflexivity].
  apply (nDigits_pads_left 4 1 7 " "%char new_buffer); cbn; lia.
Defined.

(** X27: [someDigits] returns the number of digits of [d] and leaves the
    decimal numeral of [d] in the cells from [buf.tmp[i]] on, when they are
    within the array; the array keeps its length and the buffer its
    bytes. *)
Theorem someDigits_writes_decimal (i d : Z) (buf : buffer) :
  0 <= d -> 0 <= i ->
  i + Z.of_nat (length (bytes_of (decimal d))) <= Z.of_nat (length (tmp buf)) ->
  exists buf',
    someDigits i d buf
    = Some (Z.of_nat (length (bytes_of (decimal d))), buf') /\
    Buffer buf' = Buffer buf /\
    length (tmp buf') = length (tmp buf) /\
    take (length (bytes_of (decimal d))) (drop (Z.to_nat i) (tmp buf'))
    = bytes_of (decimal d).
Proof.
  intros Hd Hi Hfit. set (ds := bytes_of (decimal d)) in *.
  set (L := length (tmp buf)) in *.
  unfold someDigits. fold L.
  rewrite someDigits_loop_ok by (fold ds L; lia). fold ds.
  cbn [mbind option_bind]. unfold copy_tmp. cbn [tmp Buffer].
  set (t2 := splice (L - length ds) ds (tmp buf)).
  assert (Ht2 : t2 = take (L - length ds) (tmp buf) ++ ds).
  { subst t2. unfold splice. rewrite (drop_ge (tmp buf)) by (fold L; lia).
    now rewrite app_nil_r. }
  assert (Hlen2 : length t2 = L).
  { rewrite Ht2, length_app, length_take. fold L. lia. }
  rewrite Hlen2.
  destruct (Z.leb_spec 0 i); [|lia].
  destruct (Z.leb_spec i (Z.of_nat L)); [|lia]. cbn [andb].
  assert (Hsrc : drop (L - length ds) t2 = ds).
  { rewrite Ht2. apply drop_app_length'. rewrite length_take. fold L. lia. }
  rewrite Hsrc.
  replace ((L - Z.to_nat i) `min` length ds)%nat with (length ds) by lia.
  eexists. split; [reflexivity|]. cbn [Buffer tmp].
  split; [reflexivity|]. rewrite (take_ge ds) by lia. split.
  - rewrite !length_app, length_take, length_drop, Hlen2. lia.
  - rewrite drop_app_length' by (rewrite length_take, Hlen2; lia).
    now rewrite take_app_length.
Qed.

Lemma someDigits_writes_decimal_witness :
  exists buf',
    someDigits 1 42 new_buffer
    = Some (Z.of_nat (length (bytes_of (decimal 42))), buf') /\
    Buffer buf' = Buffer new_buffer /\
    length (tmp buf') = length (tmp new_buffer) /\
    take (length (bytes_of (decimal 42))) (drop (Z.to_nat 1) (tmp buf'))
    = bytes_of (decimal 42).
Proof.
  apply (someDigits_writes_decimal 1 42 new_buffer); [lia|lia|].
  vm_compute. discriminate.
Defined.

(** X28: [twoDigits] writes the tens and the units digit of [d] to the cells
    [i] and [i+1] and leaves every other cell alone, so that a number above
    99 loses its high digits; with a cell outside the array it panics. *)
Theorem twoDigits_writes_two_cells (i d : Z) (buf : buffer) :
  0 <= d ->
  (0 <= i /\ i + 1 < Z.of_nat (length (tmp buf)) ->
   exists buf',
     twoDigits i d buf = Some buf' /\ Buffer buf' = Buffer buf /\
     tmp buf' !! Z.to_nat i = Some (digit_char (d / 10 mod 10)) /\
     tmp buf' !! Z.to_nat (i + 1) = Some (digit_char (d mod 10)) /\
     forall j, j <> Z.to_nat i -> j <> Z.to_nat (i + 1) ->
               tmp buf' !! j = tmp buf !! j) /\
  (i < 0 \/ Z.of_nat (length (tmp buf)) <= i + 1 -> twoDigits i d buf = None).
Proof.
  intros Hd. split.
  - intros [Hi Hlen]. unfold twoDigits.
    rewrite (digit_ok d) by assumption. cbn [mbind option_bind].
    rewrite tmp_set_ok by lia. cbn [mbind option_bind]. cbv zeta.
    rewrite Z.quot_div_nonneg by lia.
    rewrite (digit_ok (d / 10)) by (apply Z.div_pos; lia).
    cbn [mbind option_bind].
    rewrite tmp_set_ok by (cbn [tmp]; rewrite length_insert; lia).
    eexists. split; [reflexivity|]. cbn [Buffer tmp].
    split; [reflexivity|]. split; [|split].
    + apply list_lookup_insert_eq. rewrite length_insert. lia.
    + rewrite list_lookup_insert_ne by lia.
      apply list_lookup_insert_eq. lia.
    + intros j Hj1 Hj2. now rewrite !list_lookup_insert_ne by congruence.
  - intros Hout. unfold twoDigits.
    rewrite (digit_ok d) by assumption. cbn [mbind option_bind].
    unfold tmp_set at 2.
    destruct (Z.leb_spec 0 (i + 1)); cbn [andb]; [|reflexivity].
    destruct (Z.ltb_spec (i + 1) (Z.of_nat (length (tmp buf))));
      [|reflexivity].
    cbn [mbind option_bind]. cbv zeta.
    rewrite Z.quot_div_nonneg by lia.
    rewrite (digit_ok (d / 10)) by (apply Z.div_pos; lia).
    cbn [mbind option_bind]. unfold tmp_set.
    destruct (Z.leb_spec 0 i); [lia|]. reflexivity.
Qed.

Lemma twoDigits_writes_two_cells_witness :
  exists buf',
    twoDigits 6 123 new_buffer = Some buf' /\
    Buffer buf' = Buffer new_buffer /\
    tmp buf' !! Z.to_nat 6 = Some (digit_char (123 / 10 mod 10)) /\
    tmp buf' !! Z.to_nat (6 + 1) = Some (digit_char (123 mod 10)) /\
    forall j, j <> Z.to_nat 6 -> j <> Z.to_nat (6 + 1) ->
              tmp buf' !! j = tmp new_buffer !! j.
Proof.
  apply (twoDigits_writes_two_cells 6 123 new_buffer); [lia|].
  split; [lia|]. vm_compute. reflexivity.
Defined.

(** ** Files a write touches *)

Lemma sb_Write_frame p w sb r w' :
  sink_open w sb -> sb_Write p w = Ret r w' ->
  forall q, q <> logPath (lg w) ->
            q <> rotated_name (logPath (lg w)) (clock w (ticks w)) ->
            disk w' !! q = disk w !! q.
Proof.
  intros Hopen Hrun q Hq1 Hq2. pose proof Hopen as (_ & _ & [c Hc] & _).
  destruct (sb_Write_run p w sb c Hopen Hc) as [Hret _].
  destruct (Hret _ _ Hrun) as (sb' & c' & _ & _ & _ & _ & _ & _ & _ & Hcase).
  destruct (rotates w sb p).
  - destruct Hcase as (_ & _ & _ & c1 & _ & _ & ->).
    now rewrite !lookup_insert_ne, lookup_delete_ne by congruence.
  - destruct Hcase as (_ & _ & _ & ->). now rewrite lookup_insert_ne by congruence.
Qed.

Lemma output_frame buf file line w w' :
  (forall sb, l_file (lg w) = Some sb -> sink_open w sb) ->
  output buf file line w = Ret tt w' ->
  forall q, q <> logPath (lg w) ->
            q <> rotated_name (logPath (lg w)) (clock w (ticks w)) ->
            disk w' !! q = disk w !! q.
Proof.
  intros Hopen Hrun q Hq1 Hq2. unfold output in Hrun. cbv zeta in Hrun.
  erewrite bind_Ret in Hrun by reflexivity.
  assert (Hwrite : forall w1 sb1,
            sink_open w1 sb1 ->
            (let* _ := sb_Write (Buffer buf) in putBuffer buf) w1 = Ret tt w' ->
            logPath (lg w1) = logPath (lg w) -> clock w1 = clock w ->
            ticks w1 = ticks w ->
            disk w' !! q = disk w1 !! q).
  { intros w1 sb1 Hopen1 Hrun1 Hp Hc Ht. unfold bind in Hrun1.
    destruct (sb_Write (Buffer buf) w1) as [r w2| |] eqn:Hw; try discriminate.
    injection Hrun1 as <-. cbn [disk set_pool].
    eapply sb_Write_frame; [exact Hopen1|exact Hw| |];
      rewrite ?Hp, ?Hc, ?Ht; assumption. }
  destruct (l_file (lg w)) as [sb|] eqn:Hsb.
  - erewrite bind_Ret in Hrun by reflexivity.
    now apply (Hwrite w sb (Hopen sb eq_refl)).
  - pose proof (create_run w) as Hc.
    destruct (decide (logPath (lg w) ∈ denied w)) as [Hden|Hfree].
    + exfalso.
      match type of Hc with
      | _ = Ret (Some ?e) ?w1 =>
        destruct (@exit_exits unit e (set_stderr (stderr w1 ++ Buffer buf) w1))
          as [w2 Hw2]
      end.
      erewrite bind_Exit in Hrun; [discriminate|].
      erewrite bind_Ret by exact Hc. cbv beta iota.
      erewrite bind_Ret by reflexivity. exact Hw2.
    + erewrite bind_Ret in Hrun.
      2:{ erewrite bind_Ret by exact Hc. reflexivity. }
      rewrite Hsb in Hrun.
      match type of Hrun with
      | bind _ _ ?w1 = _ =>
        assert (Ho : sink_open w1 (fresh_sink (logPath (lg w)) 0))
      end.
      { split; [reflexivity|]. split; [reflexivity|].
        split; [cbn; rewrite lookup_insert_eq; eauto|].
        vm_compute. discriminate. }
      rewrite (Hwrite _ _ Ho Hrun) by reflexivity.
      cbn [disk set_lg set_disk]. now rewrite lookup_insert_ne by congruence.
Qed.

(** X29: an emit operation that returns changes no file but the log file
    and the file of the rotated name. *)
Theorem emit_touches_two_files (sev : severity) (st : style)
    (text : list ascii) (w w' : world) :
  formats w (depth_of st) ->
  (forall sb, l_file (lg w) = Some sb -> sink_open w sb) ->
  emit sev st text w = Ret tt w' ->
  forall q, q <> logPath (lg w) ->
            q <> rotated_name (logPath (lg w)) (clock w (S (ticks w))) ->
            disk w' !! q = disk w !! q.
Proof.
  intros Hf Hopen Hrun q Hq1 Hq2. rewrite emit_unfold in Hrun.
  destruct (logLevel (lg w) <=? level_of sev);
    [|injection Hrun as <-; reflexivity].
  pose proof (level_of_nonneg sev) as [Hs _].
  assert (Hcall : log_call st (level_of sev) text w = Ret tt w').
  { destruct sev; try exact Hrun. exfalso. unfold bind in Hrun.
    destruct (log_call st FatalLog text w) as [[] w1| |]; try discriminate.
    destruct (@exit_exits unit (errors_New "") w1) as [w2 Hw2]. congruence. }
  destruct (log_call_run st (level_of sev) text w Hs Hf) as [t' Hout].
  rewrite Hout in Hcall.
  assert (Ht : disk (taken w) = disk w /\ lg (taken w) = lg w /\
               clock (taken w) = clock w /\ ticks (taken w) = S (ticks w)).
  { unfold taken. destruct w as [d dn sp se cl ti ca l p]. cbn. now destruct p. }
  destruct Ht as (Hd & Hl & Hc & Hti).
  rewrite <- Hd.
  eapply output_frame; [|exact Hcall| |].
  - intros sb Hsb. rewrite Hl in Hsb. specialize (Hopen sb Hsb).
    destruct Hopen as (H1 & H2 & H3 & H4). unfold sink_open.
    rewrite Hl, Hd. auto.
  - now rewrite Hl.
  - now rewrite Hl, Hc, Hti.
Qed.

Lemma emit_touches_two_files_witness :
  disk (world_of (emit SInfo Print (bytes_of "x") (demo_open 100)))
    !! "/tmp/other.log"
  = disk (demo_open 100) !! "/tmp/other.log".
Proof.
  apply (emit_touches_two_files SInfo Print (bytes_of "x") (demo_open 100)
           (world_of (emit SInfo Print (bytes_of "x") (demo_open 100)))).
  - apply (formats_demo 0 100).
  - intros sb [= <-]. apply sink_open_demo.
  - vm_compute. reflexivity.
  - discriminate.
  - vm_compute. discriminate.
Defined.

(** ** The flush daemon *)

Lemma Flush_keeps w :
  counted w ->
  exists w', Flush w = Ret tt w' /\ counted w' /\
             log_content w' = log_content w /\ stderr w' = stderr w.
Proof.
  intros Hcnt. destruct (flushAll_returns w) as [w' Hrun].
  exists w'. split; [exact Hrun|]. split; [exact (Flush_counts w w' Hcnt Hrun)|].
  split.
  - destruct (l_file (lg w)) as [sb|] eqn:Hsb.
    + destruct (Hcnt sb Hsb) as [Hopen _].
      pose proof Hopen as (_ & _ & [c Hc] & _).
      destruct (flushAll_open w sb c Hopen Hc)
        as (b1 & c1 & sp1 & Hrun' & Hcont & _).
      rewrite Hrun in Hrun'. injection Hrun' as ->.
      rewrite (log_content_open w sb c Hsb Hc).
      erewrite log_content_open; [|reflexivity|cbn; apply lookup_insert_eq].
      exact Hcont.
    + unfold flushAll in Hrun. erewrite bind_Ret in Hrun by reflexivity.
      rewrite Hsb in Hrun. now injection Hrun as <-.
  - pose proof (keeps_flushAll (fun w' => stderr w' = stderr w)) as Hk.
    specialize (Hk ltac:(auto) ltac:(auto) ltac:(auto) w eq_refl).
    now rewrite Hrun in Hk.
Qed.

Lemma flushDaemon_loop_keeps rounds w :
  counted w ->
  exists w', flushDaemon_loop rounds w = Ret tt w' /\ counted w' /\
             log_content w' = log_content w /\ stderr w' = stderr w.
Proof.
  revert w. induction rounds as [|k IH]; intros w Hcnt; cbn [flushDaemon_loop].
  - exists w. auto.
  - destruct (Flush_keeps w Hcnt) as (w1 & Hrun & Hcnt1 & Hc1 & Hs1).
    destruct (IH w1 Hcnt1) as (w' & Hrun' & Hcnt' & Hc' & Hs').
    exists w'. split; [erewrite bind_Ret by exact Hrun; exact Hrun'|].
    split; [assumption|]. split; congruence.
Qed.

(** X30: the daemon [NewLogger] starts needs a positive flush interval: for
    an interval of zero seconds or less, and for one whose count of
    nanoseconds leaves [int64], as 9223372037 seconds does, its ticker
    panics, which ends the process. With an interval the ticker accepts,
    every tick is a [Flush] that returns: the daemon never ends the
    process, writes nothing to the standard error stream and keeps the
    content of the log file and its byte count. *)
Theorem flushDaemon_needs_positive_interval (flushInterval : Z) (w : world) :
  (- 9223372036 <= flushInterval <= 0 ->
   forall rounds, flushDaemon flushInterval rounds w = Panic w) /\
  (0 < flushInterval <= 9223372036 -> counted w ->
   forall rounds,
     exists w', flushDaemon flushInterval rounds w = Ret tt w' /\
                counted w' /\ log_content w' = log_content w /\
                stderr w' = stderr w) /\
  (forall rounds, flushDaemon 9223372037 rounds w = Panic w).
Proof.
  unfold flushDaemon, time_NewTicker, time_Second.
  split; [|split].
  - intros Hfi rounds. rewrite (i64_small flushInterval) by lia.
    rewrite i64_small by lia.
    destruct (Z.leb_spec (flushInterval * 1000000000) 0); [reflexivity|lia].
  - intros Hfi Hcnt rounds. rewrite (i64_small flushInterval) by lia.
    rewrite i64_small by lia.
    destruct (Z.leb_spec (flushInterval * 1000000000) 0); [lia|].
    erewrite bind_Ret by reflexivity. now apply flushDaemon_loop_keeps.
  - intros rounds. reflexivity.
Qed.
